(** * NMTGMinor: the parallel Transformer layer stacks

    A shallow embedding of [onmt/modules/ParallelTransformer/Models.py]:
    the encoder stack with its memory bank, the decoder stack with its
    causal mask and incremental [step], layer growth ([add_layers],
    [mark_pretrained]) and the checkpointing policy.

    Tensors are a shape with row-major data, as in torch.  Python
    exceptions are the [Raise] results of a small state-and-error monad
    whose state holds the random generator and a record of the calls made
    to the layers. *)

From Stdlib Require Import ZArith QArith List Bool Lia.
From stdpp Require Import base list strings.
Import ListNotations.

Local Open Scope Z_scope.
Local Open Scope nat_scope.

(** ** Tensors *)

Inductive exn :=
| IndexError | AttributeError | TypeError | AssertionError
| UnboundLocalError | RuntimeError | ValueError.

Inductive result (A : Type) :=
| Ok (a : A)
| Raise (e : exn).
Arguments Ok {A} a.
Arguments Raise {A} e.

Definition is_ok {A} (r : result A) : bool :=
  match r with Ok _ => true | Raise _ => false end.

Record tensor (A : Type) := mk_tensor { shape : list nat; data : list A }.
Arguments mk_tensor {A} shape data.
Arguments shape {A} t.
Arguments data {A} t.

Module torch.

Definition numel (sh : list nat) : nat := fold_right Nat.mul 1 sh.

(** [t.size(d)] *)
Definition size {A} (t : tensor A) (d : nat) : result nat :=
  match shape t !! d with
  | Some n => Ok n
  | None => Raise IndexError
  end.

(** Row-major offsets and multi-indices. *)
Fixpoint ravel (sh idx : list nat) : nat :=
  match sh, idx with
  | n :: sh', i :: idx' => i * numel sh' + ravel sh' idx'
  | _, _ => 0
  end.

Fixpoint unravel (sh : list nat) (k : nat) : list nat :=
  match sh with
  | [] => []
  | n :: sh' => (k / numel sh') `mod` n :: unravel sh' (k `mod` numel sh')
  end.

Definition tabulate {A} (sh : list nat) (f : list nat -> A) : tensor A :=
  mk_tensor sh (map (fun k => f (unravel sh k)) (seq 0 (numel sh))).

Definition get (t : tensor Z) (idx : list nat) : Z :=
  nth (ravel (shape t) idx) (data t) 0%Z.

Definition map_data {A B} (f : A -> B) (t : tensor A) : tensor B :=
  mk_tensor (shape t) (map f (data t)).

(** uint8 results of comparisons with a scalar *)
Definition eq (t : tensor Z) (c : Z) : tensor Z :=
  map_data (fun x => if Z.eqb x c then 1%Z else 0%Z) t.
Definition ne (t : tensor Z) (c : Z) : tensor Z :=
  map_data (fun x => if Z.eqb x c then 0%Z else 1%Z) t.
Definition gt (t : tensor Z) (c : Z) : tensor Z :=
  map_data (fun x => if Z.ltb c x then 1%Z else 0%Z) t.

(** [1 - t] on a uint8 tensor *)
Definition rsub (c : Z) (t : tensor Z) : tensor Z :=
  map_data (fun x => ((c - x) mod 256)%Z) t.

(** [t.unsqueeze(d)] *)
Definition unsqueeze {A} (d : nat) (t : tensor A) : result (tensor A) :=
  if d <=? length (shape t)
  then Ok (mk_tensor (take d (shape t) ++ 1 :: drop d (shape t)) (data t))
  else Raise IndexError.

(** [t.squeeze(d)]: drops dimension [d] when its size is one. *)
Definition squeeze {A} (d : nat) (t : tensor A) : result (tensor A) :=
  match shape t !! d with
  | Some 1 => Ok (mk_tensor (take d (shape t) ++ drop (S d) (shape t)) (data t))
  | Some _ => Ok t
  | None => match shape t with [] => Ok t | _ => Raise IndexError end
  end.

(** The pieces of [l] of length [c] that start at the offsets [offs]. *)
Definition chunks {A} (c : nat) (offs : list nat) (l : list A) : list A :=
  concat (map (fun o => take c (drop (o * c) l)) offs).

(** [t[:, j]]: index [j] along dimension 1. *)
Definition select1 {A} (t : tensor A) (j : nat) : result (tensor A) :=
  match shape t with
  | b :: l :: rest =>
      if j <? l
      then Ok (mk_tensor (b :: rest)
                 (chunks (numel rest) (map (fun k => k * l + j) (seq 0 b)) (data t)))
      else Raise IndexError
  | _ => Raise IndexError
  end.

(** [t[:, -1]] *)
Definition select1_last {A} (t : tensor A) : result (tensor A) :=
  match shape t with
  | b :: l :: rest => if l =? 0 then Raise IndexError else select1 t (l - 1)
  | _ => Raise IndexError
  end.

(** [t[z]] along dimension 0, a negative [z] counting from the end. *)
Definition index0 {A} (t : tensor A) (z : Z) : result (tensor A) :=
  match shape t with
  | n :: rest =>
      let z' := (if z <? 0 then z + Z.of_nat n else z)%Z in
      if ((0 <=? z') && (z' <? Z.of_nat n))%Z
      then Ok (mk_tensor rest (chunks (numel rest) [Z.to_nat z'] (data t)))
      else Raise IndexError
  | [] => Raise IndexError
  end.

(** [t[:r, :c]] *)
Definition slice2 {A} (t : tensor A) (r c : nat) : result (tensor A) :=
  match shape t with
  | n :: m :: rest =>
      let w := numel rest in
      Ok (mk_tensor (r `min` n :: c `min` m :: rest)
            (concat (map (fun i => take ((c `min` m) * w) (drop (i * m * w) (data t)))
                         (seq 0 (r `min` n)))))
  | _ => Raise IndexError
  end.

(** Broadcasting, on shapes written innermost dimension first. *)
Fixpoint broadcast_rev (a b : list nat) : option (list nat) :=
  match a, b with
  | [], _ => Some b
  | _, [] => Some a
  | x :: a', y :: b' =>
      match broadcast_rev a' b' with
      | Some r =>
          if x =? y then Some (x :: r)
          else if x =? 1 then Some (y :: r)
          else if y =? 1 then Some (x :: r)
          else None
      | None => None
      end
  end.

Fixpoint clamp_rev (sh idx : list nat) : list nat :=
  match sh, idx with
  | n :: sh', i :: idx' => (if n =? 1 then 0 else i) :: clamp_rev sh' idx'
  | _, _ => []
  end.

Definition get_broadcast (t : tensor Z) (idx : list nat) : Z :=
  get t (rev (clamp_rev (rev (shape t)) (rev idx))).

(** [a + b] on uint8 tensors *)
Definition add (a b : tensor Z) : result (tensor Z) :=
  match broadcast_rev (rev (shape a)) (rev (shape b)) with
  | Some r =>
      Ok (tabulate (rev r)
            (fun idx => ((get_broadcast a idx + get_broadcast b idx) mod 256)%Z))
  | None => Raise RuntimeError
  end.

(** [torch.stack(ts)] *)
Definition stack {A} (ts : list (tensor A)) : result (tensor A) :=
  match ts with
  | [] => Raise RuntimeError
  | t :: _ =>
      if forallb (fun u => bool_decide (shape u = shape t)) ts
      then Ok (mk_tensor (length ts :: shape t) (concat (map data ts)))
      else Raise RuntimeError
  end.

(** [t * c] for a scalar [c] *)
Definition mul_scalar {A} (mul : A -> A -> A) (t : tensor A) (c : A) : tensor A :=
  map_data (fun x => mul x c) t.

End torch.

Module np.

(** [np.ones((n, m))] *)
Definition ones (n m : nat) : tensor Z :=
  torch.tabulate [n; m] (fun _ => 1%Z).

(** [np.tri(n, m, k)]: one where [j <= i + k]. *)
Definition tri (n m : nat) (k : Z) : tensor Z :=
  torch.tabulate [n; m]
    (fun idx =>
       match idx with
       | [i; j] => if (Z.of_nat j <=? Z.of_nat i + k)%Z then 1%Z else 0%Z
       | _ => 0%Z
       end).

(** [np.triu(a, k)]: zero where [np.tri(n, m, k - 1)] holds, [a] elsewhere. *)
Definition triu (a : tensor Z) (k : Z) : tensor Z :=
  match shape a with
  | [n; m] =>
      let lower := tri n m (k - 1) in
      torch.tabulate [n; m]
        (fun idx => if Z.eqb (torch.get lower idx) 0 then torch.get a idx else 0%Z)
  | _ => a
  end.

(** [.astype('uint8')] *)
Definition astype_uint8 (a : tensor Z) : tensor Z :=
  torch.map_data (fun x => (x mod 256)%Z) a.

End np.


(** ** The collaborators of the stacks

    The layer classes, the pre/post-processing unit, the positional
    encoding and the recurrent modules the stacks build live outside
    [Models.py].  They are taken as they are called: a constructor or a
    forward function returns its value and the next state of the random
    generator.  The embedding table is modelled with the checks of its
    constructor and with its lookup, which raise as torch's do. *)

Class Types := {
  F : Type;                    (* the scalars of a float tensor *)
  Rng : Type;                  (* the state of torch's random generator *)
  StateDict : Type;            (* what [state_dict()] returns *)
  EncoderLayerRest : Type;     (* a ParallelEncoderLayer without its preprocess_attn *)
  DecoderLayerRest : Type;     (* a DecoderLayer without its preprocess_attn *)
  RNN : Type;                  (* an nn.GRU or nn.LSTM *)
  PositionalEncoding : Type;
}.

Section Modules.
Context {TY : Types}.

Definition Tensor : Type := tensor F.
Definition LongTensor : Type := tensor Z.
Definition ByteTensor : Type := tensor Z.

(** [PrePostProcessing(d_model, dropout_p, sequence, static)] *)
Record PrePostProcessing := mk_PrePostProcessing {
  pp_d_model : Z;
  pp_dropout_p : Q;
  pp_sequence : string;
  pp_static : option bool;
  pp_state : StateDict;
}.

(** [m.state_dict()] *)
Definition state_dict (m : PrePostProcessing) : StateDict := pp_state m.

(** [m.load_state_dict(sd)]: the entries of [sd] are copied into the
    unit, whose configuration stays.  The units it is used on are built by
    the same class with the same sequence, so that the keys agree. *)
Definition load_state_dict (m : PrePostProcessing) (sd : StateDict)
  : PrePostProcessing :=
  {| pp_d_model := pp_d_model m; pp_dropout_p := pp_dropout_p m;
     pp_sequence := pp_sequence m; pp_static := pp_static m;
     pp_state := sd |}.

Record EncoderLayer := mk_EncoderLayer {
  enc_preprocess_attn : PrePostProcessing;
  enc_rest : EncoderLayerRest;
}.

Record DecoderLayer := mk_DecoderLayer {
  dec_preprocess_attn : PrePostProcessing;
  dec_rest : DecoderLayerRest;
}.

(** [nn.Embedding(num_embeddings, embedding_dim, padding_idx)] *)
Record Embedding := mk_Embedding {
  num_embeddings : Z;
  embedding_dim : Z;
  padding_idx : Z;
  weight : Tensor;
}.

(** What [self.time_transformer] is bound to.  [TM_positional] is the
    object [self.positional_encoder] holds, under its second name. *)
Inductive time_module :=
| TM_positional
| TM_GRU (m : RNN)
| TM_LSTM (m : RNN).

(** The arguments after [emb] in a call of the time transformer. *)
Inductive tt_args :=
| TT_none                           (* time_transformer(emb) *)
| TT_t (t : nat)                    (* time_transformer(emb, t=...) *)
| TT_prev (prev_h : option Tensor). (* time_transformer(emb, prev_h) *)

(** What it returns: a tensor, or the pair of a recurrent module. *)
Inductive tt_output :=
| TT_tensor (out : Tensor)
| TT_tuple (out h : Tensor).

(** The calls a stack makes to its layers and its time transformer, with
    their arguments and what they returned.  [recompute] tells whether
    the call ran inside [checkpoint]. *)
Record enc_call := mk_enc_call {
  ec_recompute : bool;
  ec_layer : EncoderLayer;
  ec_context : Tensor;
  ec_out : Tensor;
  ec_norm_input : Tensor;
}.

Record dec_call := mk_dec_call {
  dc_recompute : bool;
  dc_layer : DecoderLayer;
  dc_output : Tensor;
  dc_memory : Tensor;
  dc_out : Tensor;
  dc_coverage : Tensor;
}.

Record step_call := mk_step_call {
  sc_layer : DecoderLayer;
  sc_query : Tensor;
  sc_memory : Tensor;
  sc_buffer : option Tensor;
}.

Record time_call := mk_time_call {
  tc_emb : Tensor;
  tc_args : tt_args;
}.

Inductive event :=
| EncoderLayerCall (c : enc_call)
| DecoderLayerCall (c : dec_call)
| DecoderLayerStep (c : step_call)
| TimeTransformerCall (c : time_call).

Definition encoder_calls (tr : list event) : list enc_call :=
  omap (fun ev => match ev with EncoderLayerCall c => Some c | _ => None end) tr.

Definition decoder_calls (tr : list event) : list dec_call :=
  omap (fun ev => match ev with DecoderLayerCall c => Some c | _ => None end) tr.

Definition step_calls (tr : list event) : list step_call :=
  omap (fun ev => match ev with DecoderLayerStep c => Some c | _ => None end) tr.

Definition time_calls (tr : list event) : list time_call :=
  omap (fun ev => match ev with TimeTransformerCall c => Some c | _ => None end) tr.

Record world := mk_world {
  rng : Rng;
  recompute : bool;      (* inside [checkpoint] *)
  trace : list event;
}.

End Modules.

(** The fields of [opt] the constructors read. *)
Module opt.
Record t := mk {
  model_size : Z; n_heads : Z; inner_size : Z; layers : Z;
  dropout : Q; word_dropout : Q; attn_dropout : Q; emb_dropout : Q;
  time : string; version : Q;
}.
End opt.

(** The constants of [onmt.Constants] and the functions of the
    collaborators.  A forward function takes the training mode of the
    stack that calls it; the second value a recurrent module returns (for
    an LSTM the pair of its two states) is one tensor here. *)
Class Runtime (TY : Types) := {
  PAD : Z;               (* onmt.Constants.PAD *)
  checkpointing : Z;     (* onmt.Constants.checkpointing *)
  fmul : F -> F -> F;    (* the product of two floats *)
  fsqrt : Z -> F;        (* math.sqrt *)
  (* the initial weight of nn.Embedding(n, d, padding_idx) *)
  Embedding_weight : Z -> Z -> Z -> Rng -> Tensor * Rng;
  (* the weight embedded_dropout(embed, words, dropout) looks the words up
     in when dropout is not zero: embed.weight with whole rows dropped *)
  masked_embed_weight : Embedding -> Q -> Rng -> Tensor * Rng;
  (* nn.GRU(input_size, hidden_size, num_layers, batch_first=True) *)
  GRU_new : Z -> Z -> Z -> Rng -> RNN * Rng;
  LSTM_new : Z -> Z -> Z -> Rng -> RNN * Rng;
  RNN_forward : RNN -> Tensor -> option Tensor -> Rng -> (Tensor * Tensor) * Rng;
  (* positional_encoder.len_max, .renew(new_len) and its forward(emb, t) *)
  len_max : PositionalEncoding -> Z;
  PositionalEncoding_renew : PositionalEncoding -> Z -> PositionalEncoding;
  PositionalEncoding_forward :
    PositionalEncoding -> Tensor -> option nat -> Rng -> Tensor * Rng;
  (* the initial state of PrePostProcessing(d_model, p, sequence, static) *)
  PrePostProcessing_state : Z -> Q -> string -> option bool -> Rng -> StateDict * Rng;
  PrePostProcessing_forward : PrePostProcessing -> bool -> Tensor -> Rng -> Tensor * Rng;
  (* ParallelEncoderLayer(h, d_model, p, d_ff, attn_p) and its forward *)
  ParallelEncoderLayer_new : Z -> Z -> Q -> Z -> Q -> Rng -> EncoderLayer * Rng;
  ParallelEncoderLayer_forward :
    EncoderLayer -> bool -> Tensor -> ByteTensor -> ByteTensor ->
    Rng -> (Tensor * Tensor) * Rng;
  (* DecoderLayer(h, d_model, p, d_ff, attn_p), its forward and its step *)
  DecoderLayer_new : Z -> Z -> Q -> Z -> Q -> Rng -> DecoderLayer * Rng;
  DecoderLayer_forward :
    DecoderLayer -> bool -> Tensor -> Tensor -> ByteTensor -> ByteTensor ->
    ByteTensor -> ByteTensor -> Rng -> (Tensor * Tensor) * Rng;
  DecoderLayer_step :
    DecoderLayer -> bool -> Tensor -> Tensor -> ByteTensor -> ByteTensor ->
    option Tensor -> Rng -> (Tensor * Tensor * Tensor) * Rng;
}.

(** ** The monad of a call *)

Section Monad.
Context {TY : Types}.

Definition M (A : Type) : Type := world -> world * result A.

#[global] Instance M_ret : MRet M := fun A a w => (w, Ok a).

#[global] Instance M_bind : MBind M := fun A B f m w =>
  match m w with
  | (w', Ok a) => f a w'
  | (w', Raise e) => (w', Raise e)
  end.

Definition raise {A} (e : exn) : M A := fun w => (w, Raise e).

Definition lift {A} (r : result A) : M A := fun w => (w, r).

(** A collaborator that advances the random generator. *)
Definition draw {A} (f : Rng -> A * Rng) : M A := fun w =>
  let r := f (rng w) in
  (mk_world (snd r) (recompute w) (trace w), Ok (fst r)).

Definition log (ev : event) : M unit := fun w =>
  (mk_world (rng w) (recompute w) (trace w ++ [ev]), Ok tt).

Definition get_recompute : M bool := fun w => (w, Ok (recompute w)).

Definition set_recompute (b : bool) : M unit := fun w =>
  (mk_world (rng w) b (trace w), Ok tt).

(** An attribute that may not have been assigned. *)
Definition getattr {A} (a : option A) : M A :=
  match a with
  | Some x => mret x
  | None => raise AttributeError
  end.

(** [for i, x in enumerate(xs)], the loop variables threaded as [st]. *)
Fixpoint for_enumerate {X St} (body : nat -> X -> St -> M St)
    (i : nat) (xs : list X) (st : St) : M St :=
  match xs with
  | [] => mret st
  | x :: xs' => st' ← body i x st; for_enumerate body (S i) xs' st'
  end.

(** [for i in range(n)] *)
Definition range (n : Z) : list Z := map Z.of_nat (seq 0 (Z.to_nat n)).

Fixpoint for_each {X St} (body : X -> St -> M St) (xs : list X) (st : St) : M St :=
  match xs with
  | [] => mret st
  | x :: xs' => st' ← body x st; for_each body xs' st'
  end.

(** [xs[z]] on a Python list or an nn.ModuleList *)
Definition getitem {A} (xs : list A) (z : Z) : result A :=
  let z' := (if z <? 0 then z + Z.of_nat (length xs) else z)%Z in
  if (z' <? 0)%Z then Raise IndexError
  else match xs !! Z.to_nat z' with
       | Some x => Ok x
       | None => Raise IndexError
       end.

(** [xs[0] = v] *)
Definition setitem0 {A} (xs : list A) (v : A) : result (list A) :=
  match xs with
  | [] => Raise IndexError
  | _ :: xs' => Ok (v :: xs')
  end.

(** [custom_layer(module)]: the closure [custom_forward]. *)
Definition custom_layer {Args Out} (module : Args -> M Out) : Args -> M Out :=
  fun args => output ← module args; mret output.

(** Modelled from the spec: [onmt.modules.Checkpoint.checkpoint] is not
    part of the sources.  It runs the function on the arguments and
    returns its outputs unchanged; the activations are recomputed on the
    backward pass, which the world records as [recompute] while the
    function runs. *)
Definition checkpoint {Args Out} (run : Args -> M Out) (args : Args) : M Out :=
  outer ← get_recompute;
  set_recompute true;;
  output ← run args;
  set_recompute outer;;
  mret output.

End Monad.

(** ** Modules shared by the two stacks *)

Section Shared.
Context {TY : Types} {RT : Runtime TY}.

(** The checks of [nn.Embedding] on [padding_idx]: a positive one is
    asserted to be below [num_embeddings], a negative one to be at least
    [-num_embeddings] and counted from the end. *)
Definition Embedding_padding_idx (n pad : Z) : result Z :=
  if (0 <? pad)%Z then
    if (pad <? n)%Z then Ok pad else Raise AssertionError
  else if (pad <? 0)%Z then
    if (- n <=? pad)%Z then Ok (n + pad)%Z else Raise AssertionError
  else Ok pad.

(** [nn.Embedding(n, d, padding_idx=pad)]: the checks on [padding_idx],
    the weight of [n] rows allocated (RuntimeError for a negative size)
    and drawn, then its row [padding_idx] set to zero, an IndexError when
    the weight has no such row. *)
Definition new_Embedding (n d pad : Z) : M Embedding :=
  padding_idx ← lift (Embedding_padding_idx n pad);
  (if (n <? 0)%Z || (d <? 0)%Z then raise RuntimeError else mret tt);;
  w ← draw (Embedding_weight n d padding_idx);
  (if (padding_idx <? n)%Z then mret tt else raise IndexError);;
  mret (mk_Embedding n d padding_idx w).

(** [word_lut(input)]: the rows of the weight matrix at the ids. *)
Definition Embedding_forward (e : Embedding) (input : LongTensor) : result Tensor :=
  match shape (weight e) with
  | [V; d] =>
      if forallb (fun x => (0 <=? x)%Z && (x <? Z.of_nat V)%Z) (data input)
      then Ok (mk_tensor (shape input ++ [d])
                 (torch.chunks d (map Z.to_nat (data input)) (data (weight e))))
      else Raise IndexError
  | _ => Raise RuntimeError
  end.

(** [embedded_dropout(embed, words, dropout)] of [onmt.modules.WordDrop]:
    the words are looked up as [embed] looks them up, in [embed.weight]
    for a dropout of zero and in its masked copy otherwise. *)
Definition embedded_dropout (embed : Embedding) (words : LongTensor) (dropout : Q)
  : M Tensor :=
  looked_up_in ←
    (if Qeq_bool dropout 0 then mret (weight embed)
     else draw (masked_embed_weight embed dropout));
  lift (Embedding_forward
          (mk_Embedding (num_embeddings embed) (embedding_dim embed)
             (padding_idx embed) looked_up_in)
          words).

Definition new_PrePostProcessing (d : Z) (p : Q) (sequence : string)
    (static : option bool) : M PrePostProcessing :=
  sd ← draw (PrePostProcessing_state d p sequence static);
  mret (mk_PrePostProcessing d p sequence static sd).

(** The three branches on [opt.time] of both constructors. *)
Definition new_time_transformer (time : string) (model_size : Z)
  : M (option time_module) :=
  if bool_decide (time = "positional_encoding") then mret (Some TM_positional)
  else if bool_decide (time = "gru") then
    m ← draw (GRU_new model_size model_size 1); mret (Some (TM_GRU m))
  else if bool_decide (time = "lstm") then
    m ← draw (LSTM_new model_size model_size 1); mret (Some (TM_LSTM m))
  else mret None.

(** A call of [self.time_transformer].  The constructors bind it to the
    positional encoder exactly when [time] is ['positional_encoding'];
    a call whose arguments do not fit the module bound is a TypeError. *)
Definition call_time_transformer (time_transformer : option time_module)
    (positional_encoder : option PositionalEncoding)
    (emb : Tensor) (args : tt_args) : M tt_output :=
  m ← getattr time_transformer;
  match m with
  | TM_positional =>
      match positional_encoder, args with
      | None, _ => raise TypeError
      | Some pe, TT_none =>
          log (TimeTransformerCall (mk_time_call emb args));;
          out ← draw (PositionalEncoding_forward pe emb None);
          mret (TT_tensor out)
      | Some pe, TT_t t =>
          log (TimeTransformerCall (mk_time_call emb args));;
          out ← draw (PositionalEncoding_forward pe emb (Some t));
          mret (TT_tensor out)
      | Some pe, TT_prev _ => raise TypeError
      end
  | TM_GRU m | TM_LSTM m =>
      match args with
      | TT_none =>
          log (TimeTransformerCall (mk_time_call emb args));;
          '(out, h) ← draw (RNN_forward m emb None);
          mret (TT_tuple out h)
      | TT_prev prev_h =>
          log (TimeTransformerCall (mk_time_call emb args));;
          '(out, h) ← draw (RNN_forward m emb prev_h);
          mret (TT_tuple out h)
      | TT_t _ => raise TypeError
      end
  end.

(** [if isinstance(emb, tuple): emb = emb[0]] *)
Definition first_if_tuple (emb : tt_output) : Tensor :=
  match emb with
  | TT_tensor out => out
  | TT_tuple out _ => out
  end.

(** [emb[1]] *)
Definition second (emb : tt_output) : result Tensor :=
  match emb with
  | TT_tensor out => torch.index0 out 1
  | TT_tuple _ h => Ok h
  end.

(** [emb * math.sqrt(model_size)] *)
Definition scale (emb : Tensor) (model_size : Z) : Tensor :=
  torch.mul_scalar fmul emb (fsqrt model_size).

(** [np.triu(np.ones((n, n)), k=1).astype('uint8')], a ValueError for a
    negative [n]. *)
Definition causal_mask (n : Z) : result ByteTensor :=
  if (n <? 0)%Z then Raise ValueError
  else Ok (np.astype_uint8 (np.triu (np.ones (Z.to_nat n) (Z.to_nat n)) 1)).

End Shared.

(** ** The encoder stack *)

Module ParallelTransformerEncoder.
Section Defs.
Context {TY : Types} {RT : Runtime TY}.

Record t := mk {
  model_size : Z; n_heads : Z; inner_size : Z; layers : Z;
  dropout : Q; word_dropout : Q; attn_dropout : Q; emb_dropout : Q;
  time : string; version : Q;
  word_lut : Embedding;
  time_transformer : option time_module;     (* unbound for an unknown [time] *)
  preprocess_layer : PrePostProcessing;
  postprocess_layer : PrePostProcessing;
  positional_encoder : option PositionalEncoding;
  layer_modules : list EncoderLayer;
  new_modules : option (list EncoderLayer);  (* unbound before add_layers *)
  pretrained_point : option Z;               (* unbound before mark_pretrained *)
  training : bool;
}.

Definition set_layers (self : t) (v : Z) : t :=
  mk (model_size self) (n_heads self) (inner_size self) v
     (dropout self) (word_dropout self) (attn_dropout self) (emb_dropout self)
     (time self) (version self) (word_lut self) (time_transformer self)
     (preprocess_layer self) (postprocess_layer self) (positional_encoder self)
     (layer_modules self) (new_modules self) (pretrained_point self) (training self).

Definition set_postprocess_layer (self : t) (v : PrePostProcessing) : t :=
  mk (model_size self) (n_heads self) (inner_size self) (layers self)
     (dropout self) (word_dropout self) (attn_dropout self) (emb_dropout self)
     (time self) (version self) (word_lut self) (time_transformer self)
     (preprocess_layer self) v (positional_encoder self)
     (layer_modules self) (new_modules self) (pretrained_point self) (training self).

Definition set_layer_modules (self : t) (v : list EncoderLayer) : t :=
  mk (model_size self) (n_heads self) (inner_size self) (layers self)
     (dropout self) (word_dropout self) (attn_dropout self) (emb_dropout self)
     (time self) (version self) (word_lut self) (time_transformer self)
     (preprocess_layer self) (postprocess_layer self) (positional_encoder self)
     v (new_modules self) (pretrained_point self) (training self).

Definition set_new_modules (self : t) (v : option (list EncoderLayer)) : t :=
  mk (model_size self) (n_heads self) (inner_size self) (layers self)
     (dropout self) (word_dropout self) (attn_dropout self) (emb_dropout self)
     (time self) (version self) (word_lut self) (time_transformer self)
     (preprocess_layer self) (postprocess_layer self) (positional_encoder self)
     (layer_modules self) v (pretrained_point self) (training self).

Definition set_pretrained_point (self : t) (v : option Z) : t :=
  mk (model_size self) (n_heads self) (inner_size self) (layers self)
     (dropout self) (word_dropout self) (attn_dropout self) (emb_dropout self)
     (time self) (version self) (word_lut self) (time_transformer self)
     (preprocess_layer self) (postprocess_layer self) (positional_encoder self)
     (layer_modules self) (new_modules self) v (training self).

(** [self.train()] and [self.eval()] *)
Definition set_training (self : t) (v : bool) : t :=
  mk (model_size self) (n_heads self) (inner_size self) (layers self)
     (dropout self) (word_dropout self) (attn_dropout self) (emb_dropout self)
     (time self) (version self) (word_lut self) (time_transformer self)
     (preprocess_layer self) (postprocess_layer self) (positional_encoder self)
     (layer_modules self) (new_modules self) (pretrained_point self) v.

Definition new_layer (self : t) : M EncoderLayer :=
  draw (ParallelEncoderLayer_new (n_heads self) (model_size self) (dropout self)
          (inner_size self) (attn_dropout self)).

(** [__init__(self, opt, dicts, positional_encoder)] *)
Definition init (o : opt.t) (dicts_size : Z)
    (positional_encoder : option PositionalEncoding) : M t :=
  word_lut ← new_Embedding dicts_size (opt.model_size o) PAD;
  time_transformer ← new_time_transformer (opt.time o) (opt.model_size o);
  preprocess_layer ←
    new_PrePostProcessing (opt.model_size o) (opt.emb_dropout o) "d" (Some false);
  postprocess_layer ← new_PrePostProcessing (opt.model_size o) 0 "n" None;
  layer_modules ←
    for_each (fun _ ls =>
        layer ← draw (ParallelEncoderLayer_new (opt.n_heads o) (opt.model_size o)
                        (opt.dropout o) (opt.inner_size o) (opt.attn_dropout o));
        mret (ls ++ [layer]))
      (range (opt.layers o)) [];
  mret (mk (opt.model_size o) (opt.n_heads o) (opt.inner_size o) (opt.layers o)
           (opt.dropout o) (opt.word_dropout o) (opt.attn_dropout o)
           (opt.emb_dropout o) (opt.time o) (opt.version o)
           word_lut time_transformer preprocess_layer postprocess_layer
           positional_encoder layer_modules None None true).

(** One turn of the loop of [add_layers]. *)
Definition add_layers_body (i : Z) (self : t) : M t :=
  layer ← new_layer self;
  '(layer, self) ←
    (if (i =? 0)%Z then
       (* the first layer will use the preprocessing which is the last
          postprocessing *)
       let layer :=
         mk_EncoderLayer
           (load_state_dict (enc_preprocess_attn layer)
              (state_dict (postprocess_layer self)))
           (enc_rest layer) in
       (* replace the last postprocessing layer with a new one *)
       fresh ← new_PrePostProcessing (model_size self) 0 "n" None;
       mret (layer, set_postprocess_layer self fresh)
     else mret (layer, self));
  mret (set_layer_modules self (layer_modules self ++ [layer])).

(** [add_layers(self, n_new_layer)] *)
Definition add_layers (self : t) (n_new_layer : Z) : M t :=
  let self := set_new_modules self (Some []) in
  let self := set_layers self (layers self + n_new_layer)%Z in
  for_each add_layers_body (range n_new_layer) self.

(** [mark_pretrained(self)] *)
Definition mark_pretrained (self : t) : t :=
  set_pretrained_point self (Some (layers self)).

(** [layer(context, mask_src, pad_mask)] *)
Definition call_layer (self : t) (layer : EncoderLayer)
    (args : Tensor * ByteTensor * ByteTensor) : M (Tensor * Tensor) :=
  let '(context, mask_src, pad_mask) := args in
  '(out, norm_input) ←
    draw (ParallelEncoderLayer_forward layer (training self) context mask_src pad_mask);
  inside ← get_recompute;
  log (EncoderLayerCall (mk_enc_call inside layer context out norm_input));;
  mret (out, norm_input).

(** The lines of [forward] and [forward_grow] before the layers. *)
Definition embed (self : t) (input : LongTensor)
  : M (Tensor * ByteTensor * ByteTensor) :=
  emb ← embedded_dropout (word_lut self) input
          (if training self then word_dropout self else 0);
  let emb :=
    if bool_decide (time self = "positional_encoding")
    then scale emb (model_size self) else emb in
  emb ← call_time_transformer (time_transformer self) (positional_encoder self)
          emb TT_none;
  let emb := first_if_tuple emb in
  emb ← draw (PrePostProcessing_forward (preprocess_layer self) (training self) emb);
  mask_src ← lift (torch.unsqueeze 1 (torch.eq input PAD));
  let pad_mask := torch.ne input PAD in
  mret (emb, mask_src, pad_mask).

(** The lines of [forward] and [forward_grow] after the layers. *)
Definition finish (self : t) (context : Tensor) (memory_bank : list Tensor)
    (mask_src : ByteTensor) : M (Tensor * ByteTensor) :=
  context ← draw (PrePostProcessing_forward (postprocess_layer self)
                    (training self) context);
  let memory_bank := memory_bank ++ [context] in
  memory_bank ← lift (torch.stack memory_bank);
  mret (memory_bank, mask_src).

(** [forward_grow(self, input)] *)
Definition forward_grow (self : t) (input : LongTensor) : M (Tensor * ByteTensor) :=
  '(emb, mask_src, pad_mask) ← embed self input;
  let context := emb in
  let memory_bank : list Tensor := [] in
  pretrained_point ← getattr (pretrained_point self);
  '(context, memory_bank) ←
    for_each (fun i '(context, memory_bank) =>
        layer ← lift (getitem (layer_modules self) i);
        '(context, norm_input) ← call_layer self layer (context, mask_src, pad_mask);
        let memory_bank :=
          if (0 <? i)%Z then memory_bank ++ [norm_input] else memory_bank in
        mret (context, memory_bank))
      (range pretrained_point) (context, memory_bank);
  '(context, memory_bank) ←
    for_each (fun i '(context, memory_bank) =>
        layer ← lift (getitem (layer_modules self) (pretrained_point + i)%Z);
        '(context, norm_input) ← call_layer self layer (context, mask_src, pad_mask);
        mret (context, memory_bank ++ [norm_input]))
      (range (layers self - pretrained_point)%Z) (context, memory_bank);
  finish self context memory_bank mask_src.

(** One turn of the loop of [forward]. *)
Definition forward_body (self : t) (mask_src pad_mask : ByteTensor)
    (i : nat) (layer : EncoderLayer) (st : Tensor * list Tensor)
  : M (Tensor * list Tensor) :=
  let '(context, memory_bank) := st in
  '(context, norm_input) ←
    (if (Z.of_nat (length (layer_modules self)) - Z.of_nat i <=? checkpointing)%Z
        && training self
     then checkpoint (custom_layer (call_layer self layer)) (context, mask_src, pad_mask)
     else call_layer self layer (context, mask_src, pad_mask));
  let memory_bank :=
    if 0 <? i then memory_bank ++ [norm_input] else memory_bank in
  mret (context, memory_bank).

(** [forward(self, input, grow=False)] *)
Definition forward (self : t) (input : LongTensor) (grow : bool)
  : M (Tensor * ByteTensor) :=
  if grow then forward_grow self input
  else
    '(emb, mask_src, pad_mask) ← embed self input;
    let context := emb in
    let memory_bank : list Tensor := [] in
    '(context, memory_bank) ←
      for_enumerate (forward_body self mask_src pad_mask) 0 (layer_modules self)
        (context, memory_bank);
    finish self context memory_bank mask_src.

End Defs.
End ParallelTransformerEncoder.

(** ** The decoder stack *)

Module ParallelTransformerDecoder.
Section Defs.
Context {TY : Types} {RT : Runtime TY}.

Record t := mk {
  model_size : Z; n_heads : Z; inner_size : Z; layers : Z;
  dropout : Q; word_dropout : Q; attn_dropout : Q; emb_dropout : Q;
  time : string; version : Q;
  time_transformer : option time_module;     (* unbound for an unknown [time] *)
  preprocess_layer : PrePostProcessing;
  postprocess_layer : option PrePostProcessing;  (* bound when version == 1.0 *)
  word_lut : Embedding;
  positional_encoder : option PositionalEncoding;
  layer_modules : list DecoderLayer;
  mask : ByteTensor;                         (* the registered buffer *)
  new_modules : option (list DecoderLayer);  (* unbound before add_layers *)
  pretrained_point : option Z;               (* unbound before mark_pretrained *)
  training : bool;
}.

Definition set_layers (self : t) (v : Z) : t :=
  mk (model_size self) (n_heads self) (inner_size self) v
     (dropout self) (word_dropout self) (attn_dropout self) (emb_dropout self)
     (time self) (version self) (time_transformer self) (preprocess_layer self)
     (postprocess_layer self) (word_lut self) (positional_encoder self)
     (layer_modules self) (mask self) (new_modules self) (pretrained_point self)
     (training self).

Definition set_postprocess_layer (self : t) (v : option PrePostProcessing) : t :=
  mk (model_size self) (n_heads self) (inner_size self) (layers self)
     (dropout self) (word_dropout self) (attn_dropout self) (emb_dropout self)
     (time self) (version self) (time_transformer self) (preprocess_layer self)
     v (word_lut self) (positional_encoder self)
     (layer_modules self) (mask self) (new_modules self) (pretrained_point self)
     (training self).

Definition set_positional_encoder (self : t) (v : option PositionalEncoding) : t :=
  mk (model_size self) (n_heads self) (inner_size self) (layers self)
     (dropout self) (word_dropout self) (attn_dropout self) (emb_dropout self)
     (time self) (version self) (time_transformer self) (preprocess_layer self)
     (postprocess_layer self) (word_lut self) v
     (layer_modules self) (mask self) (new_modules self) (pretrained_point self)
     (training self).

Definition set_layer_modules (self : t) (v : list DecoderLayer) : t :=
  mk (model_size self) (n_heads self) (inner_size self) (layers self)
     (dropout self) (word_dropout self) (attn_dropout self) (emb_dropout self)
     (time self) (version self) (time_transformer self) (preprocess_layer self)
     (postprocess_layer self) (word_lut self) (positional_encoder self)
     v (mask self) (new_modules self) (pretrained_point self)
     (training self).

(** [self.register_buffer('mask', v)] *)
Definition register_buffer_mask (self : t) (v : ByteTensor) : t :=
  mk (model_size self) (n_heads self) (inner_size self) (layers self)
     (dropout self) (word_dropout self) (attn_dropout self) (emb_dropout self)
     (time self) (version self) (time_transformer self) (preprocess_layer self)
     (postprocess_layer self) (word_lut self) (positional_encoder self)
     (layer_modules self) v (new_modules self) (pretrained_point self)
     (training self).

Definition set_new_modules (self : t) (v : option (list DecoderLayer)) : t :=
  mk (model_size self) (n_heads self) (inner_size self) (layers self)
     (dropout self) (word_dropout self) (attn_dropout self) (emb_dropout self)
     (time self) (version self) (time_transformer self) (preprocess_layer self)
     (postprocess_layer self) (word_lut self) (positional_encoder self)
     (layer_modules self) (mask self) v (pretrained_point self)
     (training self).

Definition set_pretrained_point (self : t) (v : option Z) : t :=
  mk (model_size self) (n_heads self) (inner_size self) (layers self)
     (dropout self) (word_dropout self) (attn_dropout self) (emb_dropout self)
     (time self) (version self) (time_transformer self) (preprocess_layer self)
     (postprocess_layer self) (word_lut self) (positional_encoder self)
     (layer_modules self) (mask self) (new_modules self) v
     (training self).

(** [self.train()] and [self.eval()] *)
Definition set_training (self : t) (v : bool) : t :=
  mk (model_size self) (n_heads self) (inner_size self) (layers self)
     (dropout self) (word_dropout self) (attn_dropout self) (emb_dropout self)
     (time self) (version self) (time_transformer self) (preprocess_layer self)
     (postprocess_layer self) (word_lut self) (positional_encoder self)
     (layer_modules self) (mask self) (new_modules self) (pretrained_point self)
     v.

Definition new_layer (self : t) : M DecoderLayer :=
  draw (DecoderLayer_new (n_heads self) (model_size self) (dropout self)
          (inner_size self) (attn_dropout self)).

(** [__init__(self, opt, dicts, positional_encoder)] *)
Definition init (o : opt.t) (dicts_size : Z)
    (positional_encoder : option PositionalEncoding) : M t :=
  time_transformer ← new_time_transformer (opt.time o) (opt.model_size o);
  preprocess_layer ←
    new_PrePostProcessing (opt.model_size o) (opt.emb_dropout o) "d" (Some false);
  postprocess_layer ←
    (if Qeq_bool (opt.version o) 1
     then pp ← new_PrePostProcessing (opt.model_size o) 0 "n" None; mret (Some pp)
     else mret None);
  word_lut ← new_Embedding dicts_size (opt.model_size o) PAD;
  layer_modules ←
    for_each (fun _ ls =>
        layer ← draw (DecoderLayer_new (opt.n_heads o) (opt.model_size o)
                        (opt.dropout o) (opt.inner_size o) (opt.attn_dropout o));
        mret (ls ++ [layer]))
      (range (opt.layers o)) [];
  pe ← getattr positional_encoder;
  let len_max := len_max pe in
  mask ← lift (causal_mask len_max);
  mret (mk (opt.model_size o) (opt.n_heads o) (opt.inner_size o) (opt.layers o)
           (opt.dropout o) (opt.word_dropout o) (opt.attn_dropout o)
           (opt.emb_dropout o) (opt.time o) (opt.version o)
           time_transformer preprocess_layer postprocess_layer word_lut
           positional_encoder layer_modules mask None None true).

(** [renew_buffer(self, new_len)] *)
Definition renew_buffer (self : t) (new_len : Z) : M t :=
  pe ← getattr (positional_encoder self);
  let self := set_positional_encoder self (Some (PositionalEncoding_renew pe new_len)) in
  mask ← lift (causal_mask new_len);
  mret (register_buffer_mask self mask).

(** [mark_pretrained(self)] *)
Definition mark_pretrained (self : t) : t :=
  set_pretrained_point self (Some (layers self)).

(** One turn of the loop of [add_layers]. *)
Definition add_layers_body (i : Z) (self : t) : M t :=
  layer ← new_layer self;
  '(layer, self) ←
    (if (i =? 0)%Z then
       (* the first layer will use the preprocessing which is the last
          postprocessing *)
       post ← getattr (postprocess_layer self);
       let layer :=
         mk_DecoderLayer
           (load_state_dict (dec_preprocess_attn layer) (state_dict post))
           (dec_rest layer) in
       (* replace the last postprocessing layer with a new one *)
       fresh ← new_PrePostProcessing (model_size self) 0 "n" None;
       mret (layer, set_postprocess_layer self (Some fresh))
     else mret (layer, self));
  mret (set_layer_modules self (layer_modules self ++ [layer])).

(** [add_layers(self, n_new_layer)] *)
Definition add_layers (self : t) (n_new_layer : Z) : M t :=
  let self := set_new_modules self (Some []) in
  let self := set_layers self (layers self + n_new_layer)%Z in
  for_each add_layers_body (range n_new_layer) self.

(** [layer(output, context[i], mask_tgt, mask_src, pad_mask_tgt, pad_mask_src)] *)
Definition call_layer (self : t) (layer : DecoderLayer)
    (args : Tensor * Tensor * ByteTensor * ByteTensor * ByteTensor * ByteTensor)
  : M (Tensor * Tensor) :=
  let '(output, memory, mask_tgt, mask_src, pad_mask_tgt, pad_mask_src) := args in
  '(out, coverage) ←
    draw (DecoderLayer_forward layer (training self) output memory
            mask_tgt mask_src pad_mask_tgt pad_mask_src);
  inside ← get_recompute;
  log (DecoderLayerCall (mk_dec_call inside layer output memory out coverage));;
  mret (out, coverage).

(** [layer.step(output, context[i], mask_tgt, mask_src, pad_mask_tgt=None,
    pad_mask_src=None, buffer=buffer_)] *)
Definition call_layer_step (self : t) (layer : DecoderLayer)
    (output memory : Tensor) (mask_tgt mask_src : ByteTensor)
    (buffer_ : option Tensor) : M (Tensor * Tensor * Tensor) :=
  log (DecoderLayerStep (mk_step_call layer output memory buffer_));;
  draw (DecoderLayer_step layer (training self) output memory mask_tgt mask_src buffer_).

(** The masks of [forward], [forward_grow] and [step]:
    mask_src, mask_tgt, pad_mask_tgt and the final pad_mask_src. *)
Definition masks (self : t) (input src : LongTensor)
  : M (ByteTensor * ByteTensor * ByteTensor * ByteTensor) :=
  mask_src ← lift (torch.unsqueeze 1 (torch.eq src PAD));
  let pad_mask_src := torch.ne src PAD in
  len_tgt ← lift (torch.size input 1);
  padding ← lift (torch.unsqueeze 1 (torch.eq input PAD));
  causal ← lift (torch.slice2 (mask self) len_tgt len_tgt);
  mask_tgt ← lift (torch.add padding causal);
  let mask_tgt := torch.gt mask_tgt 0 in
  let pad_mask_tgt := torch.ne input PAD in
  squeezed ← lift (torch.squeeze 1 mask_src);
  let pad_mask_src := torch.rsub 1 squeezed in
  mret (mask_src, mask_tgt, pad_mask_tgt, pad_mask_src).

(** The lines of [forward] and [forward_grow] before the layers. *)
Definition embed (self : t) (input src : LongTensor)
  : M (Tensor * ByteTensor * ByteTensor * ByteTensor * ByteTensor) :=
  emb ← embedded_dropout (word_lut self) input
          (if training self then word_dropout self else 0);
  let emb :=
    if bool_decide (time self = "positional_encoding")
    then scale emb (model_size self) else emb in
  emb ← call_time_transformer (time_transformer self) (positional_encoder self)
          emb TT_none;
  let emb := first_if_tuple emb in
  emb ← draw (PrePostProcessing_forward (preprocess_layer self) (training self) emb);
  '(mask_src, mask_tgt, pad_mask_tgt, pad_mask_src) ← masks self input src;
  mret (emb, mask_src, mask_tgt, pad_mask_tgt, pad_mask_src).

(** [output = self.postprocess_layer(output); return output, coverage] *)
Definition finish (self : t) (output : Tensor) (coverage : option Tensor)
  : M (Tensor * Tensor) :=
  post ← getattr (postprocess_layer self);
  output ← draw (PrePostProcessing_forward post (training self) output);
  match coverage with
  | Some coverage => mret (output, coverage)
  | None => raise UnboundLocalError
  end.

(** One turn of the loop of [forward]; [coverage] is unbound before the
    first turn. *)
Definition forward_body (self : t) (context : Tensor)
    (mask_tgt mask_src pad_mask_tgt pad_mask_src : ByteTensor)
    (i : nat) (layer : DecoderLayer) (st : Tensor * option Tensor)
  : M (Tensor * option Tensor) :=
  let '(output, _) := st in
  '(output, coverage) ←
    (if (Z.of_nat (length (layer_modules self)) - Z.of_nat i <=? checkpointing)%Z
        && training self
     then
       memory ← lift (torch.index0 context (Z.of_nat i));
       checkpoint (custom_layer (call_layer self layer))
         (output, memory, mask_tgt, mask_src, pad_mask_tgt, pad_mask_src)
     else
       memory ← lift (torch.index0 context (Z.of_nat i));
       call_layer self layer
         (output, memory, mask_tgt, mask_src, pad_mask_tgt, pad_mask_src));
  mret (output, Some coverage).

(** [forward_grow(self, input, context, src)] *)
Definition forward_grow (self : t) (input : LongTensor) (context : Tensor)
    (src : LongTensor) : M (Tensor * Tensor) :=
  '(emb, mask_src, mask_tgt, pad_mask_tgt, pad_mask_src) ← embed self input src;
  let output := emb in
  pretrained_point ← getattr (pretrained_point self);
  '(output, coverage) ←
    for_each (fun i '(output, _) =>
        layer ← lift (getitem (layer_modules self) i);
        memory ← lift (torch.index0 context i);
        '(output, coverage) ←
          call_layer self layer
            (output, memory, mask_tgt, mask_src, pad_mask_tgt, pad_mask_src);
        mret (output, Some coverage))
      (range pretrained_point) (output, None);
  '(output, coverage) ←
    for_each (fun i '(output, _) =>
        layer ← lift (getitem (layer_modules self) (pretrained_point + i)%Z);
        memory ← lift (torch.index0 context (pretrained_point + i)%Z);
        '(output, coverage) ←
          call_layer self layer
            (output, memory, mask_tgt, mask_src, pad_mask_tgt, pad_mask_src);
        mret (output, Some coverage))
      (range (layers self - pretrained_point)%Z) (output, coverage);
  finish self output coverage.

(** [forward(self, input, context, src, grow=False)] *)
Definition forward (self : t) (input : LongTensor) (context : Tensor)
    (src : LongTensor) (grow : bool) : M (Tensor * Tensor) :=
  if grow then forward_grow self input context src
  else
    '(emb, mask_src, mask_tgt, pad_mask_tgt, pad_mask_src) ← embed self input src;
    let output := emb in
    '(output, coverage) ←
      for_enumerate
        (forward_body self context mask_tgt mask_src pad_mask_tgt pad_mask_src)
        0 (layer_modules self) (output, None);
    finish self output coverage.

(** The time encoding of [step]: the branch on [self.time] with the
    rebinding of [emb] and the write to [buffer[0]]. *)
Definition step_time (self : t) (input : LongTensor) (emb : Tensor)
    (buffer : option (list Tensor)) : M (tt_output * option (list Tensor)) :=
  if bool_decide (time self = "positional_encoding") then
    t ← lift (torch.size input 1);
    emb ← call_time_transformer (time_transformer self) (positional_encoder self)
            emb (TT_t t);
    mret (emb, buffer)
  else
    prev_h ←
      match buffer with
      | None => raise TypeError         (* buffer[0] on None *)
      | Some _ => mret (@None Tensor)
      end;
    emb ← call_time_transformer (time_transformer self) (positional_encoder self)
            emb (TT_prev prev_h);
    h ← lift (second emb);
    match buffer with
    | None => raise TypeError
    | Some b => b ← lift (setitem0 b h); mret (emb, Some b)
    end.

(** One turn of the loop of [step]. *)
Definition step_body (self : t) (context : Tensor) (mask_tgt mask_src : ByteTensor)
    (buffer : option (list Tensor))
    (i : nat) (layer : DecoderLayer) (st : Tensor * option Tensor * list Tensor)
  : M (Tensor * option Tensor * list Tensor) :=
  let '(output, _, output_buffer) := st in
  buffer_ ←
    match buffer with
    | Some b => x ← lift (getitem b (Z.of_nat i)); mret (Some x)
    | None => mret None
    end;
  size1 ← lift (torch.size output 1);
  (if size1 =? 1 then mret tt else raise AssertionError);;
  memory ← lift (torch.index0 context (Z.of_nat i));
  '(output, coverage, buffer_) ←
    call_layer_step self layer output memory mask_tgt mask_src buffer_;
  mret (output, Some coverage, output_buffer ++ [buffer_]).

(** The lines of [step] before the layers: the last position of the
    input embedded and time-encoded, and the masks. *)
Definition step_prepare (self : t) (input src : LongTensor)
    (buffer : option (list Tensor))
  : M (Tensor * ByteTensor * ByteTensor * option (list Tensor)) :=
  batch_size ← lift (torch.size input 0);
  last ← lift (torch.select1_last input);
  input_ ← lift (torch.unsqueeze 1 last);
  emb ← lift (Embedding_forward (word_lut self) input_);
  let emb :=
    if bool_decide (time self = "positional_encoding")
    then scale emb (model_size self) else emb in
  '(emb, buffer) ← step_time self input emb buffer;
  let emb := first_if_tuple emb in
  emb ← draw (PrePostProcessing_forward (preprocess_layer self) (training self) emb);
  '(mask_src, mask_tgt, pad_mask_tgt, pad_mask_src) ← masks self input src;
  last_row ← lift (torch.select1_last mask_tgt);
  mask_tgt ← lift (torch.unsqueeze 1 last_row);
  mret (emb, mask_tgt, mask_src, buffer).

(** The lines of [step] after the layers. *)
Definition step_finish (self : t) (output : Tensor) (coverage : option Tensor)
    (output_buffer : list Tensor) : M (Tensor * Tensor * Tensor) :=
  buffer ← lift (torch.stack output_buffer);
  post ← getattr (postprocess_layer self);
  output ← draw (PrePostProcessing_forward post (training self) output);
  match coverage with
  | Some coverage => mret (output, coverage, buffer)
  | None => raise UnboundLocalError
  end.

(** [step(self, input, context, src, buffer=None)].  The buffer is a
    list of tensors, one per layer; the write to [buffer[0]] is kept in
    the local binding, which is the only way [step] reads it again. *)
Definition step (self : t) (input : LongTensor) (context : Tensor)
    (src : LongTensor) (buffer : option (list Tensor))
  : M (Tensor * Tensor * Tensor) :=
  let output_buffer : list Tensor := [] in
  '(emb, mask_tgt, mask_src, buffer) ← step_prepare self input src buffer;
  let output := emb in
  '(output, coverage, output_buffer) ←
    for_enumerate (step_body self context mask_tgt mask_src buffer)
      0 (layer_modules self) (output, None, output_buffer);
  step_finish self output coverage output_buffer.

End Defs.
End ParallelTransformerDecoder.

Module Enc := ParallelTransformerEncoder.
Module Dec := ParallelTransformerDecoder.

(** ** A small runtime to run the stacks on

    Scalars are integers, the random generator is a counter, every
    constructed module carries the counter value it was built at, an
    encoder layer returns its input incremented together with its input,
    and the pre/post-processing and the time encoding are the identity. *)

Module Scenario.

#[global] Instance types : Types := {|
  F := Z; Rng := nat; StateDict := nat;
  EncoderLayerRest := nat; DecoderLayerRest := nat;
  RNN := nat; PositionalEncoding := Z;
|}.

Definition incr (x : Tensor) : Tensor := torch.map_data (fun v => (v + 1)%Z) x.

#[global] Instance runtime : Runtime types := {|
  PAD := 0%Z;
  checkpointing := 1%Z;
  fmul := Z.mul;
  fsqrt := Z.sqrt;
  Embedding_weight := fun n d pad g =>
    (torch.tabulate [Z.to_nat n; Z.to_nat d]
       (fun idx => match idx with
                   | [i; j] => if (Z.of_nat i =? pad)%Z then 0%Z else Z.of_nat (i + j)
                   | _ => 0%Z
                   end), S g);
  masked_embed_weight := fun e p g => (weight e, g);
  GRU_new := fun _ _ _ g => (g, S g);
  LSTM_new := fun _ _ _ g => (g, S g);
  RNN_forward := fun _ emb _ g => ((emb, emb), g);
  len_max := fun pe => pe;
  PositionalEncoding_renew := fun _ n => n;
  PositionalEncoding_forward := fun _ emb _ g => (emb, g);
  PrePostProcessing_state := fun _ _ _ _ g => (g, S g);
  PrePostProcessing_forward := fun _ _ x g => (x, g);
  ParallelEncoderLayer_new := fun h d p dff pa g =>
    (mk_EncoderLayer (mk_PrePostProcessing d p "n" None g) (S g), S (S g));
  ParallelEncoderLayer_forward := fun _ _ context _ _ g => ((incr context, context), g);
  DecoderLayer_new := fun h d p dff pa g =>
    (mk_DecoderLayer (mk_PrePostProcessing d p "n" None g) (S g), S (S g));
  DecoderLayer_forward := fun _ _ output memory _ _ _ _ g => ((incr output, memory), g);
  DecoderLayer_step := fun _ _ output memory _ _ _ g => ((incr output, memory, output), g);
|}.

Definition world0 : world := mk_world 0 false [].

(** The options of the scenario: dim 8, two heads. *)
Definition options (layers : Z) (time : string) : opt.t :=
  opt.mk 8 2 16 layers 0 0 0 0 time 1.

Definition run {A} (m : M A) (w : world) : result A := snd (m w).

(** The stacks as their constructors leave them; the stacks without any
    module stand for a constructor that raised. *)
Definition no_module : PrePostProcessing := mk_PrePostProcessing 0 0 "" None 0.

Definition no_encoder : Enc.t :=
  Enc.mk 0 0 0 0 0 0 0 0 "" 0 (mk_Embedding 0 0 0 (mk_tensor [] [])) None
    no_module no_module None [] None None true.

Definition no_decoder : Dec.t :=
  Dec.mk 0 0 0 0 0 0 0 0 "" 0 None no_module None
    (mk_Embedding 0 0 0 (mk_tensor [] [])) None [] (mk_tensor [] []) None None true.

Definition encoder (layers : Z) (time : string) : Enc.t :=
  match Enc.init (options layers time) 10 (Some 4%Z) world0 with
  | (_, Ok e) => e
  | _ => no_encoder
  end.

Definition decoder (layers : Z) (time : string) : Dec.t :=
  match Dec.init (options layers time) 10 (Some 4%Z) world0 with
  | (_, Ok d) => d
  | _ => no_decoder
  end.

(** Source ids [5, 7, 2] and target ids [3, PAD], batch 1. *)
Definition source : LongTensor := mk_tensor [1; 3] [5; 7; 2]%Z.
Definition target : LongTensor := mk_tensor [1; 2] [3; 0]%Z.

(** The memory bank an encoder of the scenario returns on the source. *)
Definition memory_bank (layers : Z) : Tensor :=
  match Enc.forward (encoder layers "positional_encoding") source false world0 with
  | (_, Ok (memory_bank, _)) => memory_bank
  | _ => mk_tensor [] []
  end.

(** The scenario's encoder after [add_layers(1)], from a world whose
    generator stands at 100. *)
(** The positional encoder of the scenario: a table of four positions. *)
Definition positional : option (@PositionalEncoding types) := Some 4%Z.

Definition world100 : world := mk_world (TY := types) 100 false [].

Definition grown_encoder : Enc.t :=
  match Enc.add_layers (encoder 2 "positional_encoding") 1 world100 with
  | (_, Ok e) => e
  | _ => no_encoder
  end.

(** A buffer for a two-layer decoder. *)
Definition buffer2 : list Tensor :=
  [mk_tensor [1; 1; 8] [7; 7; 7; 7; 7; 7; 7; 7]%Z;
   mk_tensor [1; 1; 8] [9; 9; 9; 9; 9; 9; 9; 9]%Z].

(** Options that ask for the version 2. *)
Definition options_v2 : opt.t :=
  opt.mk 8 2 16 2 0 0 0 0 "positional_encoding" 2.

(** The scenario's stacks marked as pretrained, then grown by one layer. *)
Definition marked_grown_encoder : Enc.t :=
  match Enc.add_layers (Enc.mark_pretrained (encoder 2 "positional_encoding"))
          1 world100 with
  | (_, Ok e) => e
  | _ => no_encoder
  end.

Definition marked_grown_decoder : Dec.t :=
  match Dec.add_layers (Dec.mark_pretrained (decoder 2 "positional_encoding"))
          1 world100 with
  | (_, Ok d) => d
  | _ => no_decoder
  end.

(** An encoder built without layers, marked as pretrained, then grown by
    two layers. *)
Definition encoder_grown_from_empty : Enc.t :=
  match Enc.add_layers (Enc.mark_pretrained (encoder 0 "positional_encoding"))
          2 world100 with
  | (_, Ok e) => e
  | _ => no_encoder
  end.

(** Target ids of five tokens, one more than the positional encoder of
    the scenario has positions. *)
Definition long_target : LongTensor := mk_tensor [1; 5] [3; 4; 5; 6; 0]%Z.

(** A source with the padding where [source] has it: nowhere. *)
Definition other_source : LongTensor := mk_tensor [1; 3] [1; 1; 9]%Z.

End Scenario.

(** ** Vocabulary of the statements *)

Section Vocabulary.
Context {TY : Types} {RT : Runtime TY}.

(** [m] leaves the [recompute] mark as it found it and adds only events
    that satisfy [Q]. *)
Definition emits {A} (Q : event -> Prop) (m : M A) : Prop :=
  forall w w' r, m w = (w', r) ->
    recompute w' = recompute w /\
    exists evs, trace w' = trace w ++ evs /\ Forall Q evs.

Definition is_time_call (ev : event) : Prop :=
  match ev with TimeTransformerCall _ => True | _ => False end.


(** A table of [n] rows of [d] columns can be built with the padding at
    [pad]: it has a row for the padding, counted from the end when [pad]
    is negative, and its sizes are not negative. *)
Definition embeddable (n d pad : Z) : Prop :=
  (- n <= pad < n)%Z /\ (0 <= d)%Z.

(** The row the padding is kept at. *)
Definition padding_row (n pad : Z) : Z :=
  if (pad <? 0)%Z then (n + pad)%Z else pad.

(** The checkpointing policy, as the specification words it: layer [i]
    of [n] is recomputed when the stack trains and [n - i <= k]. *)
Definition checkpointed (training : bool) (n i : nat) : Prop :=
  training = true /\ (Z.of_nat n - Z.of_nat i <= checkpointing)%Z.

(** Encoder calls fed one into the next, starting from [context]. *)
Fixpoint enc_chained (context : Tensor) (calls : list enc_call) : Prop :=
  match calls with
  | [] => True
  | c :: cs => ec_context c = context /\ enc_chained (ec_out c) cs
  end.

(** The output of the last call, [context] when there is none. *)
Fixpoint enc_final (context : Tensor) (calls : list enc_call) : Tensor :=
  match calls with
  | [] => context
  | c :: cs => enc_final (ec_out c) cs
  end.


(** The call returned what the layer's forward returns on its input. *)
Definition enc_returned (training : bool) (mask_src pad_mask : ByteTensor)
    (c : enc_call) : Prop :=
  exists g, fst (ParallelEncoderLayer_forward (ec_layer c) training
                   (ec_context c) mask_src pad_mask g)
            = (ec_out c, ec_norm_input c).

Fixpoint dec_chained (output : Tensor) (calls : list dec_call) : Prop :=
  match calls with
  | [] => True
  | c :: cs => dc_output c = output /\ dec_chained (dc_out c) cs
  end.

(** The output and the coverage after the decoder calls [calls]. *)
Fixpoint dec_final (output : Tensor) (calls : list dec_call) : Tensor :=
  match calls with
  | [] => output
  | c :: cs => dec_final (dc_out c) cs
  end.

Fixpoint dec_coverage (coverage : option Tensor) (calls : list dec_call)
  : option Tensor :=
  match calls with
  | [] => coverage
  | c :: cs => dec_coverage (Some (dc_coverage c)) cs
  end.

(** [m] returns, whatever the world. *)
Definition total {A} (m : M A) : Prop :=
  forall w, exists w' a, m w = (w', Ok a).

(** A layer step whose query has length one; calls of the time
    transformer are not constrained. *)
Definition query_of_length_one (ev : event) : Prop :=
  match ev with
  | DecoderLayerStep c => torch.size (sc_query c) 1 = Ok 1
  | _ => True
  end.

(** A call of the time transformer with [None] for the previous hidden
    state. *)
Definition without_previous_state (ev : event) : Prop :=
  match ev with
  | TimeTransformerCall c => tc_args c = TT_prev None
  | _ => True
  end.

(** Stacks on which [mark_pretrained] was never called: what the
    constructor returns, grown and switched between training and
    evaluation any number of times. *)
Inductive enc_unmarked : Enc.t -> Prop :=
| enc_unmarked_init o dicts_size pe w w' self :
    Enc.init o dicts_size pe w = (w', Ok self) -> enc_unmarked self
| enc_unmarked_add self n w w' self' :
    enc_unmarked self -> Enc.add_layers self n w = (w', Ok self') ->
    enc_unmarked self'
| enc_unmarked_train self b :
    enc_unmarked self -> enc_unmarked (Enc.set_training self b).

Inductive dec_unmarked : Dec.t -> Prop :=
| dec_unmarked_init o dicts_size pe w w' self :
    Dec.init o dicts_size pe w = (w', Ok self) -> dec_unmarked self
| dec_unmarked_add self n w w' self' :
    dec_unmarked self -> Dec.add_layers self n w = (w', Ok self') ->
    dec_unmarked self'
| dec_unmarked_renew self new_len w w' self' :
    dec_unmarked self -> Dec.renew_buffer self new_len w = (w', Ok self') ->
    dec_unmarked self'
| dec_unmarked_train self b :
    dec_unmarked self -> dec_unmarked (Dec.set_training self b).

(** The causal mask for a maximum length [L], as the specification words
    it: [L] by [L], entry [(i, j)] suppressing exactly when [j > i]. *)
Definition strictly_upper (L : nat) (mask : ByteTensor) : Prop :=
  shape mask = [L; L] /\
  length (data mask) = L * L /\
  forall i j, i < L -> j < L ->
    (torch.get mask [i; j] = 1%Z <-> i < j) /\
    (torch.get mask [i; j] = 0%Z <-> j <= i).

End Vocabulary.

(** ** The layers of an encoder run one after the other *)

Section LayerRuns.
Context {TY : Types} {RT : Runtime TY}.

(** The calls of the layers [ls], each on the output of the one before,
    from [context] and the generator [g], with the generator they leave.
    [inside k] marks the call of index [k], counted from [i]. *)
Fixpoint enc_run (training : bool) (mask_src pad_mask : ByteTensor)
    (inside : nat -> bool) (i : nat) (ls : list EncoderLayer)
    (context : Tensor) (g : Rng) : list enc_call * Rng :=
  match ls with
  | [] => ([], g)
  | layer :: ls' =>
      let r := ParallelEncoderLayer_forward layer training context mask_src pad_mask g in
      let rest := enc_run training mask_src pad_mask inside (S i) ls' r.1.1 r.2 in
      (mk_enc_call (inside i) layer context r.1.1 r.1.2 :: rest.1, rest.2)
  end.

(** Two runs agree when they give the same result and leave the random
    generator in the same state; the calls they recorded may be marked
    differently. *)
Definition agree {A} (x y : world * result A) : Prop :=
  x.2 = y.2 /\ rng x.1 = rng y.1.

End LayerRuns.

(** * Properties *)

(** ** Reading a tabulated tensor *)

Section TensorFacts.

Lemma ravel_lt (sh idx : list nat) :
  Forall2 lt idx sh -> torch.ravel sh idx < torch.numel sh.
Proof.
  induction 1 as [|i n idx sh Hi _ IH]; cbn; [lia|].
  fold (torch.numel sh). nia.
Qed.

Lemma unravel_ravel (sh idx : list nat) :
  Forall2 lt idx sh -> torch.unravel sh (torch.ravel sh idx) = idx.
Proof.
  induction 1 as [|i n idx sh Hi Hrest IH]; cbn; [reflexivity|].
  fold (torch.numel sh).
  pose proof (ravel_lt sh idx Hrest) as Hr.
  set (c := torch.numel sh) in *. set (r := torch.ravel sh idx) in *.
  assert (Hc : c <> 0) by lia.
  rewrite Nat.div_add_l by exact Hc.
  rewrite (Nat.div_small r c) by exact Hr.
  rewrite Nat.add_0_r, (Nat.mod_small i n) by exact Hi.
  rewrite Nat.add_comm, Nat.Div0.mod_add, (Nat.mod_small r c) by exact Hr.
  now rewrite IH.
Qed.

Lemma get_tabulate (sh : list nat) (f : list nat -> Z) (idx : list nat) :
  Forall2 lt idx sh -> torch.get (torch.tabulate sh f) idx = f idx.
Proof.
  intros H. unfold torch.get, torch.tabulate; cbn.
  pose proof (ravel_lt sh idx H) as Hlt.
  rewrite nth_lookup, list_lookup_fmap, lookup_seq_lt by exact Hlt.
  cbn. now rewrite unravel_ravel.
Qed.

Lemma get_map_data (f : Z -> Z) (t : tensor Z) (idx : list nat) :
  f 0%Z = 0%Z -> torch.get (torch.map_data f t) idx = f (torch.get t idx).
Proof.
  intros H0. unfold torch.get, torch.map_data; cbn.
  rewrite !nth_lookup, list_lookup_fmap.
  now destruct (data t !! _).
Qed.

Lemma index2_lt (n m i j : nat) : i < n -> j < m -> Forall2 lt [i; j] [n; m].
Proof. intros; repeat constructor; assumption. Qed.

(** The entries of [np.triu(np.ones((n, n)), k=1).astype('uint8')]. *)
Lemma triu_ones_get (n i j : nat) :
  i < n -> j < n ->
  torch.get (np.astype_uint8 (np.triu (np.ones n n) 1)) [i; j]
  = if i <? j then 1%Z else 0%Z.
Proof.
  intros Hi Hj. unfold np.astype_uint8.
  rewrite get_map_data by reflexivity.
  unfold np.triu. cbn [shape np.ones torch.tabulate].
  rewrite get_tabulate by now apply index2_lt.
  unfold np.tri, np.ones.
  rewrite !get_tabulate by now apply index2_lt.
  destruct (Z.leb_spec (Z.of_nat j) (Z.of_nat i + (1 - 1))) as [H|H];
    destruct (Nat.ltb_spec i j); try lia; reflexivity.
Qed.

Lemma triu_ones_shape (n : nat) :
  shape (np.astype_uint8 (np.triu (np.ones n n) 1)) = [n; n].
Proof. reflexivity. Qed.


Lemma stack_size {A} (ts : list (tensor A)) (out : tensor A) :
  torch.stack ts = Ok out -> torch.size out 0 = Ok (length ts).
Proof.
  unfold torch.stack. destruct ts as [|t ts']; [discriminate|].
  destruct (forallb _ _); [|discriminate].
  intros [= <-]. reflexivity.
Qed.

End TensorFacts.

(** ** What a computation adds to the record of calls *)

Section Emits.
Context {TY : Types}.

Variable Q : event -> Prop.

Lemma emits_ret {A} (a : A) : emits Q (mret a).
Proof.
  intros w w' r [= <- <-]. split; [reflexivity|].
  exists []. now rewrite app_nil_r.
Qed.

Lemma emits_raise {A} (e : exn) : emits Q (@raise _ A e).
Proof.
  intros w w' r [= <- <-]. split; [reflexivity|].
  exists []. now rewrite app_nil_r.
Qed.

Lemma emits_lift {A} (x : result A) : emits Q (lift x).
Proof.
  intros w w' r [= <- <-]. split; [reflexivity|].
  exists []. now rewrite app_nil_r.
Qed.

Lemma emits_getattr {A} (a : option A) : emits Q (getattr a).
Proof. destruct a; [apply emits_ret | apply emits_raise]. Qed.

Lemma emits_draw {A} (f : Rng -> A * Rng) : emits Q (draw f).
Proof.
  intros w w' r. unfold draw.
  intros [= <- <-]. split; [reflexivity|].
  exists []. now rewrite app_nil_r.
Qed.

Lemma emits_log (ev : event) : Q ev -> emits Q (log ev).
Proof.
  intros H w w' r [= <- <-]. split; [reflexivity|].
  exists [ev]. split; [reflexivity|]. now constructor.
Qed.

Lemma emits_get_recompute : emits Q get_recompute.
Proof.
  intros w w' r [= <- <-]. split; [reflexivity|].
  exists []. now rewrite app_nil_r.
Qed.

Lemma emits_bind {A B} (m : M A) (f : A -> M B) :
  emits Q m -> (forall a, emits Q (f a)) -> emits Q (m ≫= f).
Proof.
  intros Hm Hf w w' r. unfold mbind, M_bind.
  destruct (m w) as [w1 [a|e]] eqn:E.
  - intros E'. destruct (Hm _ _ _ E) as (R1 & evs1 & T1 & F1).
    destruct (Hf a _ _ _ E') as (R2 & evs2 & T2 & F2).
    split; [congruence|]. exists (evs1 ++ evs2).
    split; [now rewrite T2, T1, app_assoc | now apply Forall_app].
  - intros [= <- <-]. apply (Hm _ _ _ E).
Qed.

Lemma emits_bind_ret {A B} (a : A) (f : A -> M B) :
  emits Q (f a) -> emits Q (mret a ≫= f).
Proof. intros H w w' r Hrun. exact (H w w' r Hrun). Qed.

Lemma emits_for_each {X St} (body : X -> St -> M St) (xs : list X) :
  (forall x st, emits Q (body x st)) -> forall st, emits Q (for_each body xs st).
Proof.
  intros Hb. induction xs as [|x xs IH]; intros st; cbn [for_each].
  - apply emits_ret.
  - apply emits_bind; [apply Hb | apply IH].
Qed.

Lemma emits_for_enumerate {X St} (body : nat -> X -> St -> M St) (xs : list X) :
  (forall i x st, emits Q (body i x st)) ->
  forall i st, emits Q (for_enumerate body i xs st).
Proof.
  intros Hb. induction xs as [|x xs IH]; intros i st; cbn [for_enumerate].
  - apply emits_ret.
  - apply emits_bind; [apply Hb | apply IH].
Qed.

End Emits.

(** Splits a computation into its steps and closes each with the facts
    above; a [log] leaves a goal on its event. *)
Ltac emits_step :=
  match goal with
  | |- emits _ (mbind _ _) => apply emits_bind; [|intros ?]
  | |- emits _ (mret _) => apply emits_ret
  | |- emits _ (raise _) => apply emits_raise
  | |- emits _ (lift _) => apply emits_lift
  | |- emits _ (getattr _) => apply emits_getattr
  | |- emits _ (draw _) => apply emits_draw
  | |- emits _ get_recompute => apply emits_get_recompute
  | |- emits _ (log _) => apply emits_log
  | |- emits _ (for_each _ _ _) => apply emits_for_each; intros ? ?
  | |- emits _ (for_enumerate _ _ _ _) => apply emits_for_enumerate; intros ? ? ?
  | |- emits _ (match ?x with _ => _ end) => destruct x
  | |- emits _ (let '(_, _) := ?x in _) => destruct x
  | |- emits _ (if ?b then _ else _) => destruct b
  end.

Section SharedFacts.
Context {TY : Types} {RT : Runtime TY}.

Lemma encoder_calls_app (a b : list event) :
  encoder_calls (a ++ b) = encoder_calls a ++ encoder_calls b.
Proof. apply omap_app. Qed.

Lemma decoder_calls_app (a b : list event) :
  decoder_calls (a ++ b) = decoder_calls a ++ decoder_calls b.
Proof. apply omap_app. Qed.

Lemma step_calls_app (a b : list event) :
  step_calls (a ++ b) = step_calls a ++ step_calls b.
Proof. apply omap_app. Qed.

Lemma time_calls_app (a b : list event) :
  time_calls (a ++ b) = time_calls a ++ time_calls b.
Proof. apply omap_app. Qed.

Lemma only_time_calls (evs : list event) :
  Forall is_time_call evs ->
  encoder_calls evs = [] /\ decoder_calls evs = [] /\ step_calls evs = [].
Proof.
  induction 1 as [|ev evs Hev _ IH]; [easy|].
  destruct ev; cbn in Hev; try contradiction. exact IH.
Qed.

Lemma encoder_calls_map (calls : list enc_call) :
  encoder_calls (map EncoderLayerCall calls) = calls.
Proof. induction calls as [|c cs IH]; [reflexivity|]. cbn. f_equal. exact IH. Qed.

Lemma decoder_calls_map (calls : list dec_call) :
  decoder_calls (map DecoderLayerCall calls) = calls.
Proof. induction calls as [|c cs IH]; [reflexivity|]. cbn. f_equal. exact IH. Qed.

Lemma step_calls_map (calls : list step_call) :
  step_calls (map DecoderLayerStep calls) = calls.
Proof. induction calls as [|c cs IH]; [reflexivity|]. cbn. f_equal. exact IH. Qed.

Lemma emits_call_time_transformer (Q : event -> Prop) tt pe emb args :
  Q (TimeTransformerCall (mk_time_call emb args)) ->
  emits Q (call_time_transformer tt pe emb args).
Proof.
  intros HQ. unfold call_time_transformer.
  repeat (emits_step; try exact HQ).
Qed.

Lemma emits_embedded_dropout (P : event -> Prop) (embed : Embedding)
    (words : LongTensor) (dropout : Q) :
  emits P (embedded_dropout embed words dropout).
Proof. unfold embedded_dropout. repeat emits_step. Qed.

(** The lookup leaves the record of calls and the mark as they are. *)
Lemma embedded_dropout_world (embed : Embedding) (words : LongTensor) (dropout : Q)
    (w w0 : world) (r : result Tensor) :
  embedded_dropout embed words dropout w = (w0, r) ->
  recompute w0 = recompute w /\ trace w0 = trace w.
Proof.
  intros H. destruct (emits_embedded_dropout (fun _ => False) _ _ _ _ _ _ H)
    as (Hr & evs & Htr & Hnone).
  split; [exact Hr|]. destruct evs as [|ev evs]; [now rewrite app_nil_r in Htr|].
  now inversion Hnone.
Qed.

End SharedFacts.

(** ** The encoder's loop over its layers *)

Section EncoderFacts.
Context {TY : Types} {RT : Runtime TY}.

Lemma world_eta (w : world) : mk_world (rng w) (recompute w) (trace w ++ []) = w.
Proof. destruct w; cbn. now rewrite app_nil_r. Qed.

(** One turn: a single call of the layer, marked when it ran inside
    [checkpoint]. *)
Lemma enc_forward_body_run (self : Enc.t) (ms pm : ByteTensor) (i : nat)
    (layer : EncoderLayer) (ctx : Tensor) (bank : list Tensor) (w : world) :
  Enc.forward_body self ms pm i layer (ctx, bank) w =
  let r := ParallelEncoderLayer_forward layer (Enc.training self) ctx ms pm (rng w) in
  let ck := (Z.of_nat (length (Enc.layer_modules self)) - Z.of_nat i <=? checkpointing)%Z
            && Enc.training self in
  (mk_world (snd r) (recompute w)
     (trace w ++ [EncoderLayerCall
                    (mk_enc_call (ck || recompute w) layer ctx (fst (fst r)) (snd (fst r)))]),
   Ok (fst (fst r), if 0 <? i then bank ++ [snd (fst r)] else bank)).
Proof.
  unfold Enc.forward_body, checkpoint, custom_layer, Enc.call_layer.
  destruct ((_ <=? _)%Z && _);
    unfold mbind, M_bind, mret, M_ret, draw, log, get_recompute, set_recompute;
    cbn; destruct (ParallelEncoderLayer_forward _ _ _ _ _ _) as [[out norm] g];
    reflexivity.
Qed.

Lemma enc_forward_loop (self : Enc.t) (ms pm : ByteTensor) (ls : list EncoderLayer) :
  forall (i : nat) (ctx : Tensor) (bank : list Tensor) (w : world),
  exists calls g,
    for_enumerate (Enc.forward_body self ms pm) i ls (ctx, bank) w
    = (mk_world g (recompute w) (trace w ++ map EncoderLayerCall calls),
       Ok (enc_final ctx calls, bank ++ map ec_norm_input (drop (1 - i) calls)))
    /\ map ec_layer calls = ls
    /\ enc_chained ctx calls
    /\ Forall (enc_returned (Enc.training self) ms pm) calls
    /\ (forall k c, calls !! k = Some c ->
          ec_recompute c
          = ((Z.of_nat (length (Enc.layer_modules self)) - Z.of_nat (i + k)
              <=? checkpointing)%Z && Enc.training self) || recompute w).
Proof.
  induction ls as [|layer ls IH]; intros i ctx bank w.
  - exists [], (rng w). cbn [for_enumerate map enc_final drop].
    rewrite world_eta, drop_nil. cbn [map]. rewrite app_nil_r.
    repeat split; [constructor|]. intros k c H. now rewrite lookup_nil in H.
  - cbn [for_enumerate]. unfold mbind at 1, M_bind at 1.
    rewrite enc_forward_body_run. cbv zeta.
    set (r := ParallelEncoderLayer_forward layer _ ctx ms pm (rng w)).
    set (c := mk_enc_call _ layer ctx _ _).
    destruct (IH (S i) (fst (fst r))
                (if 0 <? i then bank ++ [snd (fst r)] else bank)
                (mk_world (snd r) (recompute w) (trace w ++ [EncoderLayerCall c])))
      as (calls & g & Hrun & Hlayers & Hchain & Hret & Hflags).
    exists (c :: calls), g. split; [|repeat split].
    + rewrite Hrun. cbn [recompute trace map enc_final ec_out c].
      rewrite <- app_assoc. cbn [app]. do 3 f_equal.
      destruct i as [|i]; cbn; [reflexivity|].
      now rewrite <- app_assoc.
    + cbn. now rewrite Hlayers.
    + exact Hchain.
    + constructor; [|exact Hret]. exists (rng w). subst c r. cbn.
      now destruct (ParallelEncoderLayer_forward _ _ _ _ _ _) as [[? ?] ?].
    + intros [|k] c' Hk.
      * injection Hk as <-. subst c. cbn. now rewrite Nat.add_0_r.
      * cbn in Hk. rewrite (Hflags k c' Hk). cbn [recompute].
        now replace (S i + k) with (i + S k) by lia.
Qed.

(** The lines before the layers add calls of the time transformer only. *)
Lemma enc_embed_emits (self : Enc.t) (input : LongTensor) :
  emits is_time_call (Enc.embed self input).
Proof.
  unfold Enc.embed.
  repeat (first [ apply emits_embedded_dropout
                | apply emits_call_time_transformer; exact I | emits_step ]).
Qed.



(** What [forward] does after the embedding went through. *)
Lemma enc_forward_run (self : Enc.t) (input : LongTensor) (w w1 : world)
    (emb : Tensor) (ms pm : ByteTensor) :
  Enc.embed self input w = (w1, Ok (emb, ms, pm)) ->
  exists calls g,
    let post := PrePostProcessing_forward (Enc.postprocess_layer self)
                  (Enc.training self) (enc_final emb calls) g in
    let bank := map ec_norm_input (drop 1 calls) ++ [fst post] in
    Enc.forward self input false w
    = (mk_world (snd post) (recompute w1) (trace w1 ++ map EncoderLayerCall calls),
       match torch.stack bank with
       | Ok memory_bank => Ok (memory_bank, ms)
       | Raise e => Raise e
       end)
    /\ map ec_layer calls = Enc.layer_modules self
    /\ enc_chained emb calls
    /\ Forall (enc_returned (Enc.training self) ms pm) calls
    /\ (forall k c, calls !! k = Some c ->
          ec_recompute c
          = ((Z.of_nat (length (Enc.layer_modules self)) - Z.of_nat k
              <=? checkpointing)%Z && Enc.training self) || recompute w1).
Proof.
  intros He.
  destruct (enc_forward_loop self ms pm (Enc.layer_modules self) 0 emb [] w1)
    as (calls & g & Hrun & Hlayers & Hchain & Hret & Hflags).
  exists calls, g. cbv zeta. split; [|repeat split; assumption].
  unfold Enc.forward. unfold mbind at 1, M_bind at 1. rewrite He.
  unfold mbind at 1, M_bind at 1. rewrite Hrun.
  unfold Enc.finish, mbind, M_bind, mret, M_ret, draw, lift. cbn.
  now destruct (torch.stack _).
Qed.

Lemma enc_forward_embed_fails (self : Enc.t) (input : LongTensor) (w w1 : world)
    (e : exn) :
  Enc.embed self input w = (w1, Raise e) ->
  Enc.forward self input false w = (w1, Raise e).
Proof.
  intros He. unfold Enc.forward. unfold mbind at 1, M_bind at 1. now rewrite He.
Qed.

End EncoderFacts.

(** ** The run of an encoder's layers *)

Section EncoderRuns.
Context {TY : Types} {RT : Runtime TY}.

Lemma enc_run_layers (tr : bool) (ms pm : ByteTensor) (f : nat -> bool)
    (ls : list EncoderLayer) :
  forall (i : nat) (ctx : Tensor) (g : Rng),
  map ec_layer (enc_run tr ms pm f i ls ctx g).1 = ls
  /\ forall k c, (enc_run tr ms pm f i ls ctx g).1 !! k = Some c ->
                 ec_recompute c = f (i + k).
Proof.
  induction ls as [|layer ls IH]; intros i ctx g.
  - split; [reflexivity|]. intros k c H. cbn in H. now rewrite lookup_nil in H.
  - cbn. destruct (IH (S i) (ParallelEncoderLayer_forward layer tr ctx ms pm g).1.1
                     (ParallelEncoderLayer_forward layer tr ctx ms pm g).2) as [H1 H2].
    split; [now rewrite H1|]. intros [|k] c Hk.
    + injection Hk as <-. cbn. now rewrite Nat.add_0_r.
    + cbn in Hk. rewrite (H2 k c Hk). f_equal. lia.
Qed.


(** The loop of [forward] is the run of all the layers. *)
Lemma enc_forward_loop_run (self : Enc.t) (ms pm : ByteTensor)
    (ls : list EncoderLayer) :
  forall (i : nat) (ctx : Tensor) (bank : list Tensor) (w : world),
  let run := enc_run (Enc.training self) ms pm
               (fun k => ((Z.of_nat (length (Enc.layer_modules self)) - Z.of_nat k
                           <=? checkpointing)%Z && Enc.training self) || recompute w)
               i ls ctx (rng w) in
  for_enumerate (Enc.forward_body self ms pm) i ls (ctx, bank) w
  = (mk_world run.2 (recompute w) (trace w ++ map EncoderLayerCall run.1),
     Ok (enc_final ctx run.1, bank ++ map ec_norm_input (drop (1 - i) run.1))).
Proof.
  induction ls as [|layer ls IH]; intros i ctx bank w.
  - cbn. rewrite drop_nil. cbn. now rewrite world_eta, app_nil_r.
  - cbv zeta. cbn [for_enumerate]. unfold mbind at 1, M_bind at 1.
    rewrite enc_forward_body_run. cbv beta iota zeta.
    rewrite IH. cbv zeta. cbn [rng recompute trace enc_run fst snd map enc_final ec_out].
    rewrite <- app_assoc. cbn [app]. do 3 f_equal.
    destruct i as [|i]; cbn; [reflexivity|].
    now rewrite <- app_assoc.
Qed.

(** What [forward] does after the embedding went through, as a run. *)
Lemma enc_forward_full_run (self : Enc.t) (input : LongTensor) (w w1 : world)
    (emb : Tensor) (ms pm : ByteTensor) :
  Enc.embed self input w = (w1, Ok (emb, ms, pm)) ->
  let run := enc_run (Enc.training self) ms pm
               (fun k => ((Z.of_nat (length (Enc.layer_modules self)) - Z.of_nat k
                           <=? checkpointing)%Z && Enc.training self) || recompute w1)
               0 (Enc.layer_modules self) emb (rng w1) in
  let post := PrePostProcessing_forward (Enc.postprocess_layer self)
                (Enc.training self) (enc_final emb run.1) run.2 in
  Enc.forward self input false w
  = (mk_world post.2 (recompute w1) (trace w1 ++ map EncoderLayerCall run.1),
     match torch.stack (map ec_norm_input (drop 1 run.1) ++ [post.1]) with
     | Ok memory_bank => Ok (memory_bank, ms)
     | Raise e => Raise e
     end).
Proof.
  intros He. cbv zeta. unfold Enc.forward. unfold mbind at 1, M_bind at 1. rewrite He.
  unfold mbind at 1, M_bind at 1.
  rewrite (enc_forward_loop_run self ms pm (Enc.layer_modules self) 0 emb [] w1).
  cbv zeta. unfold Enc.finish, mbind, M_bind, mret, M_ret, draw, lift. cbn.
  now destruct (torch.stack _).
Qed.

End EncoderRuns.

(** ** The decoder's loop over its layers *)

Section DecoderFacts.
Context {TY : Types} {RT : Runtime TY}.

Lemma index0_in_range {A} (t : tensor A) (n j : nat) :
  torch.size t 0 = Ok n -> j < n -> exists x, torch.index0 t (Z.of_nat j) = Ok x.
Proof.
  unfold torch.size, torch.index0. destruct (shape t) as [|n' rest]; [discriminate|].
  cbn. intros [= ->] Hj.
  destruct (Z.ltb_spec (Z.of_nat j) 0); [lia|].
  destruct (Z.leb_spec 0 (Z.of_nat j)); [|lia].
  destruct (Z.ltb_spec (Z.of_nat j) (Z.of_nat n)); [|lia].
  cbn. eauto.
Qed.

Lemma index0_out_of_range {A} (t : tensor A) (n j : nat) :
  torch.size t 0 = Ok n -> n <= j -> torch.index0 t (Z.of_nat j) = Raise IndexError.
Proof.
  unfold torch.size, torch.index0. destruct (shape t) as [|n' rest]; [discriminate|].
  cbn. intros [= ->] Hj.
  destruct (Z.ltb_spec (Z.of_nat j) 0); [lia|].
  destruct (Z.ltb_spec (Z.of_nat j) (Z.of_nat n)); [lia|].
  now rewrite andb_false_r.
Qed.

Lemma dec_forward_body_run (self : Dec.t) (context : Tensor)
    (mt ms pmt pms : ByteTensor) (i : nat) (layer : DecoderLayer)
    (output : Tensor) (cov : option Tensor) (w : world) :
  Dec.forward_body self context mt ms pmt pms i layer (output, cov) w =
  match torch.index0 context (Z.of_nat i) with
  | Raise e => (w, Raise e)
  | Ok memory =>
      let r := DecoderLayer_forward layer (Dec.training self) output memory
                 mt ms pmt pms (rng w) in
      let ck := (Z.of_nat (length (Dec.layer_modules self)) - Z.of_nat i
                 <=? checkpointing)%Z && Dec.training self in
      (mk_world (snd r) (recompute w)
         (trace w ++ [DecoderLayerCall
                        (mk_dec_call (ck || recompute w) layer output memory
                           (fst (fst r)) (snd (fst r)))]),
       Ok (fst (fst r), Some (snd (fst r))))
  end.
Proof.
  unfold Dec.forward_body, checkpoint, custom_layer, Dec.call_layer.
  destruct ((_ <=? _)%Z && _);
    unfold mbind, M_bind, mret, M_ret, draw, log, lift, get_recompute, set_recompute;
    cbn; destruct (torch.index0 context _) as [memory|e]; cbn; [|reflexivity| |reflexivity];
    destruct (DecoderLayer_forward _ _ _ _ _ _ _ _ _) as [[out c] g]; reflexivity.
Qed.

(** The loop runs the layers in order, each on the memory-bank entry of
    its own index, and stops at the first index the bank does not have. *)
Lemma dec_forward_loop (self : Dec.t) (context : Tensor) (mt ms pmt pms : ByteTensor)
    (ls : list DecoderLayer) :
  forall (i : nat) (output : Tensor) (cov : option Tensor) (w : world),
  exists calls g r,
    for_enumerate (Dec.forward_body self context mt ms pmt pms) i ls (output, cov) w
    = (mk_world g (recompute w) (trace w ++ map DecoderLayerCall calls), r)
    /\ map dc_layer calls = take (length calls) ls
    /\ dec_chained output calls
    /\ (forall k c, calls !! k = Some c ->
          torch.index0 context (Z.of_nat (i + k)) = Ok (dc_memory c) /\
          dc_recompute c
          = ((Z.of_nat (length (Dec.layer_modules self)) - Z.of_nat (i + k)
              <=? checkpointing)%Z && Dec.training self) || recompute w)
    /\ match r with
       | Ok st => length calls = length ls /\
                  st = (dec_final output calls, dec_coverage cov calls)
       | Raise e => length calls < length ls /\
                    torch.index0 context (Z.of_nat (i + length calls)) = Raise e
       end.
Proof.
  induction ls as [|layer ls IH]; intros i output cov w.
  - exists [], (rng w), (Ok (output, cov)). cbn [for_enumerate map].
    rewrite world_eta. split; [|split; [|split; [|split]]]; try easy.
    all: intros k c H; now rewrite lookup_nil in H.
  - cbn [for_enumerate]. unfold mbind at 1, M_bind at 1.
    rewrite dec_forward_body_run.
    destruct (torch.index0 context (Z.of_nat i)) as [memory|e] eqn:Hidx.
    + cbv zeta.
      set (r := DecoderLayer_forward layer _ output memory mt ms pmt pms (rng w)).
      set (c := mk_dec_call _ layer output memory _ _).
      destruct (IH (S i) (fst (fst r)) (Some (snd (fst r)))
                  (mk_world (snd r) (recompute w) (trace w ++ [DecoderLayerCall c])))
        as (calls & g & res & Hrun & Hlayers & Hchain & Hcalls & Hres).
      exists (c :: calls), g, res. split; [|split; [|split; [|split]]].
      * rewrite Hrun. cbn [recompute trace map].
        now rewrite <- app_assoc.
      * cbn. now rewrite Hlayers.
      * split; [reflexivity|exact Hchain].
      * intros [|k] c' Hk.
        -- injection Hk as <-. subst c. cbn. now rewrite Nat.add_0_r.
        -- cbn in Hk. replace (i + S k) with (S i + k) by lia.
           apply (Hcalls k c' Hk).
      * destruct res as [st|e]; cbn [length].
        -- destruct Hres as [Hlen ->]. split; [lia|reflexivity].
        -- destruct Hres as [Hlen Hfail]. split; [lia|].
           now replace (i + S (length calls)) with (S i + length calls) by lia.
    + exists [], (rng w), (Raise e). cbn [map length]. rewrite world_eta.
      split; [|split; [|split; [|split]]]; try easy.
      all: try (intros k c H; now rewrite lookup_nil in H).
      all: split; [lia|now rewrite Nat.add_0_r].
Qed.

Lemma dec_coverage_bound (cov : option Tensor) (calls : list dec_call) :
  calls <> [] -> is_Some (dec_coverage cov calls).
Proof.
  revert cov. induction calls as [|c cs IH]; intros cov H; [congruence|].
  cbn. destruct cs as [|c' cs']; [now eexists|]. now apply IH.
Qed.

Lemma dec_masks_emits (Q : event -> Prop) (self : Dec.t) (input src : LongTensor) :
  emits Q (Dec.masks self input src).
Proof. unfold Dec.masks. repeat emits_step. Qed.

Lemma dec_embed_emits (self : Dec.t) (input src : LongTensor) :
  emits is_time_call (Dec.embed self input src).
Proof.
  unfold Dec.embed.
  repeat (first [ apply emits_embedded_dropout
                | apply emits_call_time_transformer; exact I
                | apply dec_masks_emits | emits_step ]).
Qed.

(** What [forward] does after the embedding and the masks went through. *)
Lemma dec_forward_run (self : Dec.t) (input : LongTensor) (context : Tensor)
    (src : LongTensor) (w w1 : world) (emb : Tensor) (ms mt pmt pms : ByteTensor) :
  Dec.embed self input src w = (w1, Ok (emb, ms, mt, pmt, pms)) ->
  exists calls g r,
    let w2 := mk_world g (recompute w1) (trace w1 ++ map DecoderLayerCall calls) in
    Dec.forward self input context src false w
    = match r with
      | Ok (output, coverage) => Dec.finish self output coverage w2
      | Raise e => (w2, Raise e)
      end
    /\ map dc_layer calls = take (length calls) (Dec.layer_modules self)
    /\ dec_chained emb calls
    /\ (forall k c, calls !! k = Some c ->
          torch.index0 context (Z.of_nat k) = Ok (dc_memory c) /\
          dc_recompute c
          = ((Z.of_nat (length (Dec.layer_modules self)) - Z.of_nat k
              <=? checkpointing)%Z && Dec.training self) || recompute w1)
    /\ match r with
       | Ok st => length calls = length (Dec.layer_modules self) /\
                  st = (dec_final emb calls, dec_coverage None calls)
       | Raise e => length calls < length (Dec.layer_modules self) /\
                    torch.index0 context (Z.of_nat (length calls)) = Raise e
       end.
Proof.
  intros He.
  destruct (dec_forward_loop self context mt ms pmt pms (Dec.layer_modules self)
              0 emb None w1)
    as (calls & g & r & Hrun & Hlayers & Hchain & Hcalls & Hres).
  exists calls, g, r. cbv zeta.
  split; [|split; [exact Hlayers|split; [exact Hchain|split; [exact Hcalls|exact Hres]]]].
  unfold Dec.forward. unfold mbind at 1, M_bind at 1. rewrite He.
  unfold mbind at 1, M_bind at 1. rewrite Hrun.
  destruct r as [[output coverage]|e]; reflexivity.
Qed.

Lemma dec_forward_embed_fails (self : Dec.t) (input : LongTensor) (context : Tensor)
    (src : LongTensor) (w w1 : world) (e : exn) :
  Dec.embed self input src w = (w1, Raise e) ->
  Dec.forward self input context src false w = (w1, Raise e).
Proof.
  intros He. unfold Dec.forward. unfold mbind at 1, M_bind at 1. now rewrite He.
Qed.

Lemma dec_finish_emits (Q : event -> Prop) (self : Dec.t) (output : Tensor)
    (coverage : option Tensor) :
  emits Q (Dec.finish self output coverage).
Proof. unfold Dec.finish. repeat emits_step. Qed.

End DecoderFacts.

(** ** The memory bank *)

Section MemoryBank.
Context {TY : Types} {RT : Runtime TY}.



End MemoryBank.

(** ** The constructors *)

Section Constructors.
Context {TY : Types} {RT : Runtime TY}.

#[local] Arguments causal_mask : simpl never.

Lemma causal_mask_ok (n : Z) :
  (0 <= n)%Z ->
  causal_mask n = Ok (np.astype_uint8 (np.triu (np.ones (Z.to_nat n) (Z.to_nat n)) 1)).
Proof. intros H. unfold causal_mask. now destruct (Z.ltb_spec n 0); [lia|]. Qed.

Lemma build_layers {L} (new : Rng -> L * Rng) (xs : list Z) :
  forall (ls : list L) (w : world),
  exists g ls',
    for_each (fun (_ : Z) ls => layer ← draw new; mret (ls ++ [layer])) xs ls w
    = (mk_world g (recompute w) (trace w), Ok ls')
    /\ length ls' = length ls + length xs.
Proof.
  induction xs as [|x xs IH]; intros ls w.
  - exists (rng w), ls. cbn. split; [now destruct w|lia].
  - cbn [for_each]. unfold mbind at 1, M_bind at 1.
    unfold mbind at 1, M_bind at 1, draw at 1, mret at 1, M_ret at 1. cbn.
    destruct (IH (ls ++ [fst (new (rng w))])
                (mk_world (snd (new (rng w))) (recompute w) (trace w)))
      as (g & ls' & Hrun & Hlen).
    exists g, ls'. split; [exact Hrun|].
    rewrite Hlen, length_app. cbn. lia.
Qed.

Lemma range_length (n : Z) : length (range n) = Z.to_nat n.
Proof. unfold range. now rewrite length_map, length_seq. Qed.

Lemma new_time_transformer_unknown (time : string) (model_size : Z) (w : world) :
  time <> "positional_encoding" -> time <> "gru" -> time <> "lstm" ->
  new_time_transformer time model_size w = (w, Ok None).
Proof.
  intros H1 H2 H3. unfold new_time_transformer.
  now rewrite !bool_decide_eq_false_2 by assumption.
Qed.

Lemma new_time_transformer_run (time : string) (model_size : Z) (w : world) :
  exists g tt,
    new_time_transformer time model_size w
    = (mk_world g (recompute w) (trace w), Ok tt)
    /\ (time = "positional_encoding" -> tt = Some TM_positional)
    /\ (time = "gru" \/ time = "lstm" -> exists m, tt = Some (TM_GRU m) \/ tt = Some (TM_LSTM m)).
Proof.
  unfold new_time_transformer.
  destruct (bool_decide_reflect (time = "positional_encoding")) as [->|H1].
  { exists (rng w), (Some TM_positional). cbn. split; [now destruct w|].
    split; [reflexivity|]. now intros [|]. }
  destruct (bool_decide_reflect (time = "gru")) as [->|H2].
  { eexists _, _. cbn. split; [reflexivity|]. split; [easy|]. eauto. }
  destruct (bool_decide_reflect (time = "lstm")) as [->|H3].
  { eexists _, _. cbn. split; [reflexivity|]. split; [easy|]. eauto. }
  exists (rng w), None. cbn. split; [now destruct w|].
  split; [easy|]. now intros [|].
Qed.

(** The constructor of the table returns exactly when the table is
    [embeddable]. *)
Lemma new_Embedding_ok (n d pad : Z) (w : world) :
  embeddable n d pad ->
  new_Embedding n d pad w
  = (mk_world (Embedding_weight n d (padding_row n pad) (rng w)).2
       (recompute w) (trace w),
     Ok (mk_Embedding n d (padding_row n pad)
           (Embedding_weight n d (padding_row n pad) (rng w)).1)).
Proof.
  intros [Hpad Hd].
  assert (Hidx : Embedding_padding_idx n pad = Ok (padding_row n pad)).
  { unfold Embedding_padding_idx, padding_row.
    destruct (Z.ltb_spec 0 pad), (Z.ltb_spec pad 0), (Z.ltb_spec pad n),
      (Z.leb_spec (- n) pad); try lia; reflexivity. }
  assert (Hrow : (padding_row n pad <? n)%Z = true).
  { unfold padding_row. destruct (Z.ltb_spec pad 0); apply Z.ltb_lt; lia. }
  assert (Hsize : (n <? 0)%Z || (d <? 0)%Z = false).
  { destruct (Z.ltb_spec n 0), (Z.ltb_spec d 0); try lia; reflexivity. }
  unfold new_Embedding, mbind, M_bind, mret, M_ret, lift, raise, draw.
  rewrite Hidx, Hsize. cbn [fst snd rng recompute trace]. now rewrite Hrow.
Qed.

Lemma new_Embedding_fails (n d pad : Z) (w : world) :
  ~ embeddable n d pad ->
  exists g e,
    new_Embedding n d pad w = (mk_world g (recompute w) (trace w), Raise e)
    /\ (pad = 0%Z -> n = 0%Z -> (0 <= d)%Z -> e = IndexError).
Proof.
  intros Hno. unfold embeddable in Hno.
  unfold new_Embedding, Embedding_padding_idx.
  unfold mbind, M_bind, mret, M_ret, lift, raise, draw.
  destruct (Z.ltb_spec 0 pad) as [Hp|Hp].
  { destruct (Z.ltb_spec pad n) as [Hn|Hn].
    - destruct (Z.ltb_spec n 0), (Z.ltb_spec d 0); try lia.
      exists (rng w), RuntimeError. cbn. split; [now destruct w|lia].
    - exists (rng w), AssertionError. split; [now destruct w|lia]. }
  destruct (Z.ltb_spec pad 0) as [Hm|Hm].
  { destruct (Z.leb_spec (- n) pad) as [Hn|Hn].
    - destruct (Z.ltb_spec n 0), (Z.ltb_spec d 0); try lia.
      exists (rng w), RuntimeError. cbn. split; [now destruct w|lia].
    - exists (rng w), AssertionError. split; [now destruct w|lia]. }
  assert (pad = 0%Z) as -> by lia.
  destruct (Z.ltb_spec n 0), (Z.ltb_spec d 0); cbn [orb];
    try (exists (rng w), RuntimeError; split; [now destruct w|lia]).
  cbn [fst snd rng recompute trace]. destruct (Z.ltb_spec 0 n); [lia|].
  eexists _, IndexError. split; [reflexivity|easy].
Qed.

Lemma new_Embedding_world (n d pad : Z) (w w' : world) (r : result Embedding) :
  new_Embedding n d pad w = (w', r) ->
  recompute w' = recompute w /\ trace w' = trace w.
Proof.
  unfold new_Embedding, mbind, M_bind, mret, M_ret, lift, raise, draw.
  destruct (Embedding_padding_idx n pad) as [idx|e]; [|now intros [= <- _]].
  destruct ((n <? 0)%Z || (d <? 0)%Z); [now intros [= <- _]|].
  cbn. destruct (idx <? n)%Z; now intros [= <- _].
Qed.

(** The encoder's constructor returns for a dictionary that can be
    embedded, with as many layers as the options ask for and no
    pretrained boundary. *)
Lemma enc_init_spec (o : opt.t) (dicts_size : Z) (pe : option PositionalEncoding)
    (w : world) :
  embeddable dicts_size (opt.model_size o) PAD ->
  exists w' self,
    Enc.init o dicts_size pe w = (w', Ok self)
    /\ length (Enc.layer_modules self) = Z.to_nat (opt.layers o)
    /\ Enc.layers self = opt.layers o
    /\ Enc.positional_encoder self = pe
    /\ Enc.pretrained_point self = None
    /\ Enc.time self = opt.time o
    /\ (opt.time o = "positional_encoding" -> Enc.time_transformer self = Some TM_positional)
    /\ (opt.time o = "gru" \/ opt.time o = "lstm" ->
        exists m, Enc.time_transformer self = Some (TM_GRU m)
                  \/ Enc.time_transformer self = Some (TM_LSTM m))
    /\ (opt.time o <> "positional_encoding" -> opt.time o <> "gru" ->
        opt.time o <> "lstm" -> Enc.time_transformer self = None).
Proof.
  intros Hemb. unfold Enc.init, new_PrePostProcessing.
  unfold mbind at 1, M_bind at 1. rewrite (new_Embedding_ok _ _ _ _ Hemb).
  unfold mbind at 1, M_bind at 1.
  match goal with
  | |- context [new_time_transformer ?t ?m ?w0] =>
      pose proof (new_time_transformer_unknown t m w0) as Hunk;
      destruct (new_time_transformer_run t m w0) as (g & tt & Htt & Hpos & Hrnn)
  end.
  rewrite Htt.
  unfold mbind at 1, M_bind at 1. unfold mbind at 1, M_bind at 1. cbn.
  unfold mbind at 1, M_bind at 1. unfold mbind at 1, M_bind at 1. cbn.
  unfold mbind at 1, M_bind at 1.
  match goal with
  | |- context [for_each _ ?xs ?ls ?w0] =>
      destruct (build_layers
                  (ParallelEncoderLayer_new (opt.n_heads o) (opt.model_size o)
                     (opt.dropout o) (opt.inner_size o) (opt.attn_dropout o))
                  xs ls w0) as (g' & ls' & -> & Hlen)
  end.
  cbn. eexists _, _. split; [reflexivity|]. cbn.
  rewrite Hlen, range_length. cbn. repeat split; auto.
  intros H1 H2 H3. rewrite (Hunk H1 H2 H3) in Htt. now injection Htt as _ <-.
Qed.

(** Without a table the encoder's constructor raises what the table's
    does, at its first line. *)
Lemma enc_init_fails (o : opt.t) (dicts_size : Z) (pe : option PositionalEncoding)
    (w : world) :
  ~ embeddable dicts_size (opt.model_size o) PAD ->
  exists w' e,
    Enc.init o dicts_size pe w = (w', Raise e)
    /\ (PAD = 0%Z -> dicts_size = 0%Z -> (0 <= opt.model_size o)%Z -> e = IndexError).
Proof.
  intros Hno. destruct (new_Embedding_fails _ _ _ w Hno) as (g & e & Hrun & He).
  unfold Enc.init. unfold mbind at 1, M_bind at 1. rewrite Hrun.
  eexists _, e. split; [reflexivity|exact He].
Qed.

Lemma embeddable_dec (n d pad : Z) : embeddable n d pad \/ ~ embeddable n d pad.
Proof. unfold embeddable. lia. Qed.

(** A constructor that returned was given a dictionary that can be
    embedded. *)
Lemma enc_init_embeddable (o : opt.t) (dicts_size : Z)
    (pe : option PositionalEncoding) (w w' : world) (self : Enc.t) :
  Enc.init o dicts_size pe w = (w', Ok self) ->
  embeddable dicts_size (opt.model_size o) PAD.
Proof.
  intros H. destruct (embeddable_dec dicts_size (opt.model_size o) PAD) as [|Hno];
    [assumption|].
  destruct (enc_init_fails o dicts_size pe w Hno) as (w1 & e & Hf & _).
  rewrite Hf in H. discriminate.
Qed.

(** The decoder's constructor returns when it is given a dictionary that
    can be embedded and a positional encoder of a maximum length that is
    not negative. *)
Lemma dec_init_spec (o : opt.t) (dicts_size : Z) (pe : PositionalEncoding) (w : world) :
  embeddable dicts_size (opt.model_size o) PAD ->
  (0 <= len_max pe)%Z ->
  exists w' self,
    Dec.init o dicts_size (Some pe) w = (w', Ok self)
    /\ length (Dec.layer_modules self) = Z.to_nat (opt.layers o)
    /\ Dec.layers self = opt.layers o
    /\ Dec.positional_encoder self = Some pe
    /\ Dec.pretrained_point self = None
    /\ causal_mask (len_max pe) = Ok (Dec.mask self)
    /\ (Qeq_bool (opt.version o) 1 = true -> is_Some (Dec.postprocess_layer self)).
Proof.
  intros Hemb Hlen_max.
  unfold Dec.init, new_PrePostProcessing.
  unfold mbind at 1, M_bind at 1.
  match goal with
  | |- context [new_time_transformer ?t ?m ?w0] =>
      destruct (new_time_transformer_run t m w0) as (g & tt & -> & Hpos & Hrnn)
  end.
  unfold mbind at 1, M_bind at 1. unfold mbind at 1, M_bind at 1. cbn.
  unfold mbind at 1, M_bind at 1.
  assert (Hpost : exists g1 post,
             (if Qeq_bool (opt.version o) 1
              then pp ← (sd ← draw (PrePostProcessing_state (opt.model_size o) 0 "n" None);
                         mret (mk_PrePostProcessing (opt.model_size o) 0 "n" None sd));
                   mret (Some pp)
              else mret None)
               (mk_world (snd (PrePostProcessing_state (opt.model_size o)
                                 (opt.emb_dropout o) "d" (Some false) g))
                  (recompute w) (trace w))
             = (mk_world g1 (recompute w) (trace w), Ok post)
             /\ (Qeq_bool (opt.version o) 1 = true -> is_Some post)).
  { destruct (Qeq_bool (opt.version o) 1); eexists _, _; cbn;
      (split; [reflexivity|]); [eauto|discriminate]. }
  destruct Hpost as (g1 & post & -> & Hsome).
  unfold mbind at 1, M_bind at 1. rewrite (new_Embedding_ok _ _ _ _ Hemb).
  unfold mbind at 1, M_bind at 1.
  match goal with
  | |- context [for_each _ ?xs ?ls ?w0] =>
      destruct (build_layers
                  (DecoderLayer_new (opt.n_heads o) (opt.model_size o)
                     (opt.dropout o) (opt.inner_size o) (opt.attn_dropout o))
                  xs ls w0) as (g' & ls' & -> & Hlen)
  end.
  unfold getattr, lift, mbind, M_bind, mret, M_ret. cbv beta iota.
  rewrite (causal_mask_ok _ Hlen_max).
  eexists _, _. split; [reflexivity|]. cbn [Dec.layer_modules Dec.layers
    Dec.positional_encoder Dec.pretrained_point Dec.mask Dec.postprocess_layer].
  rewrite Hlen, range_length. cbn [length]. repeat split; auto.
Qed.

(** The decoder's constructor up to the line that reads
    [positional_encoder.len_max]. *)
Lemma dec_init_run (o : opt.t) (dicts_size : Z) (pe : option PositionalEncoding)
    (w : world) :
  embeddable dicts_size (opt.model_size o) PAD ->
  exists g tt pp post wl ls,
    Dec.init o dicts_size pe w
    = (p ← getattr pe;
       mask ← lift (causal_mask (len_max p));
       mret (Dec.mk (opt.model_size o) (opt.n_heads o) (opt.inner_size o)
               (opt.layers o) (opt.dropout o) (opt.word_dropout o)
               (opt.attn_dropout o) (opt.emb_dropout o) (opt.time o) (opt.version o)
               tt pp post wl pe ls mask None None true))
        (mk_world g (recompute w) (trace w))
    /\ length ls = Z.to_nat (opt.layers o)
    /\ (Qeq_bool (opt.version o) 1 = true -> is_Some post)
    /\ (Qeq_bool (opt.version o) 1 = false -> post = None).
Proof.
  intros Hemb. unfold Dec.init, new_PrePostProcessing.
  unfold mbind at 1, M_bind at 1.
  match goal with
  | |- context [new_time_transformer ?t ?m ?w0] =>
      destruct (new_time_transformer_run t m w0) as (g & tt & -> & _ & _)
  end.
  unfold mbind at 1, M_bind at 1. unfold mbind at 1, M_bind at 1. cbn.
  unfold mbind at 1, M_bind at 1.
  assert (Hpost : exists g1 post,
             (if Qeq_bool (opt.version o) 1
              then pp ← (sd ← draw (PrePostProcessing_state (opt.model_size o) 0 "n" None);
                         mret (mk_PrePostProcessing (opt.model_size o) 0 "n" None sd));
                   mret (Some pp)
              else mret None)
               (mk_world (snd (PrePostProcessing_state (opt.model_size o)
                                 (opt.emb_dropout o) "d" (Some false) g))
                  (recompute w) (trace w))
             = (mk_world g1 (recompute w) (trace w), Ok post)
             /\ (Qeq_bool (opt.version o) 1 = true -> is_Some post)
             /\ (Qeq_bool (opt.version o) 1 = false -> post = None)).
  { destruct (Qeq_bool (opt.version o) 1); eexists _, _; cbn;
      (split; [reflexivity|]); split; eauto; discriminate. }
  destruct Hpost as (g1 & post & -> & Hsome & Hnone).
  unfold mbind at 1, M_bind at 1. rewrite (new_Embedding_ok _ _ _ _ Hemb).
  unfold mbind at 1, M_bind at 1.
  match goal with
  | |- context [for_each _ ?xs ?ls ?w0] =>
      destruct (build_layers
                  (DecoderLayer_new (opt.n_heads o) (opt.model_size o)
                     (opt.dropout o) (opt.inner_size o) (opt.attn_dropout o))
                  xs ls w0) as (g' & ls' & -> & Hlen)
  end.
  eexists g', tt, _, post, _, ls'. split; [reflexivity|].
  rewrite Hlen, range_length. cbn [length]. repeat split; assumption.
Qed.

(** Without a table the decoder's constructor raises what the table's
    does, whatever the positional encoder. *)
Lemma dec_init_fails (o : opt.t) (dicts_size : Z) (pe : option PositionalEncoding)
    (w : world) :
  ~ embeddable dicts_size (opt.model_size o) PAD ->
  exists w' e,
    Dec.init o dicts_size pe w = (w', Raise e)
    /\ (PAD = 0%Z -> dicts_size = 0%Z -> (0 <= opt.model_size o)%Z -> e = IndexError).
Proof.
  intros Hno. unfold Dec.init, new_PrePostProcessing.
  unfold mbind at 1, M_bind at 1.
  match goal with
  | |- context [new_time_transformer ?t ?m ?w0] =>
      destruct (new_time_transformer_run t m w0) as (g & tt & -> & _ & _)
  end.
  unfold mbind at 1, M_bind at 1. unfold mbind at 1, M_bind at 1. cbn.
  unfold mbind at 1, M_bind at 1.
  destruct (Qeq_bool (opt.version o) 1);
    unfold mbind, M_bind, mret, M_ret, draw; cbn [fst snd];
    match goal with
    | |- context [new_Embedding ?n ?d ?pad ?w1] =>
        destruct (new_Embedding_fails n d pad w1 Hno) as (g1 & e & -> & He)
    end; now eexists _, e.
Qed.

Lemma dec_init_embeddable (o : opt.t) (dicts_size : Z)
    (pe : option PositionalEncoding) (w w' : world) (self : Dec.t) :
  Dec.init o dicts_size pe w = (w', Ok self) ->
  embeddable dicts_size (opt.model_size o) PAD.
Proof.
  intros H. destruct (embeddable_dec dicts_size (opt.model_size o) PAD) as [|Hno];
    [assumption|].
  destruct (dec_init_fails o dicts_size pe w Hno) as (w1 & e & Hf & _).
  rewrite Hf in H. discriminate.
Qed.

End Constructors.

(** ** The layer calls of a forward, whatever its outcome *)

Section LayerCalls.
Context {TY : Types} {RT : Runtime TY}.

Lemma nothing_emitted (evs : list event) : Forall (fun _ => False) evs -> evs = [].
Proof. destruct 1; [reflexivity|contradiction]. Qed.

Lemma decision_iff (training : bool) (n i : nat) :
  ((Z.of_nat n - Z.of_nat i <=? checkpointing)%Z && training) || false = true
  <-> checkpointed training n i.
Proof.
  unfold checkpointed. rewrite orb_false_r, andb_true_iff, Z.leb_le. tauto.
Qed.

Lemma enc_forward_calls (self : Enc.t) (input : LongTensor) (w : world) :
  exists calls,
    encoder_calls (trace (Enc.forward self input false w).1)
    = encoder_calls (trace w) ++ calls
    /\ map ec_layer calls = take (length calls) (Enc.layer_modules self)
    /\ (is_ok (Enc.forward self input false w).2 = true ->
        length calls = length (Enc.layer_modules self))
    /\ (forall i c, calls !! i = Some c ->
          ec_recompute c
          = ((Z.of_nat (length (Enc.layer_modules self)) - Z.of_nat i
              <=? checkpointing)%Z && Enc.training self) || recompute w).
Proof.
  destruct (Enc.embed self input w) as [w1 [[[emb ms] pm]|e]] eqn:He;
    destruct (enc_embed_emits self input _ _ _ He) as (Hrec & evs & Htr & Hevs);
    destruct (only_time_calls evs Hevs) as (Henc & _ & _).
  - destruct (enc_forward_run self input w w1 emb ms pm He)
      as (calls & g & Hrun & Hlayers & _ & _ & Hflags).
    cbv zeta in Hrun. exists calls. rewrite Hrun. cbn [fst snd trace].
    assert (Hlen : length calls = length (Enc.layer_modules self))
      by now rewrite <- Hlayers, length_map.
    split; [|split; [|split]].
    + rewrite Htr, !encoder_calls_app, Henc, encoder_calls_map.
      now rewrite app_nil_r.
    + now rewrite Hlen, firstn_all.
    + intros _. exact Hlen.
    + intros i c Hi. rewrite (Hflags i c Hi). now rewrite Hrec.
  - rewrite (enc_forward_embed_fails self input w w1 e He). exists [].
    cbn [fst snd trace is_ok length]. split; [|split; [|split]].
    + now rewrite Htr, encoder_calls_app, Henc.
    + reflexivity.
    + discriminate.
    + intros i c H. now rewrite lookup_nil in H.
Qed.

Lemma dec_forward_calls (self : Dec.t) (input : LongTensor) (context : Tensor)
    (src : LongTensor) (w : world) :
  exists calls,
    decoder_calls (trace (Dec.forward self input context src false w).1)
    = decoder_calls (trace w) ++ calls
    /\ map dc_layer calls = take (length calls) (Dec.layer_modules self)
    /\ (is_ok (Dec.forward self input context src false w).2 = true ->
        length calls = length (Dec.layer_modules self))
    /\ (forall i c, calls !! i = Some c ->
          torch.index0 context (Z.of_nat i) = Ok (dc_memory c) /\
          dc_recompute c
          = ((Z.of_nat (length (Dec.layer_modules self)) - Z.of_nat i
              <=? checkpointing)%Z && Dec.training self) || recompute w).
Proof.
  destruct (Dec.embed self input src w) as [w1 [[[[[emb ms] mt] pmt] pms]|e]] eqn:He;
    destruct (dec_embed_emits self input src _ _ _ He) as (Hrec & evs & Htr & Hevs);
    destruct (only_time_calls evs Hevs) as (_ & Hdec & _).
  - destruct (dec_forward_run self input context src w w1 emb ms mt pmt pms He)
      as (calls & g & r & Hrun & Hlayers & _ & Hcalls & Hres).
    cbv zeta in Hrun. exists calls. rewrite Hrun.
    assert (Htrace : forall w2 x,
               (match r with
                | Ok (output, coverage) => Dec.finish self output coverage w2
                | Raise e => (w2, Raise e)
                end) = x -> trace x.1 = trace w2).
    { intros w2 x <-. destruct r as [[output coverage]|e]; [|reflexivity].
      destruct (Dec.finish self output coverage w2) as [w3 r3] eqn:Hf.
      destruct (dec_finish_emits (fun _ => False) self output coverage _ _ _ Hf)
        as (_ & evs' & Htr' & Hnone).
      rewrite (nothing_emitted _ Hnone), app_nil_r in Htr'. exact Htr'. }
    split; [|split; [|split]].
    + rewrite (Htrace _ _ eq_refl). cbn [trace].
      rewrite Htr, !decoder_calls_app, Hdec, decoder_calls_map.
      now rewrite app_nil_r.
    + exact Hlayers.
    + destruct r as [[output coverage]|e]; [intros _; apply Hres|discriminate].
    + intros i c Hi. destruct (Hcalls i c Hi) as [Hm Hf].
      split; [exact Hm|]. rewrite Hf. now rewrite Hrec.
  - rewrite (dec_forward_embed_fails self input context src w w1 e He). exists [].
    cbn [fst snd trace is_ok length]. split; [|split; [|split]].
    + now rewrite Htr, decoder_calls_app, Hdec.
    + reflexivity.
    + discriminate.
    + intros i c H. now rewrite lookup_nil in H.
Qed.

End LayerCalls.

(** ** The decoder against the length of the memory bank *)

Section BankLength.
Context {TY : Types} {RT : Runtime TY}.

Lemma index0_raises {A} (t : tensor A) (z : Z) (e : exn) :
  torch.index0 t z = Raise e -> e = IndexError.
Proof.
  unfold torch.index0. destruct (shape t); [now intros [= <-]|].
  destruct (_ && _); [discriminate|now intros [= <-]].
Qed.

(** A memory bank shorter than the decoder is deep: IndexError. *)
Lemma dec_forward_short_bank (self : Dec.t) (input : LongTensor) (context : Tensor)
    (src : LongTensor) (w : world) (n : nat) :
  torch.size context 0 = Ok n ->
  n < length (Dec.layer_modules self) ->
  is_ok (Dec.forward self input context src false w).2 = false
  /\ (is_ok (Dec.embed self input src w).2 = true ->
      (Dec.forward self input context src false w).2 = Raise IndexError).
Proof.
  intros Hn Hlt.
  destruct (Dec.embed self input src w) as [w1 [[[[[emb ms] mt] pmt] pms]|e]] eqn:He.
  - destruct (dec_forward_run self input context src w w1 emb ms mt pmt pms He)
      as (calls & g & r & Hrun & _ & _ & Hcalls & Hres).
    cbv zeta in Hrun. rewrite Hrun. destruct r as [[output coverage]|e].
    + exfalso. destruct Hres as [Hlen _].
      destruct (lookup_lt_is_Some_2 calls n) as [c Hc]; [lia|].
      destruct (Hcalls n c Hc) as [Hidx _].
      rewrite (index0_out_of_range context n n Hn) in Hidx; [discriminate|lia].
    + destruct Hres as [_ Hfail]. apply index0_raises in Hfail. subst e.
      cbn. split; [reflexivity|intros _; reflexivity].
  - rewrite (dec_forward_embed_fails self input context src w w1 e He).
    cbn. split; [reflexivity|discriminate].
Qed.

(** A memory bank at least as long as the decoder is deep: the forward
    returns, and reads only the entries below its layer count. *)
Lemma dec_forward_long_bank (self : Dec.t) (input : LongTensor) (context : Tensor)
    (src : LongTensor) (w : world) (n : nat) :
  torch.size context 0 = Ok n ->
  length (Dec.layer_modules self) <= n ->
  1 <= length (Dec.layer_modules self) ->
  is_Some (Dec.postprocess_layer self) ->
  is_ok (Dec.embed self input src w).2 = true ->
  is_ok (Dec.forward self input context src false w).2 = true.
Proof.
  intros Hn Hle Hpos [post Hpost] Hemb.
  destruct (Dec.embed self input src w) as [w1 [[[[[emb ms] mt] pmt] pms]|e]] eqn:He;
    [|discriminate].
  destruct (dec_forward_run self input context src w w1 emb ms mt pmt pms He)
    as (calls & g & r & Hrun & _ & _ & Hcalls & Hres).
  cbv zeta in Hrun. rewrite Hrun. destruct r as [[output coverage]|e].
  - destruct Hres as [Hlen [= -> ->]].
    destruct (dec_coverage_bound None calls) as [cov Hcov].
    { destruct calls; [cbn in Hlen; lia|discriminate]. }
    unfold Dec.finish. rewrite Hpost, Hcov. reflexivity.
  - exfalso. destruct Hres as [Hlen Hfail].
    destruct (index0_in_range context n (length calls) Hn) as [x Hx]; [lia|].
    rewrite Hx in Hfail. discriminate.
Qed.

Lemma index0_ok_lt {A} (t : tensor A) (n j : nat) (x : tensor A) :
  torch.size t 0 = Ok n -> torch.index0 t (Z.of_nat j) = Ok x -> j < n.
Proof.
  intros Hn Hx. destruct (Nat.lt_ge_cases j n) as [|Hge]; [assumption|].
  rewrite (index0_out_of_range t n j Hn Hge) in Hx. discriminate.
Qed.

(** Once the lines before the loop went through, a decoder given a
    memory bank of [n] slices calls its first [min n N] layers, and
    raises IndexError at layer [n] when it has more. *)
Lemma dec_forward_calls_count (self : Dec.t) (input : LongTensor) (context : Tensor)
    (src : LongTensor) (w w1 : world)
    (x : Tensor * ByteTensor * ByteTensor * ByteTensor * ByteTensor) (n : nat) :
  Dec.embed self input src w = (w1, Ok x) ->
  torch.size context 0 = Ok n ->
  exists calls,
    decoder_calls (trace (Dec.forward self input context src false w).1)
    = decoder_calls (trace w) ++ calls
    /\ length calls = n `min` length (Dec.layer_modules self)
    /\ map dc_layer calls = take (n `min` length (Dec.layer_modules self))
                              (Dec.layer_modules self)
    /\ (forall i c, calls !! i = Some c ->
          torch.index0 context (Z.of_nat i) = Ok (dc_memory c))
    /\ (n < length (Dec.layer_modules self) ->
        (Dec.forward self input context src false w).2 = Raise IndexError).
Proof.
  intros He Hn. destruct x as [[[[emb ms] mt] pmt] pms].
  destruct (dec_embed_emits self input src _ _ _ He) as (Hrec & evs & Htr & Hevs).
  destruct (only_time_calls evs Hevs) as (_ & Hdec & _).
  destruct (dec_forward_run self input context src w w1 emb ms mt pmt pms He)
    as (calls & g & r & Hrun & Hlayers & _ & Hcalls & Hres).
  cbv zeta in Hrun. exists calls. rewrite Hrun.
  assert (Hbelow : length calls <= n).
  { destruct (length calls) as [|m] eqn:Hm; [lia|].
    destruct (lookup_lt_is_Some_2 calls m) as [c Hc]; [lia|].
    destruct (Hcalls m c Hc) as [Hidx _].
    pose proof (index0_ok_lt context n m _ Hn Hidx). lia. }
  assert (Hcount : length calls = n `min` length (Dec.layer_modules self)).
  { destruct r as [[output coverage]|e].
    - destruct Hres as [Hlen _]. lia.
    - destruct Hres as [Hlen Hfail].
      destruct (Nat.lt_ge_cases (length calls) n) as [Hlt|Hge]; [|lia].
      destruct (index0_in_range context n (length calls) Hn Hlt) as [y Hy].
      rewrite Hy in Hfail. discriminate. }
  split; [|split; [exact Hcount|split; [now rewrite <- Hcount|split]]].
  - assert (Htrace : forall w2,
               trace (match r with
                      | Ok (output, coverage) => Dec.finish self output coverage w2
                      | Raise e => (w2, Raise e)
                      end).1 = trace w2).
    { intros w2. destruct r as [[output coverage]|e]; [|reflexivity].
      destruct (Dec.finish self output coverage w2) as [w3 r3] eqn:Hf.
      destruct (dec_finish_emits (fun _ => False) self output coverage _ _ _ Hf)
        as (_ & evs' & Htr' & Hnone).
      rewrite (nothing_emitted _ Hnone), app_nil_r in Htr'. exact Htr'. }
    rewrite Htrace. cbn [trace].
    rewrite Htr, !decoder_calls_app, Hdec, decoder_calls_map.
    now rewrite app_nil_r.
  - intros i c Hi. apply (Hcalls i c Hi).
  - intros Hlt. destruct r as [[output coverage]|e].
    + destruct Hres as [Hlen _]. lia.
    + destruct Hres as [_ Hfail]. apply index0_raises in Hfail. now subst e.
Qed.

(** The loop reads the slices of the memory bank below the layer count
    and no other. *)
Lemma dec_forward_loop_reads (self : Dec.t) (context context' : Tensor)
    (mt ms pmt pms : ByteTensor) (ls : list DecoderLayer) :
  forall (i : nat) (st : Tensor * option Tensor) (w : world),
  (forall k, k < length ls ->
     torch.index0 context' (Z.of_nat (i + k)) = torch.index0 context (Z.of_nat (i + k))) ->
  for_enumerate (Dec.forward_body self context' mt ms pmt pms) i ls st w
  = for_enumerate (Dec.forward_body self context mt ms pmt pms) i ls st w.
Proof.
  induction ls as [|layer ls IH]; intros i [output cov] w Hsame; [reflexivity|].
  cbn [for_enumerate]. unfold mbind, M_bind.
  rewrite !dec_forward_body_run.
  pose proof (Hsame 0 ltac:(cbn; lia)) as H0. rewrite Nat.add_0_r in H0. rewrite H0.
  destruct (torch.index0 context (Z.of_nat i)) as [memory|e]; [|reflexivity].
  cbv zeta. apply IH. intros k Hk.
  replace (S i + k) with (i + S k) by lia. apply Hsame. cbn. lia.
Qed.

Lemma dec_forward_reads (self : Dec.t) (input : LongTensor) (context context' : Tensor)
    (src : LongTensor) (w : world) :
  (forall i, i < length (Dec.layer_modules self) ->
     torch.index0 context' (Z.of_nat i) = torch.index0 context (Z.of_nat i)) ->
  Dec.forward self input context' src false w
  = Dec.forward self input context src false w.
Proof.
  intros Hsame. unfold Dec.forward. unfold mbind at 1 3, M_bind at 1 3.
  destruct (Dec.embed self input src w) as [w1 [[[[[emb ms] mt] pmt] pms]|e]];
    [|reflexivity].
  unfold mbind at 1 2, M_bind at 1 2.
  now rewrite (dec_forward_loop_reads self context context' mt ms pmt pms
                 (Dec.layer_modules self) 0 (emb, None) w1 Hsame).
Qed.

(** Once the lines before the loop went through, every layer of an
    encoder is called. *)
Lemma enc_forward_calls_count (self : Enc.t) (input : LongTensor) (w w1 : world)
    (x : Tensor * ByteTensor * ByteTensor) (calls : list enc_call) :
  Enc.embed self input w = (w1, Ok x) ->
  encoder_calls (trace (Enc.forward self input false w).1)
  = encoder_calls (trace w) ++ calls ->
  length calls = length (Enc.layer_modules self).
Proof.
  intros He Htr. destruct x as [[emb ms] pm].
  destruct (enc_embed_emits self input _ _ _ He) as (_ & evs & Htr1 & Hevs).
  destruct (only_time_calls evs Hevs) as (Henc & _ & _).
  destruct (enc_forward_run self input w w1 emb ms pm He)
    as (calls' & g & Hrun & Hlayers & _).
  cbv zeta in Hrun. rewrite Hrun in Htr. cbn [fst trace] in Htr.
  rewrite Htr1, !encoder_calls_app, Henc, encoder_calls_map, app_nil_r in Htr.
  apply app_inv_head in Htr. subst calls'.
  now rewrite <- Hlayers, length_map.
Qed.

(** What an encoder returns has as many slices as the encoder has layers,
    when it has at least one. *)
Lemma enc_forward_size (self : Enc.t) (input : LongTensor) (w w' : world)
    (memory_bank : Tensor) (mask_src : ByteTensor) :
  1 <= length (Enc.layer_modules self) ->
  Enc.forward self input false w = (w', Ok (memory_bank, mask_src)) ->
  torch.size memory_bank 0 = Ok (length (Enc.layer_modules self)).
Proof.
  intros HN Hf.
  destruct (Enc.embed self input w) as [w1 [[[emb ms] pm]|e]] eqn:He.
  - destruct (enc_forward_run self input w w1 emb ms pm He)
      as (calls & g & Hrun & Hlayers & _).
    cbv zeta in Hrun. rewrite Hrun in Hf.
    match type of Hf with
    | context [torch.stack ?bank] =>
        destruct (torch.stack bank) as [mb|e] eqn:Hst; [|discriminate];
        apply stack_size in Hst
    end.
    injection Hf as _ <- _. rewrite Hst.
    rewrite length_app, length_map, length_drop. cbn [length].
    rewrite <- Hlayers, length_map in HN |- *. f_equal. lia.
  - rewrite (enc_forward_embed_fails self input w w1 e He) in Hf. discriminate.
Qed.

End BankLength.

(** ** Growth *)

Section Growth.
Context {TY : Types} {RT : Runtime TY}.

Lemma bind_ok {A B} (m : M A) (f : A -> M B) (w w' : world) (b : B) :
  (m ≫= f) w = (w', Ok b) ->
  exists w1 a, m w = (w1, Ok a) /\ f a w1 = (w', Ok b).
Proof.
  unfold mbind, M_bind. destruct (m w) as [w1 [a|e]]; [|discriminate].
  intros H. now exists w1, a.
Qed.

Lemma range_positive (n : Z) :
  (1 <= n)%Z ->
  range n = 0%Z :: map Z.of_nat (seq 1 (Z.to_nat n - 1)).
Proof.
  intros H. unfold range.
  replace (Z.to_nat n) with (S (Z.to_nat n - 1)) at 1 by lia. reflexivity.
Qed.

Lemma later_indices (k m : nat) :
  1 <= k -> Forall (fun z => (z =? 0)%Z = false) (map Z.of_nat (seq k m)).
Proof.
  intros Hk. apply Forall_forall. intros z Hz.
  apply list_elem_of_In, in_map_iff in Hz. destruct Hz as (x & <- & Hx).
  apply in_seq in Hx. apply Z.eqb_neq. lia.
Qed.

(** The turns after the first append a new layer and nothing else. *)
Lemma enc_add_later (xs : list Z) :
  Forall (fun z => (z =? 0)%Z = false) xs ->
  forall (self : Enc.t) (w : world),
  exists g rest,
    for_each Enc.add_layers_body xs self w
    = (mk_world g (recompute w) (trace w),
       Ok (Enc.set_layer_modules self (Enc.layer_modules self ++ rest)))
    /\ length rest = length xs.
Proof.
  induction 1 as [|x xs Hx _ IH]; intros self w.
  - exists (rng w), []. cbn. rewrite app_nil_r. split; [|reflexivity].
    now destruct self, w.
  - cbn [for_each]. unfold mbind at 1, M_bind at 1.
    unfold Enc.add_layers_body at 1. rewrite Hx.
    unfold Enc.new_layer, mbind, M_bind, mret, M_ret, draw. cbn.
    match goal with
    | |- context [for_each _ xs ?s ?w0] => destruct (IH s w0) as (g & rest & -> & Hlen)
    end.
    cbn. eexists g, (_ :: rest). rewrite <- app_assoc. cbn.
    split; [reflexivity|]. cbn. now rewrite Hlen.
Qed.

Lemma dec_add_later (xs : list Z) :
  Forall (fun z => (z =? 0)%Z = false) xs ->
  forall (self : Dec.t) (w : world),
  exists g rest,
    for_each Dec.add_layers_body xs self w
    = (mk_world g (recompute w) (trace w),
       Ok (Dec.set_layer_modules self (Dec.layer_modules self ++ rest)))
    /\ length rest = length xs.
Proof.
  induction 1 as [|x xs Hx _ IH]; intros self w.
  - exists (rng w), []. cbn. rewrite app_nil_r. split; [|reflexivity].
    now destruct self, w.
  - cbn [for_each]. unfold mbind at 1, M_bind at 1.
    unfold Dec.add_layers_body at 1. rewrite Hx.
    unfold Dec.new_layer, mbind, M_bind, mret, M_ret, draw. cbn.
    match goal with
    | |- context [for_each _ xs ?s ?w0] => destruct (IH s w0) as (g & rest & -> & Hlen)
    end.
    cbn. eexists g, (_ :: rest). rewrite <- app_assoc. cbn.
    split; [reflexivity|]. cbn. now rewrite Hlen.
Qed.

(** [add_layers(n)] on an encoder, for [n >= 1]. *)
Lemma enc_add_layers_spec (self : Enc.t) (n : Z) (w : world) :
  (1 <= n)%Z ->
  exists (rest : list EncoderLayer) (w' : world) (self' : Enc.t),
    let built := ParallelEncoderLayer_new (Enc.n_heads self) (Enc.model_size self)
                   (Enc.dropout self) (Enc.inner_size self) (Enc.attn_dropout self)
                   (rng w) in
    let first := mk_EncoderLayer
                   (load_state_dict (enc_preprocess_attn built.1)
                      (state_dict (Enc.postprocess_layer self)))
                   (enc_rest built.1) in
    Enc.add_layers self n w = (w', Ok self')
    /\ Enc.layer_modules self' = Enc.layer_modules self ++ first :: rest
    /\ length rest = Z.to_nat n - 1
    /\ Enc.postprocess_layer self'
       = mk_PrePostProcessing (Enc.model_size self) 0 "n" None
           (PrePostProcessing_state (Enc.model_size self) 0 "n" None built.2).1
    /\ Enc.layers self' = (Enc.layers self + n)%Z
    /\ Enc.pretrained_point self' = Enc.pretrained_point self.
Proof.
  intros Hn. unfold Enc.add_layers. rewrite (range_positive n Hn).
  cbn [for_each]. unfold mbind at 1, M_bind at 1.
  unfold Enc.add_layers_body at 1, Enc.new_layer, new_PrePostProcessing.
  unfold mbind, M_bind, mret, M_ret, draw. cbn.
  match goal with
  | |- context [for_each _ ?xs ?s ?w0] =>
      destruct (enc_add_later xs (later_indices 1 _ (le_n 1)) s w0)
        as (g & rest & -> & Hlen)
  end.
  rewrite length_map, length_seq in Hlen.
  exists rest. eexists _, _. cbv zeta. split; [reflexivity|]. cbn.
  rewrite <- app_assoc. cbn. repeat split. exact Hlen.
Qed.

(** [add_layers(n)] on a decoder that has its post-processing unit, for
    [n >= 1]. *)
Lemma dec_add_layers_spec (self : Dec.t) (post : PrePostProcessing) (n : Z) (w : world) :
  (1 <= n)%Z ->
  Dec.postprocess_layer self = Some post ->
  exists (rest : list DecoderLayer) (w' : world) (self' : Dec.t),
    let built := DecoderLayer_new (Dec.n_heads self) (Dec.model_size self)
                   (Dec.dropout self) (Dec.inner_size self) (Dec.attn_dropout self)
                   (rng w) in
    let first := mk_DecoderLayer
                   (load_state_dict (dec_preprocess_attn built.1) (state_dict post))
                   (dec_rest built.1) in
    Dec.add_layers self n w = (w', Ok self')
    /\ Dec.layer_modules self' = Dec.layer_modules self ++ first :: rest
    /\ length rest = Z.to_nat n - 1
    /\ Dec.postprocess_layer self'
       = Some (mk_PrePostProcessing (Dec.model_size self) 0 "n" None
                 (PrePostProcessing_state (Dec.model_size self) 0 "n" None built.2).1)
    /\ Dec.layers self' = (Dec.layers self + n)%Z
    /\ Dec.pretrained_point self' = Dec.pretrained_point self.
Proof.
  intros Hn Hpost. unfold Dec.add_layers. rewrite (range_positive n Hn).
  cbn [for_each]. unfold mbind at 1, M_bind at 1.
  unfold Dec.add_layers_body at 1, Dec.new_layer, new_PrePostProcessing.
  unfold mbind, M_bind, mret, M_ret, draw, getattr. cbn. rewrite Hpost. cbn.
  match goal with
  | |- context [for_each _ ?xs ?s ?w0] =>
      destruct (dec_add_later xs (later_indices 1 _ (le_n 1)) s w0)
        as (g & rest & -> & Hlen)
  end.
  rewrite length_map, length_seq in Hlen.
  exists rest. eexists _, _. cbv zeta. split; [reflexivity|]. cbn.
  rewrite <- app_assoc. cbn. repeat split. exact Hlen.
Qed.

End Growth.

(** ** Stacks that were never marked as pretrained *)

Section Unmarked.
Context {TY : Types} {RT : Runtime TY}.

Lemma for_each_invariant {X St} (P : St -> Prop) (body : X -> St -> M St) :
  (forall x st w w' st', body x st w = (w', Ok st') -> P st -> P st') ->
  forall xs st w w' st', for_each body xs st w = (w', Ok st') -> P st -> P st'.
Proof.
  intros Hbody. induction xs as [|x xs IH]; intros st w w' st' Hrun Hst.
  - now injection Hrun as _ <-.
  - cbn [for_each] in Hrun. apply bind_ok in Hrun.
    destruct Hrun as (w1 & st1 & H1 & H2).
    exact (IH _ _ _ _ H2 (Hbody _ _ _ _ _ H1 Hst)).
Qed.

Lemma enc_add_layers_pretrained_point (self self' : Enc.t) (n : Z) (w w' : world) :
  Enc.add_layers self n w = (w', Ok self') ->
  Enc.pretrained_point self' = Enc.pretrained_point self.
Proof.
  unfold Enc.add_layers. intros H.
  apply (for_each_invariant
           (fun s => Enc.pretrained_point s = Enc.pretrained_point self)
           Enc.add_layers_body) in H; [exact H| |reflexivity].
  clear. intros i st w w' st' Hb Hst.
  unfold Enc.add_layers_body, Enc.new_layer, new_PrePostProcessing in Hb.
  destruct (i =? 0)%Z; unfold mbind, M_bind, mret, M_ret, draw in Hb; cbn in Hb;
    injection Hb as _ <-; exact Hst.
Qed.

Lemma dec_add_layers_pretrained_point (self self' : Dec.t) (n : Z) (w w' : world) :
  Dec.add_layers self n w = (w', Ok self') ->
  Dec.pretrained_point self' = Dec.pretrained_point self.
Proof.
  unfold Dec.add_layers. intros H.
  apply (for_each_invariant
           (fun s => Dec.pretrained_point s = Dec.pretrained_point self)
           Dec.add_layers_body) in H; [exact H| |reflexivity].
  clear. intros i st w w' st' Hb Hst.
  unfold Dec.add_layers_body, Dec.new_layer, new_PrePostProcessing in Hb.
  destruct (i =? 0)%Z; [destruct (Dec.postprocess_layer st) eqn:Hp|];
    unfold mbind, M_bind, mret, M_ret, draw, getattr in Hb; cbn in Hb;
    rewrite ?Hp in Hb; cbn in Hb; try discriminate;
    injection Hb as _ <-; exact Hst.
Qed.

Lemma dec_renew_buffer_pretrained_point (self self' : Dec.t) (new_len : Z)
    (w w' : world) :
  Dec.renew_buffer self new_len w = (w', Ok self') ->
  Dec.pretrained_point self' = Dec.pretrained_point self.
Proof.
  unfold Dec.renew_buffer. intros H.
  apply bind_ok in H. destruct H as (w1 & pe & _ & H).
  apply bind_ok in H. destruct H as (w2 & mask & _ & H).
  now injection H as _ <-.
Qed.

Lemma dec_init_pretrained_point (o : opt.t) (dicts_size : Z)
    (pe : option PositionalEncoding) (w w' : world) (self : Dec.t) :
  Dec.init o dicts_size pe w = (w', Ok self) -> Dec.pretrained_point self = None.
Proof.
  unfold Dec.init. intros H.
  repeat (apply bind_ok in H; destruct H as (? & ? & _ & H)).
  now injection H as _ <-.
Qed.

Lemma enc_init_pretrained_point (o : opt.t) (dicts_size : Z)
    (pe : option PositionalEncoding) (w w' : world) (self : Enc.t) :
  Enc.init o dicts_size pe w = (w', Ok self) -> Enc.pretrained_point self = None.
Proof.
  unfold Enc.init. intros H.
  repeat (apply bind_ok in H; destruct H as (? & ? & _ & H)).
  now injection H as _ <-.
Qed.

Lemma enc_unmarked_point (self : Enc.t) :
  enc_unmarked self -> Enc.pretrained_point self = None.
Proof.
  induction 1 as [o ds pe w w' self Hinit|self n w w' self' _ IH Hadd|self b _ IH].
  - exact (enc_init_pretrained_point _ _ _ _ _ _ Hinit).
  - now rewrite (enc_add_layers_pretrained_point _ _ _ _ _ Hadd).
  - exact IH.
Qed.

Lemma dec_unmarked_point (self : Dec.t) :
  dec_unmarked self -> Dec.pretrained_point self = None.
Proof.
  induction 1 as [o ds pe w w' self Hinit|self n w w' self' _ IH Hadd
                 |self n w w' self' _ IH Hre|self b _ IH].
  - exact (dec_init_pretrained_point _ _ _ _ _ _ Hinit).
  - now rewrite (dec_add_layers_pretrained_point _ _ _ _ _ Hadd).
  - now rewrite (dec_renew_buffer_pretrained_point _ _ _ _ _ Hre).
  - exact IH.
Qed.

(** Without a pretrained boundary the grow-mode forward raises at the
    first loop, before any layer ran. *)
Lemma enc_forward_grow_unbound (self : Enc.t) (input : LongTensor) (w : world) :
  Enc.pretrained_point self = None ->
  is_ok (Enc.forward self input true w).2 = false
  /\ encoder_calls (trace (Enc.forward self input true w).1) = encoder_calls (trace w)
  /\ (is_ok (Enc.embed self input w).2 = true ->
      (Enc.forward self input true w).2 = Raise AttributeError).
Proof.
  intros Hp.
  destruct (Enc.embed self input w) as [w1 [[[emb ms] pm]|e]] eqn:He;
    destruct (enc_embed_emits self input _ _ _ He) as (_ & evs & Htr & Hevs);
    destruct (only_time_calls evs Hevs) as (Henc & _ & _).
  - assert (Hf : Enc.forward self input true w = (w1, Raise AttributeError)).
    { unfold Enc.forward, Enc.forward_grow. unfold mbind at 1, M_bind at 1.
      rewrite He, Hp. reflexivity. }
    rewrite Hf. cbn. rewrite Htr, encoder_calls_app, Henc, app_nil_r. easy.
  - assert (Hf : Enc.forward self input true w = (w1, Raise e)).
    { unfold Enc.forward, Enc.forward_grow. unfold mbind at 1, M_bind at 1.
      now rewrite He. }
    rewrite Hf. cbn. rewrite Htr, encoder_calls_app, Henc, app_nil_r. easy.
Qed.

Lemma dec_forward_grow_unbound (self : Dec.t) (input : LongTensor) (context : Tensor)
    (src : LongTensor) (w : world) :
  Dec.pretrained_point self = None ->
  is_ok (Dec.forward self input context src true w).2 = false
  /\ decoder_calls (trace (Dec.forward self input context src true w).1)
     = decoder_calls (trace w)
  /\ (is_ok (Dec.embed self input src w).2 = true ->
      (Dec.forward self input context src true w).2 = Raise AttributeError).
Proof.
  intros Hp.
  destruct (Dec.embed self input src w) as [w1 [[[[[emb ms] mt] pmt] pms]|e]] eqn:He;
    destruct (dec_embed_emits self input src _ _ _ He) as (_ & evs & Htr & Hevs);
    destruct (only_time_calls evs Hevs) as (_ & Hdec & _).
  - assert (Hf : Dec.forward self input context src true w = (w1, Raise AttributeError)).
    { unfold Dec.forward, Dec.forward_grow. unfold mbind at 1, M_bind at 1.
      rewrite He, Hp. reflexivity. }
    rewrite Hf. cbn. rewrite Htr, decoder_calls_app, Hdec, app_nil_r. easy.
  - assert (Hf : Dec.forward self input context src true w = (w1, Raise e)).
    { unfold Dec.forward, Dec.forward_grow. unfold mbind at 1, M_bind at 1.
      now rewrite He. }
    rewrite Hf. cbn. rewrite Htr, decoder_calls_app, Hdec, app_nil_r. easy.
Qed.

End Unmarked.

(** ** The causal mask *)

Section CausalMask.
Context {TY : Types} {RT : Runtime TY}.

Lemma causal_mask_strictly_upper (n : Z) :
  (0 <= n)%Z ->
  exists mask, causal_mask n = Ok mask /\ strictly_upper (Z.to_nat n) mask.
Proof.
  intros Hn. rewrite (causal_mask_ok n Hn). eexists. split; [reflexivity|].
  set (L := Z.to_nat n). unfold strictly_upper. split; [|split].
  - apply triu_ones_shape.
  - unfold np.astype_uint8, torch.map_data, np.triu.
    cbn [shape np.ones torch.tabulate data].
    rewrite !length_map, length_seq. cbn [torch.numel fold_right]. lia.
  - intros i j Hi Hj. rewrite (triu_ones_get L i j Hi Hj).
    destruct (Nat.ltb_spec i j); split; split; intros; try lia; try reflexivity;
      discriminate.
Qed.

Lemma dec_renew_buffer_spec (self : Dec.t) (pe : PositionalEncoding) (new_len : Z)
    (w : world) :
  Dec.positional_encoder self = Some pe ->
  (0 <= new_len)%Z ->
  exists self',
    Dec.renew_buffer self new_len w = (w, Ok self')
    /\ causal_mask new_len = Ok (Dec.mask self')
    /\ Dec.positional_encoder self' = Some (PositionalEncoding_renew pe new_len)
    /\ Dec.layer_modules self' = Dec.layer_modules self.
Proof.
  intros Hpe Hn. unfold Dec.renew_buffer. rewrite Hpe.
  rewrite (causal_mask_ok new_len Hn).
  eexists. split; [reflexivity|]. repeat split.
Qed.

End CausalMask.

(** ** The incremental step *)

Section StepFacts.
Context {TY : Types} {RT : Runtime TY}.

(** One turn of the loop of [step] either raises and leaves the world as
    it was, or calls the layer's step once, on a query of length one. *)
Lemma step_body_cases (self : Dec.t) (context : Tensor) (mt ms : ByteTensor)
    (buffer : option (list Tensor)) (i : nat) (layer : DecoderLayer)
    (st : Tensor * option Tensor * list Tensor) (w : world) :
  (exists e, Dec.step_body self context mt ms buffer i layer st w = (w, Raise e))
  \/ (exists c g st',
        Dec.step_body self context mt ms buffer i layer st w
        = (mk_world g (recompute w) (trace w ++ [DecoderLayerStep c]), Ok st')
        /\ sc_layer c = layer
        /\ sc_query c = st.1.1
        /\ torch.size (sc_query c) 1 = Ok 1
        /\ torch.index0 context (Z.of_nat i) = Ok (sc_memory c)).
Proof.
  destruct st as [[output cov] ob]. unfold Dec.step_body, Dec.call_layer_step.
  unfold mbind, M_bind, mret, M_ret, lift, raise, log, draw.
  destruct buffer as [b|];
    [destruct (getitem b (Z.of_nat i)) as [x|e]; [|left; eauto]|];
    (destruct (torch.size output 1) as [s|e] eqn:Hs; [|left; eauto]);
    (destruct (Nat.eqb_spec s 1) as [->|Hne]; [|left; eauto]);
    (destruct (torch.index0 context (Z.of_nat i)) as [memory|e] eqn:Hi;
     [|left; eauto]);
    right; cbn;
    destruct (DecoderLayer_step _ _ _ _ _ _ _ _) as [[[out coverage] buffer_] g];
    eexists (mk_step_call layer output memory _), _, _;
    (split; [reflexivity|]); repeat split; assumption.
Qed.

(** The assertion: a query whose length is not one stops the step. *)
Lemma step_body_asserts (self : Dec.t) (context : Tensor) (mt ms : ByteTensor)
    (buffer : option (list Tensor)) (i : nat) (layer : DecoderLayer)
    (output : Tensor) (cov : option Tensor) (ob : list Tensor) (w : world) (s : nat) :
  torch.size output 1 = Ok s ->
  s <> 1 ->
  (buffer = None \/ exists b x, buffer = Some b /\ getitem b (Z.of_nat i) = Ok x) ->
  Dec.step_body self context mt ms buffer i layer (output, cov, ob) w
  = (w, Raise AssertionError).
Proof.
  intros Hs Hne Hbuf. unfold Dec.step_body.
  unfold mbind, M_bind, mret, M_ret, lift, raise.
  destruct Hbuf as [->|(b & x & -> & Hx)]; rewrite ?Hx, Hs;
    now destruct (Nat.eqb_spec s 1).
Qed.

Lemma dec_step_loop (self : Dec.t) (context : Tensor) (mt ms : ByteTensor)
    (buffer : option (list Tensor)) (ls : list DecoderLayer) :
  forall (i : nat) (st : Tensor * option Tensor * list Tensor) (w : world),
  exists calls g r,
    for_enumerate (Dec.step_body self context mt ms buffer) i ls st w
    = (mk_world g (recompute w) (trace w ++ map DecoderLayerStep calls), r)
    /\ map sc_layer calls = take (length calls) ls
    /\ Forall (fun c => torch.size (sc_query c) 1 = Ok 1) calls
    /\ (is_ok r = true -> length calls = length ls).
Proof.
  induction ls as [|layer ls IH]; intros i st w.
  - exists [], (rng w), (Ok st). cbn [for_enumerate map]. rewrite world_eta.
    repeat split. constructor.
  - cbn [for_enumerate]. unfold mbind at 1, M_bind at 1.
    destruct (step_body_cases self context mt ms buffer i layer st w)
      as [[e ->]|(c & g & st' & -> & Hl & _ & Hq & _)].
    + exists [], (rng w), (Raise e). cbn [map]. rewrite world_eta.
      repeat split; [constructor|discriminate].
    + destruct (IH (S i) st' (mk_world g (recompute w) (trace w ++ [DecoderLayerStep c])))
        as (calls & g' & r & Hrun & Hls & Hqs & Hlen).
      exists (c :: calls), g', r. rewrite Hrun. cbn [recompute trace map length].
      rewrite <- app_assoc. split; [reflexivity|]. split; [|split].
      * cbn. now rewrite Hl, Hls.
      * now constructor.
      * intros Hok. now rewrite (Hlen Hok).
Qed.

Lemma dec_step_time_emits (Q : event -> Prop) (self : Dec.t) (input : LongTensor)
    (emb : Tensor) (buffer : option (list Tensor)) :
  (forall args, Q (TimeTransformerCall (mk_time_call emb args))) ->
  emits Q (Dec.step_time self input emb buffer).
Proof.
  intros HQ. unfold Dec.step_time.
  repeat (first [apply emits_call_time_transformer; apply HQ | emits_step]).
Qed.

Lemma dec_step_prepare_emits (self : Dec.t) (input src : LongTensor)
    (buffer : option (list Tensor)) :
  emits is_time_call (Dec.step_prepare self input src buffer).
Proof.
  unfold Dec.step_prepare.
  repeat (first [ apply dec_step_time_emits; intros; exact I
                | apply dec_masks_emits | emits_step ]).
Qed.

Lemma dec_step_finish_emits (Q : event -> Prop) (self : Dec.t) (output : Tensor)
    (coverage : option Tensor) (ob : list Tensor) :
  emits Q (Dec.step_finish self output coverage ob).
Proof. unfold Dec.step_finish. repeat emits_step. Qed.

(** The layer steps of a whole [step]. *)
Lemma dec_step_calls (self : Dec.t) (input : LongTensor) (context : Tensor)
    (src : LongTensor) (buffer : option (list Tensor)) (w : world) :
  exists calls,
    step_calls (trace (Dec.step self input context src buffer w).1)
    = step_calls (trace w) ++ calls
    /\ map sc_layer calls = take (length calls) (Dec.layer_modules self)
    /\ (is_ok (Dec.step self input context src buffer w).2 = true ->
        length calls = length (Dec.layer_modules self))
    /\ Forall (fun c => torch.size (sc_query c) 1 = Ok 1) calls.
Proof.
  destruct (Dec.step_prepare self input src buffer w)
    as [w1 [[[[emb mt] ms] buffer']|e]] eqn:Hp;
    destruct (dec_step_prepare_emits self input src buffer _ _ _ Hp)
      as (_ & evs & Htr & Hevs);
    destruct (only_time_calls evs Hevs) as (_ & _ & Hstep).
  - destruct (dec_step_loop self context mt ms buffer' (Dec.layer_modules self)
                0 (emb, None, []) w1) as (calls & g & r & Hrun & Hls & Hqs & Hlen).
    assert (Hf : exists w3 r3,
               Dec.step self input context src buffer w = (w3, r3)
               /\ trace w3 = trace w1 ++ map DecoderLayerStep calls
               /\ (is_ok r3 = true -> is_ok r = true)).
    { unfold Dec.step. unfold mbind at 1, M_bind at 1. rewrite Hp.
      unfold mbind at 1, M_bind at 1. rewrite Hrun.
      destruct r as [[[output coverage] ob]|e]; [|eexists _, _; split; [reflexivity|easy]].
      destruct (Dec.step_finish self output coverage ob
                  (mk_world g (recompute w1) (trace w1 ++ map DecoderLayerStep calls)))
        as [w3 r3] eqn:Hfin.
      destruct (dec_step_finish_emits (fun _ => False) self output coverage ob _ _ _ Hfin)
        as (_ & evs' & Htr' & Hnone).
      rewrite (nothing_emitted _ Hnone), app_nil_r in Htr'.
      exists w3, r3. now split. }
    destruct Hf as (w3 & r3 & -> & Htr3 & Hok). exists calls. cbn [fst snd].
    split; [|split; [exact Hls|split; [|exact Hqs]]].
    + rewrite Htr3, Htr, !step_calls_app, Hstep, step_calls_map.
      now rewrite app_nil_r.
    + intros H3. apply Hlen, Hok, H3.
  - assert (Hf : Dec.step self input context src buffer w = (w1, Raise e)).
    { unfold Dec.step. unfold mbind at 1, M_bind at 1. now rewrite Hp. }
    rewrite Hf. exists []. cbn [fst snd is_ok length].
    split; [|split; [reflexivity|split; [discriminate|constructor]]].
    now rewrite Htr, step_calls_app, Hstep.
Qed.

(** [input[:, -1].unsqueeze(1)] has length one, and so has its embedding. *)
Lemma step_input_slice (e : Embedding) (model_size : Z) (input : LongTensor)
    (b l : nat) :
  shape input = [b; l] ->
  1 <= l ->
  exists last input_,
    torch.select1_last input = Ok last
    /\ torch.unsqueeze 1 last = Ok input_
    /\ shape input_ = [b; 1]
    /\ forall emb, Embedding_forward e input_ = Ok emb ->
         torch.size emb 1 = Ok 1 /\ torch.size (scale emb model_size) 1 = Ok 1.
Proof.
  intros Hs Hl. unfold torch.select1_last, torch.select1. rewrite Hs.
  destruct (Nat.eqb_spec l 0); [lia|].
  destruct (Nat.ltb_spec (l - 1) l); [|lia].
  eexists _, _. split; [reflexivity|]. split; [reflexivity|]. split; [reflexivity|].
  intros emb. unfold Embedding_forward. destruct (shape (weight e)) as [|V [|d [|]]];
    try discriminate.
  destruct (forallb _ _); [|discriminate]. intros [= <-]. split; reflexivity.
Qed.

(** Under a recurrent time encoding, [step] with a buffer calls the time
    transformer with [None] for the previous state. *)
Lemma dec_step_recurrent_emits (self : Dec.t) (input : LongTensor) (context : Tensor)
    (src : LongTensor) (b : list Tensor) :
  Dec.time self <> "positional_encoding" ->
  emits without_previous_state (Dec.step self input context src (Some b)).
Proof.
  intros Ht. unfold Dec.step, Dec.step_prepare, Dec.step_time.
  rewrite (bool_decide_eq_false_2 _ Ht). cbv beta iota.
  repeat (first [ apply emits_call_time_transformer; reflexivity
                | apply dec_masks_emits
                | apply dec_step_finish_emits
                | apply emits_for_enumerate; intros i layer [[output cov] ob];
                  unfold Dec.step_body, Dec.call_layer_step
                | apply emits_log; exact I
                | apply emits_bind_ret
                | emits_step ]).
Qed.

Lemma dec_step_recurrent_none (self : Dec.t) (input : LongTensor) (context : Tensor)
    (src : LongTensor) (w : world) :
  Dec.time self <> "positional_encoding" ->
  exists e, Dec.step self input context src None w = (w, Raise e).
Proof.
  intros Ht. unfold Dec.step, Dec.step_prepare, Dec.step_time.
  rewrite (bool_decide_eq_false_2 _ Ht).
  unfold mbind, M_bind, lift, raise.
  destruct (torch.size input 0); [|eauto].
  destruct (torch.select1_last input); [|eauto].
  destruct (torch.unsqueeze 1 _); [|eauto].
  destruct (Embedding_forward _ _); eauto.
Qed.

Lemma dec_step_recurrent_first_entry (self : Dec.t) (input : LongTensor)
    (context : Tensor) (src : LongTensor) (h h' : Tensor) (b : list Tensor) (w : world) :
  Dec.time self <> "positional_encoding" ->
  Dec.step self input context src (Some (h :: b)) w
  = Dec.step self input context src (Some (h' :: b)) w.
Proof.
  intros Ht. unfold Dec.step, Dec.step_prepare, Dec.step_time.
  rewrite (bool_decide_eq_false_2 _ Ht). reflexivity.
Qed.

(** A call of the time transformer that returns is recorded once, with
    the embedding it was handed. *)
Lemma call_time_transformer_logs tt pe (emb : Tensor) args (w w' : world) out :
  call_time_transformer tt pe emb args w = (w', Ok out) ->
  trace w' = trace w ++ [TimeTransformerCall (mk_time_call emb args)].
Proof.
  unfold call_time_transformer, getattr.
  destruct tt as [[|m|m]|]; [destruct pe as [p|]| | |];
    try destruct args as [|t|prev];
    unfold mbind, M_bind, mret, M_ret, raise, log, draw; cbn;
    try discriminate;
    try (destruct (RNN_forward _ _ _ _) as [[o h] g]; cbn);
    now intros [= <- _].
Qed.

(** What went before the loop in a [step] that reached it: the last
    position of the input was sliced to length one and looked up, and the
    time transformer was called once, on that embedding. *)
Lemma dec_step_prepare_slices (self : Dec.t) (input src : LongTensor)
    (buffer buffer' : option (list Tensor)) (b l : nat) (w w1 : world)
    (emb : Tensor) (mask_tgt mask_src : ByteTensor) :
  shape input = [b; l] ->
  Dec.step_prepare self input src buffer w
  = (w1, Ok (emb, mask_tgt, mask_src, buffer')) ->
  exists last input_ looked_up args,
    torch.select1_last input = Ok last
    /\ torch.unsqueeze 1 last = Ok input_
    /\ shape input_ = [b; 1]
    /\ Embedding_forward (Dec.word_lut self) input_ = Ok looked_up
    /\ torch.size looked_up 1 = Ok 1
    /\ torch.size (scale looked_up (Dec.model_size self)) 1 = Ok 1
    /\ time_calls (trace w1)
       = time_calls (trace w)
         ++ [mk_time_call
               (if bool_decide (Dec.time self = "positional_encoding")
                then scale looked_up (Dec.model_size self) else looked_up)
               args].
Proof.
  intros Hs H. unfold Dec.step_prepare in H.
  apply bind_ok in H. destruct H as (w2 & e1 & H1 & H).
  apply bind_ok in H. destruct H as (w3 & last & H2 & H).
  apply bind_ok in H. destruct H as (w4 & input_ & H3 & H).
  apply bind_ok in H. destruct H as (w5 & looked_up & H4 & H).
  apply bind_ok in H. destruct H as (w6 & [e5 b5] & Hst & H).
  apply bind_ok in H. destruct H as (w7 & e7 & H7 & H).
  apply bind_ok in H. destruct H as (w8 & [[[m1 mt] m3] m4] & Hmasks & H).
  apply bind_ok in H. destruct H as (w9 & row & H9 & H).
  apply bind_ok in H. destruct H as (w10 & row' & H10 & H).
  injection H as <- _ _ _ _.
  unfold lift in H1, H2, H3, H4, H9, H10.
  injection H1 as <- _. injection H2 as <- H2. injection H3 as <- H3.
  injection H4 as <- H4. injection H9 as <- _. injection H10 as <- _.
  unfold draw in H7. injection H7 as <- _.
  destruct (dec_masks_emits (fun _ => False) self input src _ _ _ Hmasks)
    as (_ & evs & Htr & Hnone).
  rewrite (nothing_emitted _ Hnone), app_nil_r in Htr. rewrite Htr. cbn [trace].
  assert (Hl : 1 <= l).
  { unfold torch.select1_last in H2. rewrite Hs in H2.
    destruct (Nat.eqb_spec l 0); [discriminate|lia]. }
  destruct (step_input_slice (Dec.word_lut self) (Dec.model_size self) input b l Hs Hl)
    as (last' & input_' & Hl' & Hi' & Hshape & Hsize).
  rewrite H2 in Hl'. injection Hl' as <-. rewrite H3 in Hi'. injection Hi' as <-.
  destruct (Hsize looked_up H4) as [Hq1 Hq2].
  assert (Htime : exists args,
             trace w6 = trace w ++ [TimeTransformerCall
               (mk_time_call
                  (if bool_decide (Dec.time self = "positional_encoding")
                   then scale looked_up (Dec.model_size self) else looked_up)
                  args)]).
  { unfold Dec.step_time in Hst.
    destruct (bool_decide (Dec.time self = "positional_encoding")).
    - apply bind_ok in Hst. destruct Hst as (w11 & t & Ht & Hst).
      apply bind_ok in Hst. destruct Hst as (w12 & out & Hcall & Hst).
      unfold lift in Ht. injection Ht as <- _. injection Hst as <- _ _.
      eexists. exact (call_time_transformer_logs _ _ _ _ _ _ _ Hcall).
    - apply bind_ok in Hst. destruct Hst as (w11 & prev & Hprev & Hst).
      apply bind_ok in Hst. destruct Hst as (w12 & out & Hcall & Hst).
      apply bind_ok in Hst. destruct Hst as (w13 & h & Hh & Hst).
      destruct buffer as [bf|]; [|discriminate].
      injection Hprev as <- _.
      unfold lift in Hh. injection Hh as <- _.
      apply bind_ok in Hst. destruct Hst as (w14 & bf' & Hb & Hst).
      unfold lift in Hb. injection Hb as <- _. injection Hst as <- _ _.
      eexists. exact (call_time_transformer_logs _ _ _ _ _ _ _ Hcall). }
  destruct Htime as (args & Htime).
  exists last, input_, looked_up, args.
  split; [exact H2|]. split; [exact H3|]. split; [exact Hshape|].
  split; [exact H4|]. split; [exact Hq1|]. split; [exact Hq2|].
  rewrite Htime, time_calls_app. reflexivity.
Qed.

End StepFacts.

Section TimeCalls.
Context {TY : Types} {RT : Runtime TY}.

Lemma time_calls_without_previous_state (evs : list event) :
  Forall without_previous_state evs ->
  Forall (fun c => tc_args c = TT_prev None) (time_calls evs).
Proof.
  induction 1 as [|ev evs Hev _ IH]; [constructor|].
  destruct ev; cbn; try exact IH. constructor; [exact Hev|exact IH].
Qed.

End TimeCalls.

(** * The claims *)

Section Claims.
Context {TY : Types} {RT : Runtime TY}.



(** C6.  In a full-mode forward that is not itself run inside a
    checkpoint, the layer calls of an encoder and of a decoder are calls
    of the stack's layers in order, and the call of layer [i] runs inside
    [checkpoint] exactly when the stack is training and [N - i <= k], for
    [N] layers and the configured depth [k]; every other call is a direct
    one.  The calls are made: once the lines before the loop went
    through, an encoder calls every one of its layers, and a decoder
    given a memory bank of [n] slices calls its first [min n N] layers,
    all of them when the bank has at least [N]. *)
Theorem checkpointing_policy (enc : Enc.t) (dec : Dec.t)
    (source input src : LongTensor) (context : Tensor) (w : world) :
  recompute w = false ->
  (exists calls,
     encoder_calls (trace (Enc.forward enc source false w).1)
     = encoder_calls (trace w) ++ calls
     /\ map ec_layer calls = take (length calls) (Enc.layer_modules enc)
     /\ (is_ok (Enc.forward enc source false w).2 = true ->
         length calls = length (Enc.layer_modules enc))
     /\ (is_ok (Enc.embed enc source w).2 = true ->
         length calls = length (Enc.layer_modules enc))
     /\ forall i c, calls !! i = Some c ->
          (ec_recompute c = true
           <-> checkpointed (Enc.training enc) (length (Enc.layer_modules enc)) i))
  /\
  (exists calls,
     decoder_calls (trace (Dec.forward dec input context src false w).1)
     = decoder_calls (trace w) ++ calls
     /\ map dc_layer calls = take (length calls) (Dec.layer_modules dec)
     /\ (is_ok (Dec.forward dec input context src false w).2 = true ->
         length calls = length (Dec.layer_modules dec))
     /\ (forall n, is_ok (Dec.embed dec input src w).2 = true ->
         torch.size context 0 = Ok n ->
         length calls = n `min` length (Dec.layer_modules dec))
     /\ forall i c, calls !! i = Some c ->
          (dc_recompute c = true
           <-> checkpointed (Dec.training dec) (length (Dec.layer_modules dec)) i)).
Proof.
  intros Hw. split.
  - destruct (enc_forward_calls enc source w) as (calls & Htr & Hl & Hok & Hflags).
    exists calls. split; [exact Htr|]. split; [exact Hl|]. split; [exact Hok|]. split.
    + intros He. destruct (Enc.embed enc source w) as [w1 [x|e]] eqn:Hemb;
        [|discriminate].
      exact (enc_forward_calls_count enc source w w1 x calls Hemb Htr).
    + intros i c Hi. rewrite (Hflags i c Hi), Hw. apply decision_iff.
  - destruct (dec_forward_calls dec input context src w)
      as (calls & Htr & Hl & Hok & Hflags).
    exists calls. split; [exact Htr|]. split; [exact Hl|]. split; [exact Hok|]. split.
    + intros n He Hn. destruct (Dec.embed dec input src w) as [w1 [x|e]] eqn:Hemb;
        [|discriminate].
      destruct (dec_forward_calls_count dec input context src w w1 x n Hemb Hn)
        as (calls' & Htr' & Hcount & _).
      rewrite Htr in Htr'. apply app_inv_head in Htr'. now subst calls'.
    + intros i c Hi. destruct (Hflags i c Hi) as [_ ->]. rewrite Hw.
      apply decision_iff.
Qed.

(** C2, as amended.  Nothing in the decoder compares the length of the
    memory bank with its layer count.  An encoder and a decoder built from
    the same options, for a dictionary that can be embedded and a
    positional encoder whose maximum length is not negative, have the
    same number of layers, and the memory bank of an encoder with at
    least one layer has as many entries as the encoder has layers.  When
    the lines before the loop raise, the decoder's forward raises the
    same.  When they go through, a decoder of [N] layers given a memory
    bank of [n] entries calls its first [min n N] layers, layer [i]
    reading entry [i]; for [n < N] it raises IndexError at layer [n], the
    first past the bank; for [N <= n] it returns when it has at least
    one layer and its post-processing unit is bound.  The entries from
    [N] on are never read: two memory banks that agree below [N] give the
    same forward. *)
Theorem decoder_forward_against_bank_length (enc : Enc.t) (dec : Dec.t)
    (source input src : LongTensor) (context : Tensor) (w : world) (n : nat) :
  torch.size context 0 = Ok n ->
  (forall o dicts_size pe w0,
      embeddable dicts_size (opt.model_size o) PAD ->
      (0 <= len_max pe)%Z ->
      exists e w1 d w2,
        Enc.init o dicts_size (Some pe) w0 = (w1, Ok e)
        /\ Dec.init o dicts_size (Some pe) w1 = (w2, Ok d)
        /\ length (Enc.layer_modules e) = length (Dec.layer_modules d))
  /\ (forall w' memory_bank mask_src,
        1 <= length (Enc.layer_modules enc) ->
        Enc.forward enc source false w = (w', Ok (memory_bank, mask_src)) ->
        torch.size memory_bank 0 = Ok (length (Enc.layer_modules enc)))
  /\ (forall w1 e,
        Dec.embed dec input src w = (w1, Raise e) ->
        Dec.forward dec input context src false w = (w1, Raise e))
  /\ (forall w1 x,
        Dec.embed dec input src w = (w1, Ok x) ->
        exists calls,
          decoder_calls (trace (Dec.forward dec input context src false w).1)
          = decoder_calls (trace w) ++ calls
          /\ length calls = n `min` length (Dec.layer_modules dec)
          /\ map dc_layer calls
             = take (n `min` length (Dec.layer_modules dec)) (Dec.layer_modules dec)
          /\ (forall i c, calls !! i = Some c ->
                torch.index0 context (Z.of_nat i) = Ok (dc_memory c))
          /\ (n < length (Dec.layer_modules dec) ->
              torch.index0 context (Z.of_nat n) = Raise IndexError
              /\ (Dec.forward dec input context src false w).2 = Raise IndexError)
          /\ (length (Dec.layer_modules dec) <= n ->
              1 <= length (Dec.layer_modules dec) ->
              is_Some (Dec.postprocess_layer dec) ->
              is_ok (Dec.forward dec input context src false w).2 = true))
  /\ (forall context',
        (forall i, i < length (Dec.layer_modules dec) ->
           torch.index0 context' (Z.of_nat i) = torch.index0 context (Z.of_nat i)) ->
        Dec.forward dec input context' src false w
        = Dec.forward dec input context src false w).
Proof.
  intros Hn. split; [|split; [|split; [|split]]].
  - intros o dicts_size pe w0 Hemb Hpe.
    destruct (enc_init_spec o dicts_size (Some pe) w0 Hemb) as (w1 & e & He & Hle & _).
    destruct (dec_init_spec o dicts_size pe w1 Hemb Hpe) as (w2 & d & Hd & Hld & _).
    exists e, w1, d, w2. repeat split; [assumption..|]. now rewrite Hle, Hld.
  - intros w' mb mask HN Hf. exact (enc_forward_size enc source w w' mb mask HN Hf).
  - intros w1 e He. exact (dec_forward_embed_fails dec input context src w w1 e He).
  - intros w1 x He.
    destruct (dec_forward_calls_count dec input context src w w1 x n He Hn)
      as (calls & Htr & Hcount & Hl & Hread & Hshort).
    exists calls. split; [exact Htr|]. split; [exact Hcount|]. split; [exact Hl|].
    split; [exact Hread|]. split.
    + intros Hlt. split; [|exact (Hshort Hlt)].
      apply (index0_out_of_range context n n Hn). lia.
    + intros Hle Hpos Hpost.
      apply (dec_forward_long_bank dec input context src w n Hn Hle Hpos Hpost).
      now rewrite He.
  - intros context' Hsame. exact (dec_forward_reads dec input context context' src w Hsame).
Qed.

(** C3.  For [n >= 1], [add_layers(n)] returns (on a decoder: when its
    post-processing unit is bound) and appends [n] layers after the
    existing ones, which it leaves as they were; the state of the
    pre-attention unit of the first appended layer is the state the
    stack's post-processing unit had before the call; and the stack's
    post-processing unit is what the constructor
    [PrePostProcessing(model_size, 0, sequence='n')] then returns. *)
Theorem add_layers_splices (enc : Enc.t) (dec : Dec.t) (post : PrePostProcessing)
    (n : Z) (w : world) :
  (1 <= n)%Z ->
  Dec.postprocess_layer dec = Some post ->
  (exists first rest w' enc',
     Enc.add_layers enc n w = (w', Ok enc')
     /\ Enc.layer_modules enc' = Enc.layer_modules enc ++ first :: rest
     /\ length rest = Z.to_nat n - 1
     /\ state_dict (enc_preprocess_attn first) = state_dict (Enc.postprocess_layer enc)
     /\ (exists g, Enc.postprocess_layer enc'
                   = mk_PrePostProcessing (Enc.model_size enc) 0 "n" None
                       (PrePostProcessing_state (Enc.model_size enc) 0 "n" None g).1)
     /\ (forall k layer, Enc.layer_modules enc !! k = Some layer ->
                         Enc.layer_modules enc' !! k = Some layer))
  /\
  (exists first rest w' dec',
     Dec.add_layers dec n w = (w', Ok dec')
     /\ Dec.layer_modules dec' = Dec.layer_modules dec ++ first :: rest
     /\ length rest = Z.to_nat n - 1
     /\ state_dict (dec_preprocess_attn first) = state_dict post
     /\ (exists g, Dec.postprocess_layer dec'
                   = Some (mk_PrePostProcessing (Dec.model_size dec) 0 "n" None
                             (PrePostProcessing_state (Dec.model_size dec) 0 "n" None g).1))
     /\ (forall k layer, Dec.layer_modules dec !! k = Some layer ->
                         Dec.layer_modules dec' !! k = Some layer)).
Proof.
  intros Hn Hpost. split.
  - destruct (enc_add_layers_spec enc n w Hn)
      as (rest & w' & enc' & Hrun & Hls & Hlen & Hpp & _).
    cbv zeta in *. eexists _, rest, w', enc'.
    split; [exact Hrun|]. split; [exact Hls|]. split; [exact Hlen|].
    split; [reflexivity|]. split; [eexists; exact Hpp|].
    intros k layer Hk. rewrite Hls. now apply lookup_app_l_Some.
  - destruct (dec_add_layers_spec dec post n w Hn Hpost)
      as (rest & w' & dec' & Hrun & Hls & Hlen & Hpp & _).
    cbv zeta in *. eexists _, rest, w', dec'.
    split; [exact Hrun|]. split; [exact Hls|]. split; [exact Hlen|].
    split; [reflexivity|]. split; [eexists; exact Hpp|].
    intros k layer Hk. rewrite Hls. now apply lookup_app_l_Some.
Qed.

(** C7.  [add_layers(0)] returns without drawing from the random
    generator, and the stack it leaves gives, on every input and from
    every state of the world, the outcome the stack it was given gives:
    in full mode, in grow mode and in a step. *)
Theorem add_no_layers_is_identity (enc : Enc.t) (dec : Dec.t) (w : world) :
  (exists enc',
     Enc.add_layers enc 0 w = (w, Ok enc')
     /\ Enc.layer_modules enc' = Enc.layer_modules enc
     /\ forall input grow w1,
          Enc.forward enc' input grow w1 = Enc.forward enc input grow w1)
  /\
  (exists dec',
     Dec.add_layers dec 0 w = (w, Ok dec')
     /\ Dec.layer_modules dec' = Dec.layer_modules dec
     /\ (forall input context src grow w1,
           Dec.forward dec' input context src grow w1
           = Dec.forward dec input context src grow w1)
     /\ (forall input context src buffer w1,
           Dec.step dec' input context src buffer w1
           = Dec.step dec input context src buffer w1)).
Proof.
  split.
  - eexists. split; [reflexivity|]. split; [reflexivity|].
    intros input grow w1. rewrite Z.add_0_r. reflexivity.
  - eexists. split; [reflexivity|]. split; [reflexivity|]. split.
    + intros input context src grow w1. rewrite Z.add_0_r. reflexivity.
    + intros input context src buffer w1. reflexivity.
Qed.

(** C4.  On a stack on which [mark_pretrained] was never called (built by
    the constructor, then grown or switched between training and
    evaluation at will), a forward with [grow=True] does not return: it
    raises, with AttributeError for the missing [pretrained_point] once
    the embedding went through, and no layer of the stack is run. *)
Theorem grow_forward_needs_pretrained_point (enc : Enc.t) (dec : Dec.t)
    (source input src : LongTensor) (context : Tensor) (w : world) :
  enc_unmarked enc ->
  dec_unmarked dec ->
  (is_ok (Enc.forward enc source true w).2 = false
   /\ encoder_calls (trace (Enc.forward enc source true w).1) = encoder_calls (trace w)
   /\ (is_ok (Enc.embed enc source w).2 = true ->
       (Enc.forward enc source true w).2 = Raise AttributeError))
  /\
  (is_ok (Dec.forward dec input context src true w).2 = false
   /\ decoder_calls (trace (Dec.forward dec input context src true w).1)
      = decoder_calls (trace w)
   /\ (is_ok (Dec.embed dec input src w).2 = true ->
       (Dec.forward dec input context src true w).2 = Raise AttributeError)).
Proof.
  intros He Hd. split.
  - apply enc_forward_grow_unbound, enc_unmarked_point, He.
  - apply dec_forward_grow_unbound, dec_unmarked_point, Hd.
Qed.

(** C5.  The decoder's causal mask depends on the maximum length alone.
    Built by the constructor for a positional encoder of maximum length
    [L], or by [renew_buffer] for a new length [L], it is an [L] by [L]
    matrix whose entry [(i, j)] is one exactly when [j > i] and zero
    otherwise; for length 2 it is [[0, 1], [0, 0]].  The constructor
    returns for a dictionary that can be embedded, and every decoder a
    constructor returned has this mask. *)
Theorem decoder_causal_mask (o : opt.t) (dicts_size : Z) (pe : PositionalEncoding)
    (self : Dec.t) (pe' : PositionalEncoding) (new_len : Z) (w : world) :
  (0 <= len_max pe)%Z ->
  Dec.positional_encoder self = Some pe' ->
  (0 <= new_len)%Z ->
  (embeddable dicts_size (opt.model_size o) PAD ->
   exists w' built,
     Dec.init o dicts_size (Some pe) w = (w', Ok built)
     /\ strictly_upper (Z.to_nat (len_max pe)) (Dec.mask built))
  /\ (forall given w' built,
        Dec.init o dicts_size given w = (w', Ok built) ->
        exists p, given = Some p
                  /\ strictly_upper (Z.to_nat (len_max p)) (Dec.mask built))
  /\ (exists w' self',
        Dec.renew_buffer self new_len w = (w', Ok self')
        /\ strictly_upper (Z.to_nat new_len) (Dec.mask self'))
  /\ causal_mask 2 = Ok (mk_tensor [2; 2] [0; 1; 0; 0]%Z).
Proof.
  intros Hpe Hself Hn. split; [|split; [|split]].
  - intros Hemb. destruct (dec_init_spec o dicts_size pe w Hemb Hpe)
      as (w' & built & Hinit & _ & _ & _ & _ & Hmask & _).
    exists w', built. split; [exact Hinit|].
    destruct (causal_mask_strictly_upper (len_max pe) Hpe) as (m & Hm & Hup).
    rewrite Hmask in Hm. now injection Hm as <-.
  - intros given w' built Hinit.
    pose proof (dec_init_embeddable _ _ _ _ _ _ Hinit) as Hemb.
    destruct (dec_init_run o dicts_size given w Hemb)
      as (g & tt & pp & post & wl & ls & Hrun & _).
    rewrite Hrun in Hinit.
    apply bind_ok in Hinit. destruct Hinit as (w1 & p & Hp & Hinit).
    apply bind_ok in Hinit. destruct Hinit as (w2 & mask & Hmask & Hinit).
    destruct given as [p'|]; [|discriminate]. injection Hp as _ <-.
    injection Hinit as _ <-. cbn [Dec.mask].
    unfold lift in Hmask. injection Hmask as _ Hmask.
    exists p'. split; [reflexivity|].
    assert (H0 : (0 <= len_max p')%Z).
    { unfold causal_mask in Hmask. destruct (Z.ltb_spec (len_max p') 0);
        [discriminate|lia]. }
    destruct (causal_mask_strictly_upper (len_max p') H0) as (m & Hm & Hup).
    rewrite Hmask in Hm. now injection Hm as <-.
  - destruct (dec_renew_buffer_spec self pe' new_len w Hself Hn)
      as (self' & Hrun & Hmask & _).
    exists w, self'. split; [exact Hrun|].
    destruct (causal_mask_strictly_upper new_len Hn) as (m & Hm & Hup).
    rewrite Hmask in Hm. now injection Hm as <-.
  - reflexivity.
Qed.

(** C9.  In a call of [step], the layer steps are steps of the stack's
    layers in order (all of them when the call returns), and the query of
    each has length one.  The lines of [step] before the loop slice the
    last position of a (batch, length) input to length one: when they go
    through, the words looked up are that slice, the embedding has
    length one, also after its scaling, and it is what the time
    transformer was called on, once.  In the loop the assertion comes
    before the layer's step, so that an output whose length is not one
    raises AssertionError there, the layer not being called. *)
Theorem step_query_has_length_one (self : Dec.t) (input : LongTensor)
    (context : Tensor) (src : LongTensor) (buffer : option (list Tensor))
    (w : world) :
  (exists calls,
     step_calls (trace (Dec.step self input context src buffer w).1)
     = step_calls (trace w) ++ calls
     /\ map sc_layer calls = take (length calls) (Dec.layer_modules self)
     /\ (is_ok (Dec.step self input context src buffer w).2 = true ->
         length calls = length (Dec.layer_modules self))
     /\ Forall (fun c => torch.size (sc_query c) 1 = Ok 1) calls)
  /\ (forall b l,
        shape input = [b; l] -> 1 <= l ->
        exists last input_,
          torch.select1_last input = Ok last
          /\ torch.unsqueeze 1 last = Ok input_
          /\ shape input_ = [b; 1]
          /\ forall emb, Embedding_forward (Dec.word_lut self) input_ = Ok emb ->
               torch.size emb 1 = Ok 1
               /\ torch.size (scale emb (Dec.model_size self)) 1 = Ok 1)
  /\ (forall b l w1 emb mask_tgt mask_src buffer',
        shape input = [b; l] ->
        Dec.step_prepare self input src buffer w
        = (w1, Ok (emb, mask_tgt, mask_src, buffer')) ->
        exists last input_ looked_up args,
          torch.select1_last input = Ok last
          /\ torch.unsqueeze 1 last = Ok input_
          /\ shape input_ = [b; 1]
          /\ Embedding_forward (Dec.word_lut self) input_ = Ok looked_up
          /\ torch.size looked_up 1 = Ok 1
          /\ torch.size (scale looked_up (Dec.model_size self)) 1 = Ok 1
          /\ time_calls (trace w1)
             = time_calls (trace w)
               ++ [mk_time_call
                     (if bool_decide (Dec.time self = "positional_encoding")
                      then scale looked_up (Dec.model_size self) else looked_up)
                     args]
          /\ Dec.step self input context src buffer w
             = ('(output, coverage, output_buffer) ←
                  for_enumerate (Dec.step_body self context mask_tgt mask_src buffer')
                    0 (Dec.layer_modules self) (emb, None, []);
                Dec.step_finish self output coverage output_buffer) w1)
  /\ (forall mask_tgt mask_src i layer output coverage output_buffer w0 s,
        torch.size output 1 = Ok s ->
        s <> 1 ->
        (buffer = None
         \/ exists b x, buffer = Some b /\ getitem b (Z.of_nat i) = Ok x) ->
        Dec.step_body self context mask_tgt mask_src buffer i layer
          (output, coverage, output_buffer) w0
        = (w0, Raise AssertionError)).
Proof.
  split; [|split; [|split]].
  - apply dec_step_calls.
  - intros b l Hs Hl. exact (step_input_slice _ _ input b l Hs Hl).
  - intros b l w1 emb mt ms buffer' Hs Hp.
    destruct (dec_step_prepare_slices self input src buffer buffer' b l w w1 emb mt ms
                Hs Hp)
      as (last & input_ & looked_up & args & H1 & H2 & H3 & H4 & H5 & H6 & H7).
    exists last, input_, looked_up, args.
    repeat (split; [assumption|]).
    unfold Dec.step. unfold mbind at 1, M_bind at 1. now rewrite Hp.
  - intros mt ms i layer output cov ob w0 s Hs Hne Hbuf.
    exact (step_body_asserts self context mt ms buffer i layer output cov ob w0 s
             Hs Hne Hbuf).
Qed.

(** C10.  Under a recurrent time encoding, a [step] that is given a
    buffer calls the time transformer with [None] for the previous hidden
    state, and its outcome does not depend on the first entry of the
    buffer, which is overwritten before it is read; a [step] that is given
    no buffer raises before the time transformer and the layers are
    reached, the world left as it was. *)
Theorem recurrent_step_never_reads_cached_state (self : Dec.t) (input : LongTensor)
    (context : Tensor) (src : LongTensor) (w : world) :
  Dec.time self = "gru" \/ Dec.time self = "lstm" ->
  (forall b, exists calls,
      time_calls (trace (Dec.step self input context src (Some b) w).1)
      = time_calls (trace w) ++ calls
      /\ Forall (fun c => tc_args c = TT_prev None) calls)
  /\ (forall h h' b,
        Dec.step self input context src (Some (h :: b)) w
        = Dec.step self input context src (Some (h' :: b)) w)
  /\ (exists e, Dec.step self input context src None w = (w, Raise e)).
Proof.
  intros Ht.
  assert (Hne : Dec.time self <> "positional_encoding")
    by (destruct Ht as [-> | ->]; discriminate).
  split; [|split].
  - intros b.
    destruct (Dec.step self input context src (Some b) w) as [w' r] eqn:Hrun.
    destruct (dec_step_recurrent_emits self input context src b Hne _ _ _ Hrun)
      as (_ & evs & Htr & Hevs).
    exists (time_calls evs). cbn [fst]. rewrite Htr, time_calls_app.
    split; [reflexivity|]. now apply time_calls_without_previous_state.
  - intros h h' b. now apply dec_step_recurrent_first_entry.
  - now apply dec_step_recurrent_none.
Qed.

End Claims.

(** The claims on the runtime of the scenario. *)

Section Runs.
Import Scenario.





(** C2 as it was stated fails: a decoder of two layers given the memory
    bank of a three-layer encoder returns. *)
Lemma decoder_accepts_longer_memory_bank :
  torch.size (memory_bank 3) 0 = Ok 3
  /\ length (Dec.layer_modules (decoder 2 "positional_encoding")) = 2
  /\ exists output coverage,
      (Dec.forward (decoder 2 "positional_encoding") target (memory_bank 3)
         source false world0).2 = Ok (output, coverage).
Proof.
  split; [reflexivity|]. split; [reflexivity|].
  eexists _, _. vm_compute. reflexivity.
Qed.

Lemma decoder_forward_against_bank_length_witness :
  torch.size (memory_bank 3) 0 = Ok 3
  /\ torch.size (memory_bank 1) 0 = Ok 1
  /\ (exists calls,
        decoder_calls (trace (Dec.forward (decoder 2 "positional_encoding") target
                                (memory_bank 3) source false world0).1)
        = decoder_calls (trace world0) ++ calls
        /\ length calls = 2
        /\ is_ok (Dec.forward (decoder 2 "positional_encoding") target (memory_bank 3)
                    source false world0).2 = true)
  /\ (exists calls,
        decoder_calls (trace (Dec.forward (decoder 2 "positional_encoding") target
                                (memory_bank 1) source false world0).1)
        = decoder_calls (trace world0) ++ calls
        /\ length calls = 1
        /\ (Dec.forward (decoder 2 "positional_encoding") target (memory_bank 1)
              source false world0).2 = Raise IndexError).
Proof.
  split; [reflexivity|]. split; [reflexivity|]. split.
  - destruct (decoder_forward_against_bank_length (TY := types) (RT := runtime)
                (encoder 3 "positional_encoding") (decoder 2 "positional_encoding")
                source target source (memory_bank 3) world0 3 eq_refl)
      as (_ & _ & _ & Hok & _).
    edestruct Hok as (calls & Htr & Hcount & _ & _ & _ & Hlong);
      [vm_compute; reflexivity|].
    exists calls. split; [exact Htr|]. split; [exact Hcount|].
    apply Hlong; [vm_compute; lia|vm_compute; lia|vm_compute; eexists; reflexivity].
  - destruct (decoder_forward_against_bank_length (TY := types) (RT := runtime)
                (encoder 1 "positional_encoding") (decoder 2 "positional_encoding")
                source target source (memory_bank 1) world0 1 eq_refl)
      as (_ & _ & _ & Hok & _).
    edestruct Hok as (calls & Htr & Hcount & _ & _ & Hshort & _);
      [vm_compute; reflexivity|].
    exists calls. split; [exact Htr|]. split; [exact Hcount|].
    apply Hshort. vm_compute. lia.
Defined.

(** The checkpointing depth of the scenario is one: of two layers the
    second runs inside [checkpoint] while training, none otherwise. *)
Example scenario_checkpointed_layers :
  map ec_recompute
    (encoder_calls (trace (Enc.forward (encoder 2 "positional_encoding")
                             source false world0).1)) = [false; true]
  /\ map ec_recompute
       (encoder_calls
          (trace (Enc.forward (Enc.set_training (encoder 2 "positional_encoding") false)
                    source false world0).1)) = [false; false].
Proof. split; reflexivity. Qed.

Lemma checkpointing_policy_witness :
  (recompute world0 = false)
  /\
  (is_ok (Dec.embed (decoder 2 "positional_encoding") target source world0).2 = true
   /\ torch.size (memory_bank 2) 0 = Ok 2)
  /\
  ((exists calls,
     encoder_calls (trace (Enc.forward (encoder 2 "positional_encoding") source false world0).1)
     = encoder_calls (trace world0) ++ calls
     /\ map ec_layer calls = take (length calls) (Enc.layer_modules (encoder 2 "positional_encoding"))
     /\ (is_ok (Enc.forward (encoder 2 "positional_encoding") source false world0).2 = true ->
         length calls = length (Enc.layer_modules (encoder 2 "positional_encoding")))
     /\ (is_ok (Enc.embed (encoder 2 "positional_encoding") source world0).2 = true ->
         length calls = length (Enc.layer_modules (encoder 2 "positional_encoding")))
     /\ forall i c, calls !! i = Some c ->
          (ec_recompute c = true
           <-> checkpointed (Enc.training (encoder 2 "positional_encoding")) (length (Enc.layer_modules (encoder 2 "positional_encoding"))) i))
  /\
  (exists calls,
     decoder_calls (trace (Dec.forward (decoder 2 "positional_encoding") target (memory_bank 2) source false world0).1)
     = decoder_calls (trace world0) ++ calls
     /\ map dc_layer calls = take (length calls) (Dec.layer_modules (decoder 2 "positional_encoding"))
     /\ (is_ok (Dec.forward (decoder 2 "positional_encoding") target (memory_bank 2) source false world0).2 = true ->
         length calls = length (Dec.layer_modules (decoder 2 "positional_encoding")))
     /\ (forall n, is_ok (Dec.embed (decoder 2 "positional_encoding") target source world0).2 = true ->
         torch.size (memory_bank 2) 0 = Ok n ->
         length calls = n `min` length (Dec.layer_modules (decoder 2 "positional_encoding")))
     /\ forall i c, calls !! i = Some c ->
          (dc_recompute c = true
           <-> checkpointed (Dec.training (decoder 2 "positional_encoding")) (length (Dec.layer_modules (decoder 2 "positional_encoding"))) i))).
Proof.
  split; [reflexivity|].
  split; [split; reflexivity|].
  apply (checkpointing_policy (TY := types) (RT := runtime)
           ((encoder 2 "positional_encoding")) ((decoder 2 "positional_encoding")) source target source ((memory_bank 2)) world0);
    [reflexivity].
Defined.

Lemma add_layers_splices_witness :
  (1 <= 2)%Z
  /\ Dec.postprocess_layer (decoder 2 "positional_encoding")
     = Some (default no_module (Dec.postprocess_layer (decoder 2 "positional_encoding")))
  /\ (exists first rest w' enc',
        Enc.add_layers (encoder 2 "positional_encoding") 2 world0 = (w', Ok enc')
        /\ Enc.layer_modules enc'
           = Enc.layer_modules (encoder 2 "positional_encoding") ++ first :: rest
        /\ length rest = Z.to_nat 2 - 1
        /\ state_dict (enc_preprocess_attn first)
           = state_dict (Enc.postprocess_layer (encoder 2 "positional_encoding"))
        /\ (exists g, Enc.postprocess_layer enc'
                      = mk_PrePostProcessing
                          (Enc.model_size (encoder 2 "positional_encoding")) 0 "n" None
                          (PrePostProcessing_state
                             (Enc.model_size (encoder 2 "positional_encoding"))
                             0 "n" None g).1)
        /\ (forall k layer,
              Enc.layer_modules (encoder 2 "positional_encoding") !! k = Some layer ->
              Enc.layer_modules enc' !! k = Some layer))
  /\ (exists first rest w' dec',
        Dec.add_layers (decoder 2 "positional_encoding") 2 world0 = (w', Ok dec')
        /\ Dec.layer_modules dec'
           = Dec.layer_modules (decoder 2 "positional_encoding") ++ first :: rest
        /\ length rest = Z.to_nat 2 - 1
        /\ state_dict (dec_preprocess_attn first)
           = state_dict (default no_module
                           (Dec.postprocess_layer (decoder 2 "positional_encoding")))
        /\ (exists g, Dec.postprocess_layer dec'
                      = Some (mk_PrePostProcessing
                                (Dec.model_size (decoder 2 "positional_encoding")) 0 "n" None
                                (PrePostProcessing_state
                                   (Dec.model_size (decoder 2 "positional_encoding"))
                                   0 "n" None g).1))
        /\ (forall k layer,
              Dec.layer_modules (decoder 2 "positional_encoding") !! k = Some layer ->
              Dec.layer_modules dec' !! k = Some layer)).
Proof.
  split; [lia|]. split; [reflexivity|].
  apply (add_layers_splices (TY := types) (RT := runtime)
           (encoder 2 "positional_encoding") (decoder 2 "positional_encoding")
           (default no_module (Dec.postprocess_layer (decoder 2 "positional_encoding")))
           2 world0); [lia|reflexivity].
Defined.

(** The scenario's encoder grown by one layer: the new layer's
    pre-attention unit carries the state of the old post-processing unit,
    the layers before it are the old ones, and the post-processing unit is
    a new one, built after the layer. *)
Example scenario_growth :
  map (fun layer => pp_state (enc_preprocess_attn layer)) (Enc.layer_modules grown_encoder)
  = [3; 5; pp_state (Enc.postprocess_layer (encoder 2 "positional_encoding"))]
  /\ take 2 (Enc.layer_modules grown_encoder)
     = Enc.layer_modules (encoder 2 "positional_encoding")
  /\ pp_state (Enc.postprocess_layer (encoder 2 "positional_encoding")) = 2
  /\ pp_state (Enc.postprocess_layer grown_encoder) = 102
  /\ Enc.layers grown_encoder = 3%Z.
Proof. repeat split; reflexivity. Qed.

Lemma grow_forward_needs_pretrained_point_witness :
  enc_unmarked grown_encoder
  /\ dec_unmarked (decoder 2 "positional_encoding")
  /\ (is_ok (Enc.forward grown_encoder source true world0).2 = false
      /\ encoder_calls (trace (Enc.forward grown_encoder source true world0).1)
         = encoder_calls (trace world0)
      /\ (is_ok (Enc.embed grown_encoder source world0).2 = true ->
          (Enc.forward grown_encoder source true world0).2 = Raise AttributeError))
  /\ (is_ok (Dec.forward (decoder 2 "positional_encoding") target (memory_bank 2)
               source true world0).2 = false
      /\ decoder_calls (trace (Dec.forward (decoder 2 "positional_encoding") target
                                 (memory_bank 2) source true world0).1)
         = decoder_calls (trace world0)
      /\ (is_ok (Dec.embed (decoder 2 "positional_encoding") target source world0).2
          = true ->
          (Dec.forward (decoder 2 "positional_encoding") target (memory_bank 2)
             source true world0).2 = Raise AttributeError)).
Proof.
  assert (He : enc_unmarked grown_encoder).
  { apply (enc_unmarked_add (TY := types) (RT := runtime)
             (encoder 2 "positional_encoding") 1 world100
             (Enc.add_layers (encoder 2 "positional_encoding") 1 world100).1).
    - apply (enc_unmarked_init (TY := types) (RT := runtime)
               (options 2 "positional_encoding") 10 positional world0
               (Enc.init (options 2 "positional_encoding") 10 positional world0).1).
      vm_compute. reflexivity.
    - vm_compute. reflexivity. }
  assert (Hd : dec_unmarked (decoder 2 "positional_encoding")).
  { apply (dec_unmarked_init (TY := types) (RT := runtime)
             (options 2 "positional_encoding") 10 positional world0
             (Dec.init (options 2 "positional_encoding") 10 positional world0).1).
    vm_compute. reflexivity. }
  split; [exact He|]. split; [exact Hd|].
  exact (grow_forward_needs_pretrained_point (TY := types) (RT := runtime)
           grown_encoder (decoder 2 "positional_encoding")
           source target source (memory_bank 2) world0 He Hd).
Defined.

(** After [mark_pretrained] the same grow-mode forward returns, with a
    memory bank of three entries for the three layers. *)
Example scenario_grow_after_mark :
  exists memory_bank mask_src,
    (Enc.forward (Enc.mark_pretrained grown_encoder) source true world0).2
    = Ok (memory_bank, mask_src)
    /\ torch.size memory_bank 0 = Ok 3.
Proof. eexists _, _. split; [vm_compute; reflexivity|reflexivity]. Qed.

Lemma decoder_causal_mask_witness :
  ((0 <= len_max 4%Z)%Z)
  /\
  (Dec.positional_encoder (decoder 2 "positional_encoding") = Some 4%Z)
  /\
  ((0 <= 3%Z)%Z)
  /\
  (embeddable 10%Z (opt.model_size (options 2 "positional_encoding")) PAD)
  /\
  ((embeddable 10%Z (opt.model_size (options 2 "positional_encoding")) PAD ->
   exists w' built,
     Dec.init (options 2 "positional_encoding") 10%Z (Some 4%Z) world0 = (w', Ok built)
     /\ strictly_upper (Z.to_nat (len_max 4%Z)) (Dec.mask built))
  /\ (forall given w' built,
        Dec.init (options 2 "positional_encoding") 10%Z given world0 = (w', Ok built) ->
        exists p, given = Some p
                  /\ strictly_upper (Z.to_nat (len_max p)) (Dec.mask built))
  /\ (exists w' self',
        Dec.renew_buffer (decoder 2 "positional_encoding") 3%Z world0 = (w', Ok self')
        /\ strictly_upper (Z.to_nat 3%Z) (Dec.mask self'))
  /\ causal_mask 2 = Ok (mk_tensor [2; 2] [0; 1; 0; 0]%Z)).
Proof.
  split; [vm_compute; discriminate|].
  split; [reflexivity|].
  split; [lia|].
  split; [unfold embeddable; cbn; lia|].
  apply (decoder_causal_mask (TY := types) (RT := runtime)
           ((options 2 "positional_encoding")) 10%Z 4%Z ((decoder 2 "positional_encoding")) 4%Z 3%Z world0);
    [vm_compute; discriminate | reflexivity | lia].
Defined.

(** The mask of the scenario's decoder, cut to the two target positions. *)
Example scenario_causal_mask :
  torch.slice2 (Dec.mask (decoder 2 "positional_encoding")) 2 2
  = Ok (mk_tensor [2; 2] [0; 1; 0; 0]%Z).
Proof. reflexivity. Qed.

Lemma recurrent_step_never_reads_cached_state_witness :
  (Dec.time (decoder 2 "gru") = "gru" \/ Dec.time (decoder 2 "gru") = "lstm")
  /\ (forall b, exists calls,
        time_calls (trace (Dec.step (decoder 2 "gru") target (memory_bank 2) source
                             (Some b) world0).1)
        = time_calls (trace world0) ++ calls
        /\ Forall (fun c => tc_args c = TT_prev None) calls)
  /\ (forall h h' b,
        Dec.step (decoder 2 "gru") target (memory_bank 2) source (Some (h :: b)) world0
        = Dec.step (decoder 2 "gru") target (memory_bank 2) source (Some (h' :: b)) world0)
  /\ (exists e, Dec.step (decoder 2 "gru") target (memory_bank 2) source None world0
                = (world0, Raise e)).
Proof.
  split; [left; reflexivity|].
  apply (recurrent_step_never_reads_cached_state (TY := types) (RT := runtime)
           (decoder 2 "gru") target (memory_bank 2) source world0).
  left. reflexivity.
Defined.

(** A step of the scenario's recurrent decoder: it returns, its one call
    of the time transformer has no previous state, both layers step on a
    query of shape (1, 1, 8), and without a buffer it raises TypeError. *)
Example scenario_recurrent_step :
  is_ok (Dec.step (decoder 2 "gru") target (memory_bank 2) source
           (Some buffer2) world0).2 = true
  /\ map tc_args
       (time_calls (trace (Dec.step (decoder 2 "gru") target (memory_bank 2) source
                             (Some buffer2) world0).1)) = [TT_prev None]
  /\ map (fun c => shape (sc_query c))
       (step_calls (trace (Dec.step (decoder 2 "gru") target (memory_bank 2) source
                             (Some buffer2) world0).1)) = [[1; 1; 8]; [1; 1; 8]]
  /\ Dec.step (decoder 2 "gru") target (memory_bank 2) source None world0
     = (world0, Raise TypeError).
Proof. repeat split; reflexivity. Qed.

Lemma step_query_has_length_one_witness :
  shape target = [1; 2]
  /\ torch.size (mk_tensor (A := Z) [1; 2; 8] []) 1 = Ok 2
  /\ (exists last input_,
        torch.select1_last target = Ok last
        /\ torch.unsqueeze 1 last = Ok input_
        /\ shape input_ = [1; 1])
  /\ (exists (w1 : world) (looked_up : Tensor) (args : tt_args),
        is_ok (Dec.step_prepare (decoder 2 "positional_encoding") target source None
                 world0).2 = true
        /\ trace (Dec.step_prepare (decoder 2 "positional_encoding") target source None
                    world0).1 = trace w1
        /\ torch.size looked_up 1 = Ok 1
        /\ time_calls (trace w1)
           = time_calls (trace world0)
             ++ [mk_time_call
                   (scale looked_up (Dec.model_size (decoder 2 "positional_encoding")))
                   args])
  /\ (forall layer,
        Dec.step_body (decoder 2 "positional_encoding") (memory_bank 2)
          (mk_tensor [1; 1; 2] [0; 1]%Z) (mk_tensor [1; 1; 3] [0; 0; 0]%Z) None
          0 layer (mk_tensor [1; 2; 8] [], None, []) world0
        = (world0, Raise AssertionError)).
Proof.
  destruct (step_query_has_length_one (TY := types) (RT := runtime)
              (decoder 2 "positional_encoding") target (memory_bank 2) source
              None world0) as (_ & Hslice & Hprepare & Hassert).
  split; [reflexivity|]. split; [reflexivity|]. split; [|split].
  - destruct (Hslice 1 2 eq_refl (le_S 1 1 (le_n 1)))
      as (last & input_ & H1 & H2 & H3 & _).
    now exists last, input_.
  - edestruct (Hprepare 1 2) as (last & input_ & looked_up & args & _ & _ & _ & _
                                  & Hsize & _ & Htime & _);
      [reflexivity|vm_compute; reflexivity|].
    eexists _, looked_up, args. split; [reflexivity|]. split; [reflexivity|].
    split; [exact Hsize|exact Htime].
  - intros layer.
    apply (Hassert (mk_tensor [1; 1; 2] [0; 1]%Z) (mk_tensor [1; 1; 3] [0; 0; 0]%Z)
             0 layer (mk_tensor [1; 2; 8] []) None [] world0 2 eq_refl).
    + discriminate.
    + left. reflexivity.
Defined.

(** The table raises as torch's does: a word the table does not have is
    an IndexError of the forward (word 10 in a table of ten rows, words 5
    and 7 in a table of three), and a dictionary without words an
    IndexError of both constructors. *)
Example scenario_table_raises :
  (Enc.forward (encoder 2 "positional_encoding") (mk_tensor [1; 3] [5; 10; 2]%Z)
     false world0).2 = Raise IndexError
  /\ (exists w' self,
        Enc.init (options 2 "positional_encoding") 3 positional world0 = (w', Ok self)
        /\ (Enc.forward self source false world0).2 = Raise IndexError)
  /\ (Enc.init (options 2 "positional_encoding") 0 positional world0).2
     = Raise IndexError
  /\ (Dec.init (options 2 "positional_encoding") 0 positional world0).2
     = Raise IndexError
  /\ (Dec.init (options 2 "positional_encoding") 0 None world0).2 = Raise IndexError.
Proof.
  split; [reflexivity|]. split.
  - eexists _, _. split; [vm_compute; reflexivity|]. reflexivity.
  - repeat split; reflexivity.
Qed.

End Runs.

(** * Further properties of the stacks *)

(** ** Growth by any number of layers *)

Section GrowthCounts.
Context {TY : Types} {RT : Runtime TY}.

Lemma range_nonpositive (n : Z) : (n <= 0)%Z -> range n = [].
Proof. intros H. unfold range. now replace (Z.to_nat n) with 0 by lia. Qed.

Lemma enc_add_layers_any (self : Enc.t) (n : Z) (w : world) :
  exists w' self',
    Enc.add_layers self n w = (w', Ok self')
    /\ length (Enc.layer_modules self')
       = length (Enc.layer_modules self) + Z.to_nat n
    /\ take (length (Enc.layer_modules self)) (Enc.layer_modules self')
       = Enc.layer_modules self
    /\ Enc.layers self' = (Enc.layers self + n)%Z
    /\ ((n <= 0)%Z ->
        w' = w /\ Enc.postprocess_layer self' = Enc.postprocess_layer self).
Proof.
  destruct (Z.le_gt_cases n 0) as [Hn|Hn].
  - unfold Enc.add_layers. rewrite (range_nonpositive n Hn). cbn [for_each].
    eexists _, _. split; [reflexivity|]. cbn.
    replace (Z.to_nat n) with 0 by lia. rewrite Nat.add_0_r, firstn_all. easy.
  - destruct (enc_add_layers_spec self n w) as (rest & w' & self' & H); [lia|].
    cbv zeta in H. destruct H as (Hrun & Hls & Hlen & _ & Hlayers & _).
    exists w', self'. split; [exact Hrun|]. rewrite Hls.
    split; [|split; [|split; [exact Hlayers|lia]]].
    + rewrite length_app. cbn. lia.
    + now rewrite take_app_length.
Qed.

Lemma dec_add_layers_any (self : Dec.t) (n : Z) (w : world) :
  is_Some (Dec.postprocess_layer self) \/ (n <= 0)%Z ->
  exists w' self',
    Dec.add_layers self n w = (w', Ok self')
    /\ length (Dec.layer_modules self')
       = length (Dec.layer_modules self) + Z.to_nat n
    /\ take (length (Dec.layer_modules self)) (Dec.layer_modules self')
       = Dec.layer_modules self
    /\ Dec.layers self' = (Dec.layers self + n)%Z
    /\ ((n <= 0)%Z ->
        w' = w /\ Dec.postprocess_layer self' = Dec.postprocess_layer self).
Proof.
  intros Hpost. destruct (Z.le_gt_cases n 0) as [Hn|Hn].
  - unfold Dec.add_layers. rewrite (range_nonpositive n Hn). cbn [for_each].
    eexists _, _. split; [reflexivity|]. cbn.
    replace (Z.to_nat n) with 0 by lia. rewrite Nat.add_0_r, firstn_all. easy.
  - destruct Hpost as [[post Hpost]|]; [|lia].
    destruct (dec_add_layers_spec self post n w) as (rest & w' & self' & H);
      [lia|exact Hpost|].
    cbv zeta in H. destruct H as (Hrun & Hls & Hlen & _ & Hlayers & _).
    exists w', self'. split; [exact Hrun|]. rewrite Hls.
    split; [|split; [|split; [exact Hlayers|lia]]].
    + rewrite length_app. cbn. lia.
    + now rewrite take_app_length.
Qed.

(** X1.  [add_layers(n)] appends [max(n, 0)] layers after the existing
    ones and adds [n] to [self.layers], whatever the sign of [n].  So the
    counter agrees with the list of layers after the call when it did
    before and [n >= 0]; a negative [n] appends nothing, leaves the
    post-processing unit alone, and leaves the counter below the number of
    layers. *)
Theorem add_layers_counter_and_list (enc : Enc.t) (dec : Dec.t) (n : Z) (w : world) :
  is_Some (Dec.postprocess_layer dec) ->
  Enc.layers enc = Z.of_nat (length (Enc.layer_modules enc)) ->
  Dec.layers dec = Z.of_nat (length (Dec.layer_modules dec)) ->
  (exists w' enc',
     Enc.add_layers enc n w = (w', Ok enc')
     /\ length (Enc.layer_modules enc')
        = length (Enc.layer_modules enc) + Z.to_nat n
     /\ take (length (Enc.layer_modules enc)) (Enc.layer_modules enc')
        = Enc.layer_modules enc
     /\ ((0 <= n)%Z -> Enc.layers enc' = Z.of_nat (length (Enc.layer_modules enc')))
     /\ ((n < 0)%Z ->
         Enc.layer_modules enc' = Enc.layer_modules enc
         /\ Enc.postprocess_layer enc' = Enc.postprocess_layer enc
         /\ (Enc.layers enc' < Z.of_nat (length (Enc.layer_modules enc')))%Z))
  /\
  (exists w' dec',
     Dec.add_layers dec n w = (w', Ok dec')
     /\ length (Dec.layer_modules dec')
        = length (Dec.layer_modules dec) + Z.to_nat n
     /\ take (length (Dec.layer_modules dec)) (Dec.layer_modules dec')
        = Dec.layer_modules dec
     /\ ((0 <= n)%Z -> Dec.layers dec' = Z.of_nat (length (Dec.layer_modules dec')))
     /\ ((n < 0)%Z ->
         Dec.layer_modules dec' = Dec.layer_modules dec
         /\ Dec.postprocess_layer dec' = Dec.postprocess_layer dec
         /\ (Dec.layers dec' < Z.of_nat (length (Dec.layer_modules dec')))%Z)).
Proof.
  intros Hpost He Hd. split.
  - destruct (enc_add_layers_any enc n w) as (w' & enc' & Hrun & Hlen & Htake & Hl & Hneg).
    exists w', enc'. split; [exact Hrun|]. split; [exact Hlen|]. split; [exact Htake|].
    split.
    + intros Hn. rewrite Hl, He, Hlen. lia.
    + intros Hn. destruct Hneg as [_ Hpp]; [lia|].
      assert (Hsame : Enc.layer_modules enc' = Enc.layer_modules enc).
      { rewrite <- Htake. symmetry. apply firstn_all2. rewrite Hlen. lia. }
      split; [exact Hsame|]. split; [exact Hpp|]. rewrite Hl, He, Hsame. lia.
  - destruct (dec_add_layers_any dec n w (or_introl Hpost))
      as (w' & dec' & Hrun & Hlen & Htake & Hl & Hneg).
    exists w', dec'. split; [exact Hrun|]. split; [exact Hlen|]. split; [exact Htake|].
    split.
    + intros Hn. rewrite Hl, Hd, Hlen. lia.
    + intros Hn. destruct Hneg as [_ Hpp]; [lia|].
      assert (Hsame : Dec.layer_modules dec' = Dec.layer_modules dec).
      { rewrite <- Htake. symmetry. apply firstn_all2. rewrite Hlen. lia. }
      split; [exact Hsame|]. split; [exact Hpp|]. rewrite Hl, Hd, Hsame. lia.
Qed.

End GrowthCounts.

(** ** What the constructors need *)

Section ConstructorEdges.
Context {TY : Types} {RT : Runtime TY}.

#[local] Arguments causal_mask : simpl never.

(** X2.  The decoder's constructor returns exactly when the dictionary
    can be embedded and it is given a positional encoder whose maximum
    length is not negative, whatever the time encoding asked for.  An
    empty dictionary raises IndexError at [nn.Embedding], before the
    positional encoder is read; with a dictionary that can be embedded,
    no positional encoder raises AttributeError at
    [positional_encoder.len_max] and a negative maximum length ValueError
    at [np.ones]. *)
Theorem decoder_init_needs_positional_encoder (o : opt.t) (dicts_size : Z)
    (pe : option PositionalEncoding) (w : world) :
  (is_ok (Dec.init o dicts_size pe w).2 = true
   <-> embeddable dicts_size (opt.model_size o) PAD
       /\ exists p, pe = Some p /\ (0 <= len_max p)%Z)
  /\ (PAD = 0%Z -> dicts_size = 0%Z -> (0 <= opt.model_size o)%Z ->
      (Dec.init o dicts_size pe w).2 = Raise IndexError)
  /\ (embeddable dicts_size (opt.model_size o) PAD -> pe = None ->
      (Dec.init o dicts_size pe w).2 = Raise AttributeError)
  /\ (embeddable dicts_size (opt.model_size o) PAD ->
      forall p, pe = Some p -> (len_max p < 0)%Z ->
        (Dec.init o dicts_size pe w).2 = Raise ValueError).
Proof.
  destruct (embeddable_dec dicts_size (opt.model_size o) PAD) as [Hemb|Hno].
  - destruct (dec_init_run o dicts_size pe w Hemb)
      as (g & tt & pp & post & wl & ls & -> & _).
    destruct pe as [p|].
    + unfold getattr, mbind, M_bind, mret, M_ret, lift, causal_mask. cbv beta iota.
      destruct (Z.ltb_spec (len_max p) 0) as [Hneg|Hpos]; cbn.
      * split; [|split; [|split]].
        -- split; [discriminate|]. intros (_ & p' & [= <-] & Hp). lia.
        -- intros H0 Hn _. destruct Hemb as [Hpad _]. lia.
        -- discriminate.
        -- reflexivity.
      * split; [|split; [|split]].
        -- split; [|reflexivity]. intros _. split; [exact Hemb|now exists p].
        -- intros H0 Hn _. destruct Hemb as [Hpad _]. lia.
        -- discriminate.
        -- intros _ p' [= <-] Hp. lia.
    + cbn. split; [|split; [|split]].
      * split; [discriminate|]. now intros (_ & p & Hp & _).
      * intros H0 Hn _. destruct Hemb as [Hpad _]. lia.
      * reflexivity.
      * discriminate.
  - destruct (dec_init_fails o dicts_size pe w Hno) as (w' & e & Hrun & He).
    rewrite Hrun. cbn. split; [|split; [|split]].
    + split; [discriminate|]. now intros [Hemb _].
    + intros H0 Hn Hd. now rewrite (He H0 Hn Hd).
    + contradiction.
    + contradiction.
Qed.

(** A forward with nothing to call for the time encoding: the words are
    looked up first, then the call of the time transformer raises. *)
Lemma enc_forward_time_unbound (self : Enc.t) (input : LongTensor) (grow : bool)
    (w : world) :
  Enc.time_transformer self = None ->
  is_ok (Enc.forward self input grow w).2 = false
  /\ (forall w0 looked_up,
        embedded_dropout (Enc.word_lut self) input
          (if Enc.training self then Enc.word_dropout self else 0) w
        = (w0, Ok looked_up) ->
        Enc.forward self input grow w = (w0, Raise AttributeError))
  /\ (forall w0 e,
        embedded_dropout (Enc.word_lut self) input
          (if Enc.training self then Enc.word_dropout self else 0) w
        = (w0, Raise e) ->
        Enc.forward self input grow w = (w0, Raise e)).
Proof.
  intros Ht.
  assert (Hsame : Enc.forward self input grow w
                  = (let '(w0, r) :=
                       embedded_dropout (Enc.word_lut self) input
                         (if Enc.training self then Enc.word_dropout self else 0) w in
                     match r with
                     | Ok _ => (w0, Raise AttributeError)
                     | Raise e => (w0, Raise e)
                     end)).
  { unfold Enc.forward, Enc.forward_grow, Enc.embed, call_time_transformer.
    rewrite Ht. unfold mbind, M_bind, getattr.
    destruct grow;
      now destruct (embedded_dropout _ _ _ w) as [w0 [looked_up|e]]. }
  rewrite Hsame.
  destruct (embedded_dropout _ _ _ w) as [w0 [looked_up|e]].
  - split; [reflexivity|]. split; [now intros ? ? [= <- _]|discriminate].
  - split; [reflexivity|]. split; [discriminate|now intros ? ? [= <- <-]].
Qed.

Lemma enc_forward_no_positional_encoder (self : Enc.t) (input : LongTensor)
    (grow : bool) (w : world) :
  Enc.time_transformer self = Some TM_positional ->
  Enc.positional_encoder self = None ->
  is_ok (Enc.forward self input grow w).2 = false
  /\ (forall w0 looked_up,
        embedded_dropout (Enc.word_lut self) input
          (if Enc.training self then Enc.word_dropout self else 0) w
        = (w0, Ok looked_up) ->
        Enc.forward self input grow w = (w0, Raise TypeError))
  /\ (forall w0 e,
        embedded_dropout (Enc.word_lut self) input
          (if Enc.training self then Enc.word_dropout self else 0) w
        = (w0, Raise e) ->
        Enc.forward self input grow w = (w0, Raise e)).
Proof.
  intros Ht Hpe.
  assert (Hsame : Enc.forward self input grow w
                  = (let '(w0, r) :=
                       embedded_dropout (Enc.word_lut self) input
                         (if Enc.training self then Enc.word_dropout self else 0) w in
                     match r with
                     | Ok _ => (w0, Raise TypeError)
                     | Raise e => (w0, Raise e)
                     end)).
  { unfold Enc.forward, Enc.forward_grow, Enc.embed, call_time_transformer.
    rewrite Ht, Hpe. unfold mbind, M_bind, getattr, mret, M_ret, raise.
    destruct grow;
      now destruct (embedded_dropout _ _ _ w) as [w0 [looked_up|e]]. }
  rewrite Hsame.
  destruct (embedded_dropout _ _ _ w) as [w0 [looked_up|e]].
  - split; [reflexivity|]. split; [now intros ? ? [= <- _]|discriminate].
  - split; [reflexivity|]. split; [discriminate|now intros ? ? [= <- <-]].
Qed.

(** X3.  The encoder's constructor returns exactly when the dictionary
    can be embedded (an empty one raises IndexError at [nn.Embedding]),
    also for a time encoding it does not know and without a positional
    encoder; the stack it returns then cannot run.  Its forward, in full
    and in grow mode, looks the words up and then raises AttributeError
    for an unknown [opt.time] (no time transformer was bound) and
    TypeError for ['positional_encoding'] without a positional encoder (a
    call of [None]); when the lookup itself raises, the forward raises
    what the lookup did. *)
Theorem encoder_init_accepts_unusable_time (o : opt.t) (dicts_size : Z)
    (pe : option PositionalEncoding) (w : world) :
  (is_ok (Enc.init o dicts_size pe w).2 = true
   <-> embeddable dicts_size (opt.model_size o) PAD)
  /\ (PAD = 0%Z -> dicts_size = 0%Z -> (0 <= opt.model_size o)%Z ->
      (Enc.init o dicts_size pe w).2 = Raise IndexError)
  /\ (forall w' self,
        Enc.init o dicts_size pe w = (w', Ok self) ->
        forall input grow w1,
          let lookup :=
            embedded_dropout (Enc.word_lut self) input
              (if Enc.training self then Enc.word_dropout self else 0) w1 in
          (opt.time o <> "positional_encoding" -> opt.time o <> "gru" ->
           opt.time o <> "lstm" ->
           is_ok (Enc.forward self input grow w1).2 = false
           /\ (forall w2 looked_up, lookup = (w2, Ok looked_up) ->
                 Enc.forward self input grow w1 = (w2, Raise AttributeError))
           /\ (forall w2 e, lookup = (w2, Raise e) ->
                 Enc.forward self input grow w1 = (w2, Raise e)))
          /\ (opt.time o = "positional_encoding" -> pe = None ->
              is_ok (Enc.forward self input grow w1).2 = false
              /\ (forall w2 looked_up, lookup = (w2, Ok looked_up) ->
                    Enc.forward self input grow w1 = (w2, Raise TypeError))
              /\ (forall w2 e, lookup = (w2, Raise e) ->
                    Enc.forward self input grow w1 = (w2, Raise e)))).
Proof.
  split; [|split].
  - split.
    + destruct (Enc.init o dicts_size pe w) as [w' [self|e]] eqn:Hrun;
        [|discriminate].
      intros _. exact (enc_init_embeddable _ _ _ _ _ _ Hrun).
    + intros Hemb. destruct (enc_init_spec o dicts_size pe w Hemb)
        as (w' & self & -> & _). reflexivity.
  - intros H0 Hn Hd.
    assert (Hno : ~ embeddable dicts_size (opt.model_size o) PAD).
    { intros [Hpad _]. lia. }
    destruct (enc_init_fails o dicts_size pe w Hno) as (w' & e & -> & He).
    cbn. now rewrite (He H0 Hn Hd).
  - intros w' self Hrun input grow w1.
    pose proof (enc_init_embeddable _ _ _ _ _ _ Hrun) as Hemb.
    destruct (enc_init_spec o dicts_size pe w Hemb)
      as (w2 & self2 & Hinit & _ & _ & Hpe & _ & _ & Hpos & _ & Hunk).
    rewrite Hrun in Hinit. injection Hinit as <- <-.
    cbv zeta. split.
    + intros H1 H2 H3. apply enc_forward_time_unbound. now apply Hunk.
    + intros Ht Hnone.
      apply enc_forward_no_positional_encoder; [now apply Hpos|congruence].
Qed.

End ConstructorEdges.

(** ** Decoders that cannot run *)

Section DecoderEdges.
Context {TY : Types} {RT : Runtime TY}.

Lemma not_ok {A} (r : result A) : (forall a, r <> Ok a) -> is_ok r = false.
Proof. destruct r as [a|e]; [intros H; now destruct (H a)|reflexivity]. Qed.

Lemma dec_finish_unbound (self : Dec.t) (output : Tensor) (coverage : option Tensor)
    (w : world) :
  Dec.postprocess_layer self = None ->
  Dec.finish self output coverage w = (w, Raise AttributeError).
Proof. intros H. unfold Dec.finish. now rewrite H. Qed.

Lemma dec_step_finish_unbound (self : Dec.t) (output : Tensor)
    (coverage : option Tensor) (ob : list Tensor) (w : world) :
  Dec.postprocess_layer self = None ->
  is_ok (Dec.step_finish self output coverage ob w).2 = false.
Proof.
  intros H. unfold Dec.step_finish. rewrite H.
  unfold mbind, M_bind, lift. now destruct (torch.stack ob).
Qed.

(** No forward of a decoder whose post-processing unit is unbound
    returns, in full or in grow mode. *)
Lemma dec_forward_unbound_postprocess (self : Dec.t) (input : LongTensor)
    (context : Tensor) (src : LongTensor) (grow : bool) (w : world) :
  Dec.postprocess_layer self = None ->
  is_ok (Dec.forward self input context src grow w).2 = false.
Proof.
  intros Hpost. apply not_ok. intros out Hout.
  destruct (Dec.forward self input context src grow w) as [w' r] eqn:Hrun.
  cbn in Hout. subst r. unfold Dec.forward, Dec.forward_grow in Hrun.
  destruct grow.
  - apply bind_ok in Hrun. destruct Hrun as (w1 & [[[[emb ms] mt] pmt] pms] & _ & Hrun).
    apply bind_ok in Hrun. destruct Hrun as (w2 & p & _ & Hrun).
    apply bind_ok in Hrun. destruct Hrun as (w3 & [o1 c1] & _ & Hrun).
    apply bind_ok in Hrun. destruct Hrun as (w4 & [o2 c2] & _ & Hrun).
    rewrite (dec_finish_unbound self o2 c2 w4 Hpost) in Hrun. discriminate.
  - apply bind_ok in Hrun. destruct Hrun as (w1 & [[[[emb ms] mt] pmt] pms] & _ & Hrun).
    apply bind_ok in Hrun. destruct Hrun as (w2 & [o1 c1] & _ & Hrun).
    rewrite (dec_finish_unbound self o1 c1 w2 Hpost) in Hrun. discriminate.
Qed.

Lemma dec_step_unbound_postprocess (self : Dec.t) (input : LongTensor)
    (context : Tensor) (src : LongTensor) (buffer : option (list Tensor)) (w : world) :
  Dec.postprocess_layer self = None ->
  is_ok (Dec.step self input context src buffer w).2 = false.
Proof.
  intros Hpost. apply not_ok. intros out Hout.
  destruct (Dec.step self input context src buffer w) as [w' r] eqn:Hrun.
  cbn in Hout. subst r. unfold Dec.step in Hrun.
  apply bind_ok in Hrun. destruct Hrun as (w1 & [[[emb mt] ms] b] & _ & Hrun).
  apply bind_ok in Hrun. destruct Hrun as (w2 & [[o c] ob] & _ & Hrun).
  pose proof (dec_step_finish_unbound self o c ob w2 Hpost) as Hfin.
  rewrite Hrun in Hfin. discriminate.
Qed.

Lemma dec_add_layers_unbound_postprocess (self : Dec.t) (n : Z) (w : world) :
  Dec.postprocess_layer self = None ->
  (1 <= n)%Z ->
  (Dec.add_layers self n w).2 = Raise AttributeError.
Proof.
  intros Hpost Hn. unfold Dec.add_layers. rewrite (range_positive n Hn).
  cbn [for_each]. unfold mbind at 1, M_bind at 1.
  unfold Dec.add_layers_body at 1, Dec.new_layer.
  unfold mbind, M_bind, mret, M_ret, draw, getattr. cbn. now rewrite Hpost.
Qed.

(** X4.  A decoder built with a version other than 1.0 has no
    post-processing unit, and nothing it offers returns: every forward
    (full and grow) and every step raises, and so does [add_layers(n)]
    for [n >= 1], with AttributeError.  The constructor does return such
    a decoder, for every dictionary that can be embedded and every
    positional encoder whose maximum length is not negative. *)
Theorem decoder_version_without_postprocess (o : opt.t) (dicts_size : Z)
    (p : PositionalEncoding) (w : world) :
  Qeq_bool (opt.version o) 1 = false ->
  (embeddable dicts_size (opt.model_size o) PAD -> (0 <= len_max p)%Z ->
   exists w' self, Dec.init o dicts_size (Some p) w = (w', Ok self))
  /\
  (forall pe w' self,
     Dec.init o dicts_size pe w = (w', Ok self) ->
     Dec.postprocess_layer self = None
     /\ (forall input context src grow w1,
           is_ok (Dec.forward self input context src grow w1).2 = false)
     /\ (forall input context src buffer w1,
           is_ok (Dec.step self input context src buffer w1).2 = false)
     /\ (forall n w1, (1 <= n)%Z ->
           (Dec.add_layers self n w1).2 = Raise AttributeError)).
Proof.
  intros Hv. split.
  - intros Hemb Hp.
    destruct (dec_init_spec o dicts_size p w Hemb Hp) as (w' & self & Hrun & _).
    now exists w', self.
  - intros pe w' self Hinit.
    pose proof (dec_init_embeddable _ _ _ _ _ _ Hinit) as Hemb.
    destruct (dec_init_run o dicts_size pe w Hemb)
      as (g & tt & pp & post & wl & ls & Hrun & _ & _ & Hnone).
    rewrite (Hnone Hv), Hinit in Hrun.
    assert (Hpost : Dec.postprocess_layer self = None).
    { symmetry in Hrun. apply bind_ok in Hrun. destruct Hrun as (w1 & p1 & _ & Hrun).
      apply bind_ok in Hrun. destruct Hrun as (w2 & mask & _ & Hrun).
      injection Hrun as _ <-. reflexivity. }
    split; [exact Hpost|]. split; [|split].
    + intros. now apply dec_forward_unbound_postprocess.
    + intros. now apply dec_step_unbound_postprocess.
    + intros. now apply dec_add_layers_unbound_postprocess.
Qed.

(** X5.  A decoder without layers cannot run either.  Its forward never
    returns: with the post-processing unit bound it raises
    UnboundLocalError for [coverage], which only the loop binds.  Its step
    never returns: [torch.stack] of the empty list of layer buffers
    raises RuntimeError. *)
Theorem decoder_without_layers_cannot_run (self : Dec.t) (input : LongTensor)
    (context : Tensor) (src : LongTensor) (buffer : option (list Tensor))
    (w : world) :
  Dec.layer_modules self = [] ->
  (is_ok (Dec.forward self input context src false w).2 = false
   /\ (is_ok (Dec.embed self input src w).2 = true ->
       is_Some (Dec.postprocess_layer self) ->
       (Dec.forward self input context src false w).2 = Raise UnboundLocalError))
  /\
  (is_ok (Dec.step self input context src buffer w).2 = false
   /\ (is_ok (Dec.step_prepare self input src buffer w).2 = true ->
       (Dec.step self input context src buffer w).2 = Raise RuntimeError)).
Proof.
  intros Hls. split.
  - destruct (Dec.embed self input src w) as [w1 [[[[[emb ms] mt] pmt] pms]|e]] eqn:He.
    + assert (Hf : Dec.forward self input context src false w
                   = Dec.finish self emb None w1).
      { unfold Dec.forward. unfold mbind at 1, M_bind at 1. rewrite He, Hls.
        reflexivity. }
      rewrite Hf. unfold Dec.finish.
      destruct (Dec.postprocess_layer self) as [post|].
      * split; [reflexivity|]. intros _ _. reflexivity.
      * split; [reflexivity|]. now intros _ [? ?].
    + rewrite (dec_forward_embed_fails self input context src w w1 e He).
      split; [reflexivity|discriminate].
  - destruct (Dec.step_prepare self input src buffer w)
      as [w1 [[[[emb mt] ms] b]|e]] eqn:Hp.
    + assert (Hf : Dec.step self input context src buffer w
                   = Dec.step_finish self emb None [] w1).
      { unfold Dec.step. unfold mbind at 1, M_bind at 1. rewrite Hp, Hls.
        reflexivity. }
      rewrite Hf. split; reflexivity.
    + assert (Hf : Dec.step self input context src buffer w = (w1, Raise e)).
      { unfold Dec.step. unfold mbind at 1, M_bind at 1. now rewrite Hp. }
      rewrite Hf. split; [reflexivity|discriminate].
Qed.

End DecoderEdges.

(** ** Grow mode against full mode *)

Section GrowMode.
Context {TY : Types} {RT : Runtime TY}.

Lemma enc_run_app (tr : bool) (ms pm : ByteTensor) (f : nat -> bool)
    (l1 l2 : list EncoderLayer) :
  forall (i : nat) (ctx : Tensor) (g : Rng),
  enc_run tr ms pm f i (l1 ++ l2) ctx g
  = let r1 := enc_run tr ms pm f i l1 ctx g in
    let r2 := enc_run tr ms pm f (i + length l1) l2 (enc_final ctx r1.1) r1.2 in
    (r1.1 ++ r2.1, r2.2).
Proof.
  induction l1 as [|layer l1 IH]; intros i ctx g.
  - cbn. rewrite Nat.add_0_r. now destruct (enc_run tr ms pm f i l2 ctx g).
  - cbn [app enc_run length]. cbv zeta. rewrite IH. cbv zeta. cbn.
    now rewrite ?Nat.add_succ_r.
Qed.

(** The marks apart, a run does not depend on how its calls are marked. *)
Lemma enc_run_marks (tr : bool) (ms pm : ByteTensor) (f f' : nat -> bool)
    (ls : list EncoderLayer) :
  forall (i i' : nat) (ctx : Tensor) (g : Rng),
  (enc_run tr ms pm f i ls ctx g).2 = (enc_run tr ms pm f' i' ls ctx g).2
  /\ map ec_norm_input (enc_run tr ms pm f i ls ctx g).1
     = map ec_norm_input (enc_run tr ms pm f' i' ls ctx g).1
  /\ enc_final ctx (enc_run tr ms pm f i ls ctx g).1
     = enc_final ctx (enc_run tr ms pm f' i' ls ctx g).1.
Proof.
  induction ls as [|layer ls IH]; intros i i' ctx g; [easy|].
  cbn. destruct (IH (S i) (S i')
                   (ParallelEncoderLayer_forward layer tr ctx ms pm g).1.1
                   (ParallelEncoderLayer_forward layer tr ctx ms pm g).2)
    as (H1 & H2 & H3).
  split; [exact H1|]. split; [now rewrite H2|exact H3].
Qed.

(** A loop of [forward_grow] over the indices [off + a, off + a + k) is
    the run of the layers at those indices, none of them inside
    [checkpoint].  The first loop ([skip]) keeps the normalized inputs of
    the indices above zero, the second keeps them all. *)
Lemma enc_grow_loop_run (self : Enc.t) (ms pm : ByteTensor) (skip : bool)
    (off : Z) (body : Z -> Tensor * list Tensor -> M (Tensor * list Tensor)) :
  (forall z ctx bank,
      body z (ctx, bank)
      = (layer ← lift (getitem (Enc.layer_modules self) (off + z)%Z);
         '(ctx', norm_input) ← Enc.call_layer self layer (ctx, ms, pm);
         mret (ctx', if (if skip then (0 <? z)%Z else true)
                     then bank ++ [norm_input] else bank))) ->
  (0 <= off)%Z ->
  forall (k a : nat) (ctx : Tensor) (bank : list Tensor) (w : world),
  Z.to_nat off + a + k <= length (Enc.layer_modules self) ->
  let run := enc_run (Enc.training self) ms pm (fun _ => recompute w) a
               (take k (drop (Z.to_nat off + a) (Enc.layer_modules self)))
               ctx (rng w) in
  for_each body (map Z.of_nat (seq a k)) (ctx, bank) w
  = (mk_world run.2 (recompute w) (trace w ++ map EncoderLayerCall run.1),
     Ok (enc_final ctx run.1,
         bank ++ map ec_norm_input (if skip then drop (1 - a) run.1 else run.1))).
Proof.
  intros Hbody Hoff. induction k as [|k IH]; intros a ctx bank w Hlen.
  - cbv zeta. rewrite take_0. cbn [seq map for_each enc_run fst snd enc_final].
    rewrite drop_nil.
    destruct skip; cbn [map]; now rewrite world_eta, app_nil_r.
  - cbv zeta. cbn [seq map for_each]. unfold mbind at 1, M_bind at 1.
    rewrite Hbody.
    destruct (lookup_lt_is_Some_2 (Enc.layer_modules self) (Z.to_nat off + a))
      as [layer Hlayer]; [lia|].
    assert (Hget : getitem (Enc.layer_modules self) (off + Z.of_nat a)%Z = Ok layer).
    { unfold getitem. cbv zeta.
      destruct (Z.ltb_spec (off + Z.of_nat a) 0) as [|_]; [lia|].
      destruct (Z.ltb_spec (off + Z.of_nat a) 0) as [|_]; [lia|].
      replace (Z.to_nat (off + Z.of_nat a)) with (Z.to_nat off + a) by lia.
      now rewrite Hlayer. }
    rewrite Hget. unfold Enc.call_layer.
    unfold mbind, M_bind, mret, M_ret, lift, draw, get_recompute, log.
    cbn [fst snd rng recompute trace].
    rewrite (drop_S _ layer _ Hlayer). cbn [take enc_run].
    destruct (ParallelEncoderLayer_forward layer (Enc.training self) ctx ms pm (rng w))
      as [[out norm] g] eqn:Hr. cbn [fst snd].
    specialize (IH (S a) out
                  (if (if skip then (0 <? Z.of_nat a)%Z else true)
                   then bank ++ [norm] else bank)
                  (mk_world g (recompute w)
                     (trace w ++ [EncoderLayerCall
                                    (mk_enc_call (recompute w) layer ctx out norm)]))).
    cbv zeta in IH. cbn [rng recompute trace] in IH.
    replace (Z.to_nat off + S a) with (S (Z.to_nat off + a)) in IH by lia.
    unfold mbind, M_bind in IH. cbn [rng recompute trace]. rewrite IH by lia.
    cbn [map enc_final ec_out fst snd].
    rewrite <- !app_assoc. cbn [app]. do 3 f_equal.
    destruct skip; [|cbn; now rewrite <- app_assoc].
    destruct a as [|a]; [reflexivity|].
    replace (0 <? Z.of_nat (S a))%Z with true by (symmetry; apply Z.ltb_lt; lia).
    cbn. now rewrite <- app_assoc.
Qed.

Lemma enc_final_app (ctx : Tensor) (cs1 cs2 : list enc_call) :
  enc_final ctx (cs1 ++ cs2) = enc_final (enc_final ctx cs1) cs2.
Proof. revert ctx. induction cs1 as [|c cs1 IH]; intros ctx; cbn; [reflexivity|apply IH]. Qed.

Lemma enc_run_length (tr : bool) (ms pm : ByteTensor) (f : nat -> bool)
    (ls : list EncoderLayer) (i : nat) (ctx : Tensor) (g : Rng) :
  length (enc_run tr ms pm f i ls ctx g).1 = length ls.
Proof.
  destruct (enc_run_layers tr ms pm f ls i ctx g) as [H _].
  now rewrite <- H at 2; rewrite length_map.
Qed.

(** What [forward_grow] does after the embedding went through: the run
    of the layers below the pretrained point, then the run of the layers
    from that point on. *)
Lemma enc_forward_grow_run (self : Enc.t) (input : LongTensor) (w w1 : world)
    (emb : Tensor) (ms pm : ByteTensor) (p : Z) :
  Enc.embed self input w = (w1, Ok (emb, ms, pm)) ->
  Enc.pretrained_point self = Some p ->
  (0 <= p)%Z ->
  Z.to_nat p + Z.to_nat (Enc.layers self - p) <= length (Enc.layer_modules self) ->
  let run1 := enc_run (Enc.training self) ms pm (fun _ => recompute w1) 0
                (take (Z.to_nat p) (Enc.layer_modules self)) emb (rng w1) in
  let run2 := enc_run (Enc.training self) ms pm (fun _ => recompute w1) 0
                (take (Z.to_nat (Enc.layers self - p))
                   (drop (Z.to_nat p) (Enc.layer_modules self)))
                (enc_final emb run1.1) run1.2 in
  let post := PrePostProcessing_forward (Enc.postprocess_layer self)
                (Enc.training self) (enc_final (enc_final emb run1.1) run2.1) run2.2 in
  Enc.forward self input true w
  = (mk_world post.2 (recompute w1)
       (trace w1 ++ map EncoderLayerCall run1.1 ++ map EncoderLayerCall run2.1),
     match torch.stack (map ec_norm_input (drop 1 run1.1)
                        ++ map ec_norm_input run2.1 ++ [post.1]) with
     | Ok memory_bank => Ok (memory_bank, ms)
     | Raise e => Raise e
     end).
Proof.
  intros He Hp H0 Hlen. cbv zeta. unfold Enc.forward, Enc.forward_grow.
  unfold mbind at 1, M_bind at 1. rewrite He, Hp.
  unfold getattr. unfold mbind at 1, M_bind at 1. unfold mret at 1, M_ret at 1.
  unfold mbind at 1, M_bind at 1. unfold range.
  match goal with
  | |- context [for_each ?b (map Z.of_nat (seq 0 (Z.to_nat p)))] =>
      rewrite (enc_grow_loop_run self ms pm true 0 b
                 ltac:(intros z ctx bank; reflexivity) ltac:(lia)
                 (Z.to_nat p) 0 emb [] w1 ltac:(cbn; lia))
  end.
  cbv zeta. cbn [Z.to_nat Nat.add drop app Nat.sub].
  unfold mbind at 1, M_bind at 1.
  match goal with
  | |- context [for_each ?b (map Z.of_nat (seq 0 (Z.to_nat (Enc.layers self - p))))] =>
      rewrite (enc_grow_loop_run self ms pm false p b
                 ltac:(intros z ctx bank; reflexivity) H0
                 (Z.to_nat (Enc.layers self - p)) 0 _ _ _ ltac:(lia))
  end.
  cbv zeta. cbn [rng recompute trace].
  unfold Enc.finish, mbind, M_bind, mret, M_ret, draw, lift. cbn [fst snd rng recompute trace].
  change (Z.to_nat 0) with 0. rewrite drop_0, Nat.add_0_r, <- !app_assoc.
  now destruct (torch.stack _).
Qed.

(** A run of all the layers is the run of the first [n] followed by the
    run of the others, however the calls are marked. *)
Lemma enc_run_split (tr : bool) (ms pm : ByteTensor) (f f1 f2 : nat -> bool)
    (ls : list EncoderLayer) (n : nat) (ctx : Tensor) (g : Rng) :
  let full := enc_run tr ms pm f 0 ls ctx g in
  let r1 := enc_run tr ms pm f1 0 (take n ls) ctx g in
  let r2 := enc_run tr ms pm f2 0 (drop n ls) (enc_final ctx r1.1) r1.2 in
  full.2 = r2.2
  /\ map ec_norm_input full.1 = map ec_norm_input r1.1 ++ map ec_norm_input r2.1
  /\ enc_final ctx full.1 = enc_final (enc_final ctx r1.1) r2.1.
Proof.
  cbv zeta.
  assert (Hs : enc_run tr ms pm f 0 ls ctx g
               = enc_run tr ms pm f 0 (take n ls ++ drop n ls) ctx g)
    by now rewrite take_drop.
  rewrite Hs, enc_run_app. cbv zeta. cbn [fst snd].
  destruct (enc_run_marks tr ms pm f f1 (take n ls) 0 0 ctx g) as (Ha & Hb & Hc).
  rewrite map_app, enc_final_app, Ha, Hb, Hc.
  destruct (enc_run_marks tr ms pm f f2 (drop n ls) (0 + length (take n ls)) 0
              (enc_final ctx (enc_run tr ms pm f1 0 (take n ls) ctx g).1)
              (enc_run tr ms pm f1 0 (take n ls) ctx g).2) as (Ha' & Hb' & Hc').
  now rewrite Ha', Hb', Hc'.
Qed.

Lemma enc_grow_agrees (self : Enc.t) (input : LongTensor) (p : Z) (w : world) :
  Enc.pretrained_point self = Some p ->
  (1 <= p <= Enc.layers self)%Z ->
  Enc.layers self = Z.of_nat (length (Enc.layer_modules self)) ->
  agree (Enc.forward self input true w) (Enc.forward self input false w).
Proof.
  intros Hp Hrange HN. unfold agree.
  destruct (Enc.embed self input w) as [w1 [[[emb ms] pm]|e]] eqn:He.
  - rewrite (enc_forward_full_run self input w w1 emb ms pm He).
    rewrite (enc_forward_grow_run self input w w1 emb ms pm p He Hp) by lia.
    cbv zeta.
    rewrite (take_ge (drop (Z.to_nat p) (Enc.layer_modules self)))
      by (rewrite length_drop; lia).
    match goal with
    | |- context [enc_run _ _ _ ?f 0 (Enc.layer_modules self) emb (rng w1)] =>
        destruct (enc_run_split (Enc.training self) ms pm f
                    (fun _ => recompute w1) (fun _ => recompute w1)
                    (Enc.layer_modules self) (Z.to_nat p) emb (rng w1))
          as (Hg & Hn & Hf);
        cbv zeta in Hg, Hn, Hf;
        rewrite <- (skipn_map ec_norm_input 1
                      (enc_run (Enc.training self) ms pm f 0
                         (Enc.layer_modules self) emb (rng w1)).1)
    end.
    rewrite Hn, Hf, Hg.
    rewrite drop_app_le
      by (rewrite length_map, enc_run_length, length_take; lia).
    rewrite skipn_map, <- app_assoc.
    split; [|now destruct (torch.stack _)].
    now destruct (torch.stack _).
  - rewrite (enc_forward_embed_fails self input w w1 e He).
    assert (Hf : Enc.forward self input true w = (w1, Raise e)).
    { unfold Enc.forward, Enc.forward_grow. unfold mbind at 1, M_bind at 1.
      now rewrite He. }
    now rewrite Hf.
Qed.

(** X6.  An encoder whose pretrained point [p] lies between 1 and its
    number of layers, this number being the length of its list of
    layers: [forward(input, grow=True)] returns what [forward(input)]
    returns, the memory bank and the mask or the exception, and leaves the
    random generator in the same state. *)
Theorem encoder_grow_forward_agrees (self : Enc.t) (input : LongTensor) (p : Z)
    (w : world) :
  Enc.pretrained_point self = Some p ->
  (1 <= p <= Enc.layers self)%Z ->
  Enc.layers self = Z.of_nat (length (Enc.layer_modules self)) ->
  (Enc.forward self input true w).2 = (Enc.forward self input false w).2
  /\ rng (Enc.forward self input true w).1 = rng (Enc.forward self input false w).1.
Proof. intros Hp Hrange HN. exact (enc_grow_agrees self input p w Hp Hrange HN). Qed.

(** X7.  An encoder whose pretrained point is 0: [forward(input, grow=True)]
    keeps the normalized input of every layer, the first one too, so the
    memory bank it returns has one slice more than the encoder has
    layers. *)
Theorem encoder_grow_forward_from_zero (self : Enc.t) (input : LongTensor)
    (w w' : world) (memory_bank : Tensor) (mask_src : ByteTensor) :
  Enc.pretrained_point self = Some 0%Z ->
  Enc.layers self = Z.of_nat (length (Enc.layer_modules self)) ->
  Enc.forward self input true w = (w', Ok (memory_bank, mask_src)) ->
  torch.size memory_bank 0 = Ok (length (Enc.layer_modules self) + 1).
Proof.
  intros Hp HN Hf.
  destruct (Enc.embed self input w) as [w1 [[[emb ms] pm]|e]] eqn:He.
  - rewrite (enc_forward_grow_run self input w w1 emb ms pm 0 He Hp) in Hf by lia.
    cbv zeta in Hf.
    match type of Hf with
    | context [torch.stack ?bank] =>
        destruct (torch.stack bank) as [mb|e] eqn:Hst; [|discriminate];
        apply stack_size in Hst
    end.
    injection Hf as _ <- _. rewrite Hst. f_equal.
    change (Z.to_nat 0) with 0. rewrite take_0, drop_0. cbn [enc_run fst snd drop map app].
    rewrite length_app, length_map, enc_run_length, length_take. cbn [length]. lia.
  - unfold Enc.forward, Enc.forward_grow in Hf. unfold mbind at 1, M_bind at 1 in Hf.
    rewrite He in Hf. discriminate.
Qed.

End GrowMode.

(** ** The attention mask of the decoder *)

Section AttentionMask.
Context {TY : Types} {RT : Runtime TY}.

Lemma nth_concat_uniform {A} (ls : list (list A)) (c i j : nat) (d : A) :
  Forall (fun x => length x = c) ls -> j < c ->
  nth (i * c + j) (concat ls) d = nth j (nth i ls []) d.
Proof.
  intros Hall Hj. revert i. induction Hall as [|x ls Hx _ IH]; intros i.
  - cbn. now destruct i, (_ + _), j.
  - destruct i as [|i]; cbn [concat nth].
    + cbn. apply app_nth1. lia.
    + rewrite app_nth2 by (cbn; lia).
      replace (S i * c + j - length x) with (i * c + j) by (cbn; lia).
      apply IH.
Qed.

Lemma slice2_shape {A} (t : tensor A) (L r : nat) :
  shape t = [L; L] -> r <= L ->
  exists s, torch.slice2 t r r = Ok s /\ shape s = [r; r].
Proof.
  intros Hs Hr. unfold torch.slice2. rewrite Hs.
  eexists. split; [reflexivity|]. cbn [shape]. now rewrite Nat.min_l by exact Hr.
Qed.

(** An entry of [t[:r, :r]] for a matrix [t]. *)
Lemma slice2_get (t s : tensor Z) (L r i j : nat) :
  shape t = [L; L] -> length (data t) = L * L -> r <= L ->
  torch.slice2 t r r = Ok s -> i < r -> j < r ->
  torch.get s [i; j] = torch.get t [i; j].
Proof.
  intros Hs Hd Hr Hsl Hi Hj. unfold torch.slice2 in Hsl. rewrite Hs in Hsl.
  injection Hsl as <-. rewrite Nat.min_l by exact Hr.
  unfold torch.get. cbn [shape data]. rewrite Hs. cbn [torch.ravel torch.numel fold_right].
  replace (i * (r * 1) + (j * 1 + 0)) with (i * (r * 1) + j) by lia.
  rewrite nth_concat_uniform.
  - rewrite (nth_lookup (map _ _)), list_lookup_fmap, lookup_seq_lt by exact Hi.
    cbn. rewrite !nth_lookup, lookup_take, lookup_drop.
    destruct (decide (j < r * 1)) as [_|]; [|lia].
    do 2 f_equal. lia.
  - apply Forall_forall. intros x Hx. apply list_elem_of_In, in_map_iff in Hx.
    destruct Hx as (k & <- & Hk). apply in_seq in Hk.
    rewrite length_take, length_drop. nia.
  - lia.
Qed.

Lemma get_map_data_in_range (f : Z -> Z) (t : tensor Z) (idx : list nat) :
  torch.ravel (shape t) idx < length (data t) ->
  torch.get (torch.map_data f t) idx = f (torch.get t idx).
Proof.
  intros H. unfold torch.get, torch.map_data; cbn.
  rewrite !nth_lookup, list_lookup_fmap.
  destruct (lookup_lt_is_Some_2 (data t) _ H) as [x ->]. reflexivity.
Qed.

(** [1 - mask_src.squeeze(1)] is [src.ne(PAD)] again. *)
Lemma rsub_eq_is_ne (src : LongTensor) :
  torch.rsub 1 (torch.eq src PAD) = torch.ne src PAD.
Proof.
  unfold torch.rsub, torch.eq, torch.ne, torch.map_data. cbn [shape data].
  f_equal. rewrite map_map. apply map_ext. intros x.
  now destruct (x =? PAD)%Z.
Qed.

Lemma broadcast_padding_causal (b l : nat) :
  torch.broadcast_rev (rev [b; 1; l]) (rev [l; l]) = Some (rev [b; l; l]).
Proof.
  cbn. rewrite Nat.eqb_refl. now destruct l as [|[|l]].
Qed.

(** The padding of one target position, broadcast over the queries. *)
Lemma get_broadcast_padding (t : tensor Z) (b l k i j : nat) :
  shape t = [b; 1; l] -> k < b -> j < l ->
  torch.get_broadcast t [k; i; j] = nth (k * l + j) (data t) 0%Z.
Proof.
  intros Hs Hk Hj. unfold torch.get_broadcast, torch.get. rewrite Hs. cbn.
  f_equal.
  destruct (Nat.eqb_spec l 1), (Nat.eqb_spec b 1); cbn; nia.
Qed.

(** The causal mask, broadcast over the batch. *)
Lemma get_broadcast_matrix (t : tensor Z) (l k i j : nat) :
  shape t = [l; l] -> i < l -> j < l ->
  torch.get_broadcast t [k; i; j] = torch.get t [i; j].
Proof.
  intros Hs Hi Hj. unfold torch.get_broadcast, torch.get. rewrite Hs. cbn.
  f_equal.
  destruct (Nat.eqb_spec l 1); cbn; nia.
Qed.

(** The masks of a (batch, length) input no longer than the causal mask. *)
Lemma dec_masks_run (self : Dec.t) (input src : LongTensor) (b l bs ls L : nat)
    (w : world) :
  strictly_upper L (Dec.mask self) ->
  shape input = [b; l] -> length (data input) = b * l ->
  shape src = [bs; ls] ->
  l <= L ->
  exists mask_tgt,
    Dec.masks self input src w
    = (w, Ok (mk_tensor [bs; 1; ls] (data (torch.eq src PAD)), mask_tgt,
              torch.ne input PAD, torch.ne src PAD))
    /\ shape mask_tgt = [b; l; l]
    /\ length (data mask_tgt) = b * (l * l)
    /\ forall k i j, k < b -> i < l -> j < l ->
         torch.get mask_tgt [k; i; j]
         = if (torch.get input [k; j] =? PAD)%Z || (i <? j) then 1%Z else 0%Z.
Proof.
  intros (Hms & Hmd & Hup) Hin Hdata Hsrc Hl.
  destruct (slice2_shape (Dec.mask self) L l Hms Hl) as (s & Hsl & Hss).
  unfold Dec.masks, torch.unsqueeze, torch.size, torch.squeeze.
  cbn [shape torch.eq torch.map_data]. rewrite Hin, Hsrc.
  unfold mbind, M_bind, mret, M_ret, lift.
  cbn [length Nat.leb take drop app lookup list_lookup shape data fst snd].
  rewrite Hsl. unfold torch.add. cbn [shape]. rewrite Hss, broadcast_padding_causal, rev_involutive.
  eexists. split; [|split; [|split]].
  - do 3 f_equal. rewrite <- rsub_eq_is_ne. unfold torch.eq, torch.map_data.
    now rewrite Hsrc.
  - reflexivity.
  - cbn. rewrite !length_map, length_seq. lia.
  - intros k i j Hk Hi Hj. unfold torch.gt.
    rewrite get_map_data by reflexivity.
    rewrite get_tabulate by (repeat constructor; assumption).
    rewrite (get_broadcast_padding _ b l k i j) by (reflexivity || assumption).
    rewrite (get_broadcast_matrix s l k i j Hss Hi Hj).
    rewrite (slice2_get (Dec.mask self) s L l i j Hms Hmd Hl Hsl Hi Hj).
    unfold torch.eq, torch.map_data. cbn [data].
    assert (Hlt : k * l + j < length (data input)) by nia.
    destruct (lookup_lt_is_Some_2 (data input) _ Hlt) as [x Hx].
    rewrite nth_lookup, list_lookup_fmap, Hx. cbn [fmap option_fmap option_map default].
    unfold torch.get at 2. rewrite Hin. cbn [torch.ravel torch.numel fold_right].
    replace (k * (l * 1) + (j * 1 + 0)) with (k * l + j) by lia.
    rewrite nth_lookup, Hx. cbn [default]. unfold id.
    destruct (Hup i j ltac:(lia) ltac:(lia)) as [H1 H0].
    destruct (Nat.ltb_spec i j) as [Hij|Hij].
    + rewrite (proj2 H1 Hij), orb_true_r. now destruct (x =? PAD)%Z.
    + rewrite (proj2 H0 Hij), orb_false_r. now destruct (x =? PAD)%Z.
Qed.

(** The masks of an input longer than the causal mask: the sum of the
    padding and the causal mask does not broadcast. *)
Lemma dec_masks_too_long (self : Dec.t) (input src : LongTensor) (b l bs ls L : nat)
    (w : world) :
  shape (Dec.mask self) = [L; L] ->
  shape input = [b; l] -> shape src = [bs; ls] ->
  L < l -> 2 <= l -> L <> 1 ->
  Dec.masks self input src w = (w, Raise RuntimeError).
Proof.
  intros Hms Hin Hsrc HL Hl H1.
  unfold Dec.masks, torch.unsqueeze, torch.size, torch.squeeze, torch.slice2.
  cbn [shape torch.eq torch.map_data]. rewrite Hin, Hsrc, Hms.
  unfold mbind, M_bind, mret, M_ret, lift.
  cbn [length Nat.leb take drop app lookup list_lookup shape data fst snd].
  unfold torch.add. cbn [shape rev app torch.broadcast_rev].
  rewrite Nat.min_r by lia.
  destruct (Nat.eqb_spec 1 L) as [|_]; [lia|]. cbn [Nat.eqb].
  destruct (Nat.eqb_spec l L) as [|_]; [lia|].
  destruct (Nat.eqb_spec l 1) as [|_]; [lia|].
  destruct (Nat.eqb_spec L 1) as [|_]; [lia|].
  reflexivity.
Qed.

Lemma dec_embed_needs_masks (self : Dec.t) (input src : LongTensor) (w w' : world) x :
  Dec.embed self input src w = (w', Ok x) ->
  exists w1, is_ok (Dec.masks self input src w1).2 = true.
Proof.
  intros H. unfold Dec.embed in H.
  apply bind_ok in H. destruct H as (w1 & e1 & _ & H).
  apply bind_ok in H. destruct H as (w2 & e2 & _ & H).
  apply bind_ok in H. destruct H as (w3 & e3 & _ & H).
  apply bind_ok in H. destruct H as (w4 & m & Hm & _).
  exists w3. now rewrite Hm.
Qed.

Lemma dec_step_prepare_needs_masks (self : Dec.t) (input src : LongTensor)
    (buffer : option (list Tensor)) (w w' : world) x :
  Dec.step_prepare self input src buffer w = (w', Ok x) ->
  exists w1, is_ok (Dec.masks self input src w1).2 = true.
Proof.
  intros H. unfold Dec.step_prepare in H.
  apply bind_ok in H. destruct H as (w1 & e1 & _ & H).
  apply bind_ok in H. destruct H as (w2 & e2 & _ & H).
  apply bind_ok in H. destruct H as (w3 & e3 & _ & H).
  apply bind_ok in H. destruct H as (w4 & e4 & _ & H).
  apply bind_ok in H. destruct H as (w5 & e5 & _ & H).
  destruct e5 as [e5 b5].
  apply bind_ok in H. destruct H as (w6 & e6 & _ & H).
  apply bind_ok in H. destruct H as (w7 & m & Hm & _).
  exists w6. now rewrite Hm.
Qed.

(** X8.  The attention mask over the target.  For a decoder whose causal
    mask was built for the length [n] and a (batch, length) input of
    length at most [n], the mask handed to the layers has the shape
    (batch, length, length) and suppresses position [j] for the query
    [i] of sentence [k] exactly when the token [j] of that sentence is
    the padding or [j > i].  The padding mask over the source that is
    computed last, [1 - mask_src.squeeze(1)], is [src.ne(PAD)] again. *)
Theorem decoder_attention_mask (self : Dec.t) (input src : LongTensor)
    (b l bs ls : nat) (n : Z) (w : world) :
  causal_mask n = Ok (Dec.mask self) ->
  shape input = [b; l] -> length (data input) = b * l ->
  shape src = [bs; ls] ->
  (Z.of_nat l <= n)%Z ->
  exists mask_src mask_tgt pad_mask_tgt pad_mask_src,
    Dec.masks self input src w
    = (w, Ok (mask_src, mask_tgt, pad_mask_tgt, pad_mask_src))
    /\ shape mask_tgt = [b; l; l]
    /\ (forall k i j, k < b -> i < l -> j < l ->
          torch.get mask_tgt [k; i; j]
          = if (torch.get input [k; j] =? PAD)%Z || (i <? j) then 1%Z else 0%Z)
    /\ pad_mask_tgt = torch.ne input PAD
    /\ pad_mask_src = torch.ne src PAD
    /\ mask_src = mk_tensor [bs; 1; ls] (data (torch.eq src PAD)).
Proof.
  intros Hmask Hin Hdata Hsrc Hl.
  destruct (causal_mask_strictly_upper n ltac:(lia)) as (m & Hm & Hup).
  rewrite Hmask in Hm. injection Hm as <-.
  destruct (dec_masks_run self input src b l bs ls (Z.to_nat n) w Hup Hin Hdata Hsrc
              ltac:(lia)) as (mt & Hrun & Hshape & _ & Hget).
  exists (mk_tensor [bs; 1; ls] (data (torch.eq src PAD))), mt,
    (torch.ne input PAD), (torch.ne src PAD).
  split; [exact Hrun|]. split; [exact Hshape|]. split; [exact Hget|].
  split; [reflexivity|]. split; reflexivity.
Qed.

(** X9.  An input longer than the length [n] the causal mask was built
    for (of two tokens or more, [n] other than 1) is rejected: the sum of
    the padding and the causal mask raises RuntimeError, so no forward,
    full or grow, and no step returns for it. *)
Theorem decoder_rejects_longer_input (self : Dec.t) (input : LongTensor)
    (context : Tensor) (src : LongTensor) (buffer : option (list Tensor))
    (b l bs ls : nat) (n : Z) (grow : bool) (w : world) :
  causal_mask n = Ok (Dec.mask self) ->
  shape input = [b; l] -> shape src = [bs; ls] ->
  (n < Z.of_nat l)%Z -> 2 <= l -> n <> 1%Z ->
  Dec.masks self input src w = (w, Raise RuntimeError)
  /\ is_ok (Dec.forward self input context src grow w).2 = false
  /\ is_ok (Dec.step self input context src buffer w).2 = false.
Proof.
  intros Hmask Hin Hsrc Hn Hl H1.
  assert (H0 : (0 <= n)%Z).
  { unfold causal_mask in Hmask. destruct (Z.ltb_spec n 0); [discriminate|lia]. }
  destruct (causal_mask_strictly_upper n H0) as (m & Hm & Hms & _).
  rewrite Hmask in Hm. injection Hm as <-.
  assert (Hraise : forall w1, Dec.masks self input src w1 = (w1, Raise RuntimeError)).
  { intros w1. apply (dec_masks_too_long self input src b l bs ls (Z.to_nat n));
      try assumption; lia. }
  split; [apply Hraise|]. split.
  - apply not_ok. intros out Hout.
    destruct (Dec.forward self input context src grow w) as [w' r] eqn:Hrun.
    cbn in Hout. subst r. unfold Dec.forward, Dec.forward_grow in Hrun.
    destruct grow; apply bind_ok in Hrun; destruct Hrun as (w1 & x & He & _);
      destruct (dec_embed_needs_masks _ _ _ _ _ _ He) as (w2 & Hok);
      now rewrite Hraise in Hok.
  - apply not_ok. intros out Hout.
    destruct (Dec.step self input context src buffer w) as [w' r] eqn:Hrun.
    cbn in Hout. subst r. unfold Dec.step in Hrun.
    apply bind_ok in Hrun. destruct Hrun as (w1 & x & He & _).
    destruct (dec_step_prepare_needs_masks _ _ _ _ _ _ _ He) as (w2 & Hok).
    now rewrite Hraise in Hok.
Qed.

End AttentionMask.

(** ** The buffer of a step *)

Section StepBuffer.
Context {TY : Types} {RT : Runtime TY}.

(** What a layer's step is handed for the entry [i] of [buffer]. *)
Lemma step_body_buffer (self : Dec.t) (context : Tensor) (mt ms : ByteTensor)
    (buffer : option (list Tensor)) (i : nat) (layer : DecoderLayer)
    (st : Tensor * option Tensor * list Tensor) (w : world) :
  (exists e, Dec.step_body self context mt ms buffer i layer st w = (w, Raise e))
  \/ (exists c g out cov,
        Dec.step_body self context mt ms buffer i layer st w
        = (mk_world g (recompute w) (trace w ++ [DecoderLayerStep c]),
           Ok (out, Some cov, st.2 ++ [(DecoderLayer_step layer (Dec.training self)
                                          st.1.1 (sc_memory c) mt ms
                                          (sc_buffer c) (rng w)).1.2]))
        /\ torch.index0 context (Z.of_nat i) = Ok (sc_memory c)
        /\ sc_buffer c = match buffer with
                         | Some b => b !! i
                         | None => None
                         end
        /\ (forall b, buffer = Some b -> i < length b)).
Proof.
  destruct st as [[output cov] ob]. unfold Dec.step_body, Dec.call_layer_step.
  unfold mbind, M_bind, mret, M_ret, lift, raise, log, draw.
  assert (Hget : forall b : list Tensor,
             match getitem b (Z.of_nat i) with
             | Ok x => b !! i = Some x
             | Raise _ => True
             end).
  { intros b. unfold getitem. cbv zeta.
    destruct (Z.ltb_spec (Z.of_nat i) 0) as [|_]; [lia|].
    destruct (Z.ltb_spec (Z.of_nat i) 0) as [|_]; [lia|].
    rewrite Nat2Z.id. now destruct (b !! i). }
  destruct buffer as [b|];
    [specialize (Hget b); destruct (getitem b (Z.of_nat i)) as [x|e]; [|left; eauto]|];
    (destruct (torch.size output 1) as [s|e] eqn:Hs; [|left; eauto]);
    (destruct (Nat.eqb_spec s 1) as [->|Hne]; [|left; eauto]);
    (destruct (torch.index0 context (Z.of_nat i)) as [memory|e] eqn:Hi;
     [|left; eauto]);
    right; cbn;
    destruct (DecoderLayer_step _ _ _ _ _ _ _ _) as [[[out coverage] buffer_] g] eqn:Hstep;
    eexists (mk_step_call layer output memory _), _, _, _; cbn [sc_memory sc_buffer];
    rewrite Hstep; (split; [reflexivity|]); (split; [reflexivity|]);
    (split; [now rewrite ?Hget|]).
  - intros b' [= <-]. now apply lookup_lt_Some in Hget.
  - discriminate.
Qed.

Lemma dec_step_loop_buffer (self : Dec.t) (context : Tensor) (mt ms : ByteTensor)
    (buffer : option (list Tensor)) (ls : list DecoderLayer) :
  forall (i : nat) (st : Tensor * option Tensor * list Tensor) (w : world),
  exists calls g r,
    for_enumerate (Dec.step_body self context mt ms buffer) i ls st w
    = (mk_world g (recompute w) (trace w ++ map DecoderLayerStep calls), r)
    /\ (forall k c, calls !! k = Some c ->
          torch.index0 context (Z.of_nat (i + k)) = Ok (sc_memory c)
          /\ sc_buffer c = match buffer with
                           | Some b => b !! (i + k)
                           | None => None
                           end
          /\ forall b, buffer = Some b -> i + k < length b)
    /\ (forall st', r = Ok st' ->
          length calls = length ls /\ length st'.2 = length st.2 + length ls).
Proof.
  induction ls as [|layer ls IH]; intros i st w.
  - exists [], (rng w), (Ok st). cbn [for_enumerate map]. rewrite world_eta.
    split; [reflexivity|]. split.
    + intros k c H. now rewrite lookup_nil in H.
    + intros st' [= <-]. cbn. lia.
  - cbn [for_enumerate]. unfold mbind at 1, M_bind at 1.
    destruct (step_body_buffer self context mt ms buffer i layer st w)
      as [[e ->]|(c & g & out & cov & -> & Hmem & Hbuf & Hlt)].
    + exists [], (rng w), (Raise e). cbn [map]. rewrite world_eta.
      split; [reflexivity|]. split; [|discriminate].
      intros k c H. now rewrite lookup_nil in H.
    + match goal with
      | |- context [for_enumerate _ (S i) ls ?st1 ?w1] =>
          destruct (IH (S i) st1 w1) as (calls & g' & r & Hrun & Hcalls & Hlen)
      end.
      exists (c :: calls), g', r. rewrite Hrun. cbn [recompute trace map length].
      rewrite <- app_assoc. split; [reflexivity|]. split.
      * intros [|k] c' Hk.
        -- injection Hk as <-. now rewrite Nat.add_0_r.
        -- cbn in Hk. replace (i + S k) with (S i + k) by lia. now apply Hcalls.
      * intros st' Hr. destruct (Hlen st' Hr) as [H1 H2].
        cbn [snd] in H2. rewrite length_app in H2. cbn [length] in H2. lia.
Qed.

(** Under the positional encoding the lines before the loop leave the
    buffer as it was given. *)
Lemma dec_step_prepare_positional (self : Dec.t) (input src : LongTensor)
    (buffer buffer' : option (list Tensor)) (w w1 : world)
    (emb : Tensor) (mt ms : ByteTensor) :
  Dec.time self = "positional_encoding" ->
  Dec.step_prepare self input src buffer w = (w1, Ok (emb, mt, ms, buffer')) ->
  buffer' = buffer.
Proof.
  intros Ht H. unfold Dec.step_prepare, Dec.step_time in H.
  rewrite (bool_decide_eq_true_2 _ Ht) in H. cbv beta iota in H.
  apply bind_ok in H. destruct H as (w2 & e1 & _ & H).
  apply bind_ok in H. destruct H as (w3 & e2 & _ & H).
  apply bind_ok in H. destruct H as (w4 & e3 & _ & H).
  apply bind_ok in H. destruct H as (w5 & e4 & _ & H).
  apply bind_ok in H. destruct H as (w6 & [e5 b5] & Hst & H).
  apply bind_ok in Hst. destruct Hst as (w7 & t & _ & Hst).
  apply bind_ok in Hst. destruct Hst as (w8 & e6 & _ & Hst).
  injection Hst as _ _ <-.
  apply bind_ok in H. destruct H as (w9 & e7 & _ & H).
  apply bind_ok in H. destruct H as (w10 & [[[m1 m2] m3] m4] & _ & H).
  apply bind_ok in H. destruct H as (w11 & e8 & _ & H).
  apply bind_ok in H. destruct H as (w12 & e9 & _ & H).
  now injection H as _ _ _ _ <-.
Qed.

(** What [step] did when it returned. *)
Lemma dec_step_returned (self : Dec.t) (input : LongTensor) (context : Tensor)
    (src : LongTensor) (buffer : option (list Tensor)) (w w' : world)
    (output coverage out_buffer : Tensor) :
  Dec.step self input context src buffer w = (w', Ok (output, coverage, out_buffer)) ->
  exists w1 emb mt ms buffer' calls,
    Dec.step_prepare self input src buffer w = (w1, Ok (emb, mt, ms, buffer'))
    /\ step_calls (trace w') = step_calls (trace w) ++ calls
    /\ length calls = length (Dec.layer_modules self)
    /\ torch.size out_buffer 0 = Ok (length (Dec.layer_modules self))
    /\ (forall k c, calls !! k = Some c ->
          torch.index0 context (Z.of_nat k) = Ok (sc_memory c)
          /\ sc_buffer c = match buffer' with
                           | Some b => b !! k
                           | None => None
                           end
          /\ forall b, buffer' = Some b -> k < length b).
Proof.
  intros H. unfold Dec.step in H.
  apply bind_ok in H. destruct H as (w1 & [[[emb mt] ms] buffer'] & Hp & H).
  apply bind_ok in H. destruct H as (w2 & [[o c] ob] & Hloop & Hfin).
  destruct (dec_step_loop_buffer self context mt ms buffer' (Dec.layer_modules self)
              0 (emb, None, []) w1) as (calls & g & r & Hrun & Hcalls & Hlen).
  rewrite Hrun in Hloop. injection Hloop as <- Hr.
  destruct (Hlen _ Hr) as [Hn Hob]. cbn [snd length Nat.add] in Hob.
  destruct (dec_step_prepare_emits self input src buffer _ _ _ Hp)
    as (_ & evs & Htr & Hevs).
  destruct (only_time_calls evs Hevs) as (_ & _ & Hstep).
  destruct (dec_step_finish_emits (fun _ => False) self o c ob _ _ _ Hfin)
    as (_ & evs' & Htr' & Hnone).
  rewrite (nothing_emitted _ Hnone), app_nil_r in Htr'. cbn [trace] in Htr'.
  exists w1, emb, mt, ms, buffer', calls.
  split; [exact Hp|]. split; [|split; [exact Hn|split; [|exact Hcalls]]].
  - rewrite Htr', Htr, !step_calls_app, Hstep, step_calls_map. now rewrite app_nil_r.
  - unfold Dec.step_finish in Hfin.
    apply bind_ok in Hfin. destruct Hfin as (w3 & stacked & Hst & Hfin).
    apply bind_ok in Hfin. destruct Hfin as (w4 & post & _ & Hfin).
    apply bind_ok in Hfin. destruct Hfin as (w5 & out' & _ & Hfin).
    destruct c as [cov|]; [|discriminate]. injection Hfin as _ _ _ <-.
    unfold lift in Hst. injection Hst as _ Hst.
    rewrite (stack_size _ _ Hst). f_equal. exact Hob.
Qed.

(** X10.  A step under the positional encoding that returns has called
    the step of every layer, layer [i] with the slice [i] of the memory
    bank and with the entry [i] of the buffer it was given (with [None]
    when it was given none), and returns a buffer with one slice per
    layer. *)
Theorem step_threads_buffer (self : Dec.t) (input : LongTensor) (context : Tensor)
    (src : LongTensor) (buffer : option (list Tensor)) (w w' : world)
    (output coverage out_buffer : Tensor) :
  Dec.time self = "positional_encoding" ->
  Dec.step self input context src buffer w = (w', Ok (output, coverage, out_buffer)) ->
  torch.size out_buffer 0 = Ok (length (Dec.layer_modules self))
  /\ exists calls,
       step_calls (trace w') = step_calls (trace w) ++ calls
       /\ length calls = length (Dec.layer_modules self)
       /\ (forall b, buffer = Some b -> length (Dec.layer_modules self) <= length b)
       /\ forall i c, calls !! i = Some c ->
            torch.index0 context (Z.of_nat i) = Ok (sc_memory c)
            /\ sc_buffer c = match buffer with
                             | Some b => b !! i
                             | None => None
                             end.
Proof.
  intros Ht H.
  destruct (dec_step_returned self input context src buffer w w' _ _ _ H)
    as (w1 & emb & mt & ms & buffer' & calls & Hp & Htr & Hn & Hsize & Hcalls).
  rewrite (dec_step_prepare_positional _ _ _ _ _ _ _ _ _ _ Ht Hp) in Hcalls.
  split; [exact Hsize|]. exists calls.
  split; [exact Htr|]. split; [exact Hn|]. split.
  - intros b Hb. destruct (length (Dec.layer_modules self)) as [|n] eqn:HN; [lia|].
    destruct (lookup_lt_is_Some_2 calls n ltac:(lia)) as [c Hc].
    destruct (Hcalls n c Hc) as (_ & _ & Hlt). specialize (Hlt b Hb). lia.
  - intros i c Hc. destruct (Hcalls i c Hc) as (Hm & Hb & _). now split.
Qed.

(** Under a recurrent time encoding the lines before the loop put the
    state the recurrent module returned into the entry 0 of the buffer. *)
Lemma dec_step_prepare_recurrent (self : Dec.t) (input src : LongTensor)
    (buffer buffer' : option (list Tensor)) (w w1 : world)
    (emb : Tensor) (mt ms : ByteTensor) :
  Dec.time self <> "positional_encoding" ->
  Dec.step_prepare self input src buffer w = (w1, Ok (emb, mt, ms, buffer')) ->
  exists m last input_ e0 x rest,
    (Dec.time_transformer self = Some (TM_GRU m)
     \/ Dec.time_transformer self = Some (TM_LSTM m))
    /\ torch.select1_last input = Ok last
    /\ torch.unsqueeze 1 last = Ok input_
    /\ Embedding_forward (Dec.word_lut self) input_ = Ok e0
    /\ buffer = Some (x :: rest)
    /\ buffer' = Some ((RNN_forward m e0 None (rng w)).1.2 :: rest).
Proof.
  intros Ht H. unfold Dec.step_prepare, Dec.step_time in H.
  rewrite (bool_decide_eq_false_2 _ Ht) in H. cbv beta iota in H.
  apply bind_ok in H. destruct H as (w2 & e1 & H1 & H).
  apply bind_ok in H. destruct H as (w3 & last & H2 & H).
  apply bind_ok in H. destruct H as (w4 & input_ & H3 & H).
  apply bind_ok in H. destruct H as (w5 & e0 & H4 & H).
  apply bind_ok in H. destruct H as (w6 & [e5 b5] & Hst & H).
  unfold lift in H1, H2, H3, H4.
  injection H1 as <- _. injection H2 as <- H2. injection H3 as <- H3.
  injection H4 as <- H4.
  apply bind_ok in H. destruct H as (w9 & e7 & _ & H).
  apply bind_ok in H. destruct H as (w10 & [[[m1 m2] m3] m4] & _ & H).
  apply bind_ok in H. destruct H as (w11 & e8 & _ & H).
  apply bind_ok in H. destruct H as (w12 & e9 & _ & H).
  injection H as _ _ _ _ <-.
  apply bind_ok in Hst. destruct Hst as (w7 & prev & Hprev & Hst).
  destruct buffer as [b|]; [|discriminate]. injection Hprev as <- <-.
  apply bind_ok in Hst. destruct Hst as (w8 & out & Hcall & Hst).
  apply bind_ok in Hst. destruct Hst as (w13 & h & Hh & Hst).
  apply bind_ok in Hst. destruct Hst as (w14 & b' & Hb & Hst).
  injection Hst as _ _ <-.
  unfold lift in Hh, Hb. injection Hh as _ Hh. injection Hb as _ Hb.
  unfold setitem0 in Hb. destruct b as [|x rest]; [discriminate|]. injection Hb as <-.
  unfold call_time_transformer in Hcall.
  apply bind_ok in Hcall. destruct Hcall as (w15 & tm & Htm & Hcall).
  unfold getattr in Htm. destruct (Dec.time_transformer self) as [tm'|]; [|discriminate].
  injection Htm as <- <-.
  destruct tm' as [|m|m].
  - destruct (Dec.positional_encoder self); discriminate.
  - exists m, last, input_, e0, x, rest.
    unfold mbind, M_bind, mret, M_ret, log, draw in Hcall. cbn in Hcall.
    destruct (RNN_forward m e0 None (rng w)) as [[o' h'] g']. cbn in Hcall.
    injection Hcall as _ <-. cbn in Hh. injection Hh as <-.
    repeat split; auto.
  - exists m, last, input_, e0, x, rest.
    unfold mbind, M_bind, mret, M_ret, log, draw in Hcall. cbn in Hcall.
    destruct (RNN_forward m e0 None (rng w)) as [[o' h'] g']. cbn in Hcall.
    injection Hcall as _ <-. cbn in Hh. injection Hh as <-.
    repeat split; auto.
Qed.

(** X11.  A step under a recurrent time encoding that returns was given
    a buffer with an entry 0, which it overwrote with the state the
    recurrent module returned for the embedding of the last position:
    the step of layer 0 is handed that state as its buffer, the step of
    every later layer [i] the entry [i] of the buffer given. *)
Theorem recurrent_step_hands_state_to_first_layer (self : Dec.t)
    (input : LongTensor) (context : Tensor) (src : LongTensor)
    (buffer : option (list Tensor)) (w w' : world)
    (output coverage out_buffer : Tensor) :
  Dec.time self <> "positional_encoding" ->
  Dec.step self input context src buffer w = (w', Ok (output, coverage, out_buffer)) ->
  exists m last input_ emb b calls,
    (Dec.time_transformer self = Some (TM_GRU m)
     \/ Dec.time_transformer self = Some (TM_LSTM m))
    /\ torch.select1_last input = Ok last
    /\ torch.unsqueeze 1 last = Ok input_
    /\ Embedding_forward (Dec.word_lut self) input_ = Ok emb
    /\ buffer = Some b
    /\ step_calls (trace w') = step_calls (trace w) ++ calls
    /\ length calls = length (Dec.layer_modules self)
    /\ forall i c, calls !! i = Some c ->
         sc_buffer c = if i =? 0
                       then Some (RNN_forward m emb None (rng w)).1.2
                       else b !! i.
Proof.
  intros Ht H.
  destruct (dec_step_returned self input context src buffer w w' _ _ _ H)
    as (w1 & emb & mt & ms & buffer' & calls & Hp & Htr & Hn & _ & Hcalls).
  destruct (dec_step_prepare_recurrent _ _ _ _ _ _ _ _ _ _ Ht Hp)
    as (m & last & input_ & e0 & x & rest & Hm & Hl & Hi & He & -> & ->).
  exists m, last, input_, e0, (x :: rest), calls.
  split; [exact Hm|]. split; [exact Hl|]. split; [exact Hi|]. split; [exact He|].
  split; [reflexivity|]. split; [exact Htr|]. split; [exact Hn|].
  intros i c Hc. destruct (Hcalls i c Hc) as (_ & -> & _).
  now destruct i.
Qed.

End StepBuffer.

(** ** Grow mode against full mode, the decoder *)

Section GrowModeDecoder.
Context {TY : Types} {RT : Runtime TY}.

Lemma agree_bind {A B} (m1 m2 : M A) (f1 f2 : A -> M B) (w1 w2 : world) :
  agree (m1 w1) (m2 w2) ->
  (forall a w1' w2', rng w1' = rng w2' -> agree (f1 a w1') (f2 a w2')) ->
  agree ((m1 ≫= f1) w1) ((m2 ≫= f2) w2).
Proof.
  unfold agree, mbind, M_bind. intros [Hr Hg] Hf.
  destruct (m1 w1) as [w1' [a|e]], (m2 w2) as [w2' r2]; cbn in Hr, Hg; subst r2.
  - now apply Hf.
  - now split.
Qed.

Lemma bind_assoc {A B C} (m : M A) (f : A -> M B) (g : B -> M C) (w : world) :
  ((m ≫= f) ≫= g) w = (m ≫= (fun a => f a ≫= g)) w.
Proof. unfold mbind, M_bind. now destruct (m w) as [w1 [a|e]]. Qed.

Lemma for_enumerate_app {X St} (body : nat -> X -> St -> M St) (l1 l2 : list X) :
  forall (i : nat) (st : St) (w : world),
  for_enumerate body i (l1 ++ l2) st w
  = (for_enumerate body i l1 st
     ≫= fun st' => for_enumerate body (i + length l1) l2 st') w.
Proof.
  induction l1 as [|x l1 IH]; intros i st w.
  - cbn. now rewrite Nat.add_0_r.
  - cbn [app for_enumerate length]. unfold mbind, M_bind.
    destruct (body i x st w) as [w1 [st1|e]]; [|reflexivity].
    rewrite IH. unfold mbind, M_bind. now rewrite Nat.add_succ_r.
Qed.

(** A loop of [forward_grow] over the indices [off + a, off + a + k)
    agrees with the loop of [forward] over the layers at those indices. *)
Lemma dec_grow_loop_agrees (self : Dec.t) (context : Tensor)
    (mt ms pmt pms : ByteTensor) (off : Z)
    (body : Z -> Tensor * option Tensor -> M (Tensor * option Tensor)) :
  (forall z output cov,
      body z (output, cov)
      = (layer ← lift (getitem (Dec.layer_modules self) (off + z)%Z);
         memory ← lift (torch.index0 context (off + z)%Z);
         '(output, coverage) ←
           Dec.call_layer self layer (output, memory, mt, ms, pmt, pms);
         mret (output, Some coverage))) ->
  (0 <= off)%Z ->
  forall (k a : nat) (st : Tensor * option Tensor) (wg wf : world),
  Z.to_nat off + a + k <= length (Dec.layer_modules self) ->
  rng wg = rng wf ->
  agree (for_each body (map Z.of_nat (seq a k)) st wg)
        (for_enumerate (Dec.forward_body self context mt ms pmt pms)
           (Z.to_nat off + a)
           (take k (drop (Z.to_nat off + a) (Dec.layer_modules self))) st wf).
Proof.
  intros Hbody Hoff. induction k as [|k IH]; intros a [output cov] wg wf Hlen Hg.
  - rewrite take_0. now split.
  - destruct (lookup_lt_is_Some_2 (Dec.layer_modules self) (Z.to_nat off + a))
      as [layer Hlayer]; [lia|].
    assert (Hget : getitem (Dec.layer_modules self) (off + Z.of_nat a)%Z = Ok layer).
    { unfold getitem. cbv zeta.
      destruct (Z.ltb_spec (off + Z.of_nat a) 0) as [|_]; [lia|].
      destruct (Z.ltb_spec (off + Z.of_nat a) 0) as [|_]; [lia|].
      replace (Z.to_nat (off + Z.of_nat a)) with (Z.to_nat off + a) by lia.
      now rewrite Hlayer. }
    rewrite (drop_S _ layer _ Hlayer). cbn [seq map for_each take for_enumerate].
    apply agree_bind.
    + rewrite Hbody, Hget, dec_forward_body_run.
      replace (Z.of_nat (Z.to_nat off + a)) with (off + Z.of_nat a)%Z by lia.
      unfold Dec.call_layer, mbind, M_bind, mret, M_ret, lift, draw, get_recompute, log.
      destruct (torch.index0 context (off + Z.of_nat a)) as [memory|e]; [|now split].
      cbn. rewrite Hg.
      destruct (DecoderLayer_forward _ _ _ _ _ _ _ _ _) as [[out c] g]. now split.
    + intros st1 w1 w2 Hg1.
      replace (S (Z.to_nat off + a)) with (Z.to_nat off + S a) by lia.
      apply IH; [lia|exact Hg1].
Qed.

Lemma dec_finish_agrees (self : Dec.t) (output : Tensor) (coverage : option Tensor)
    (w1 w2 : world) :
  rng w1 = rng w2 ->
  agree (Dec.finish self output coverage w1) (Dec.finish self output coverage w2).
Proof.
  intros Hg. unfold Dec.finish, getattr.
  destruct (Dec.postprocess_layer self) as [post|]; [|now split].
  unfold mbind, M_bind, mret, M_ret, draw, raise. cbn. rewrite Hg.
  now destruct coverage.
Qed.

Lemma dec_grow_agrees (self : Dec.t) (input : LongTensor) (context : Tensor)
    (src : LongTensor) (p : Z) (w : world) :
  Dec.pretrained_point self = Some p ->
  (0 <= p <= Dec.layers self)%Z ->
  Dec.layers self = Z.of_nat (length (Dec.layer_modules self)) ->
  agree (Dec.forward self input context src true w)
        (Dec.forward self input context src false w).
Proof.
  intros Hp Hrange HN. unfold Dec.forward, Dec.forward_grow. rewrite Hp.
  apply agree_bind; [now split|].
  intros [[[[emb ms] mt] pmt] pms] w1 w2 Hg.
  unfold getattr. unfold mbind at 1, M_bind at 1, mret at 1, M_ret at 1.
  cbv beta iota. unfold range.
  match goal with
  | |- context [for_each ?b (map Z.of_nat (seq 0 (Z.to_nat p)))] =>
      pose proof (dec_grow_loop_agrees self context mt ms pmt pms 0 b
                    ltac:(intros z output cov; reflexivity) ltac:(lia)
                    (Z.to_nat p) 0 (emb, None) w1 w2 ltac:(cbn; lia) Hg) as H1
  end.
  match goal with
  | |- context [for_each ?b (map Z.of_nat (seq 0 (Z.to_nat (Dec.layers self - p))))] =>
      pose proof (fun st wg wf =>
                    dec_grow_loop_agrees self context mt ms pmt pms p b
                      ltac:(intros z output cov; reflexivity) ltac:(lia)
                      (Z.to_nat (Dec.layers self - p)) 0 st wg wf ltac:(lia)) as H2
  end.
  change (Z.to_nat 0 + 0) with 0 in H1. rewrite drop_0 in H1.
  rewrite Nat.add_0_r in H2.
  rewrite (take_ge (drop (Z.to_nat p) (Dec.layer_modules self))) in H2
    by (rewrite length_drop; lia).
  match goal with
  | |- agree _ ((for_enumerate ?fb 0 _ ?st0 ≫= _) w2) =>
      assert (Hsplit : for_enumerate fb 0 (Dec.layer_modules self) st0 w2
                       = (for_enumerate fb 0 (take (Z.to_nat p) (Dec.layer_modules self)) st0
                          ≫= fun st' =>
                               for_enumerate fb (Z.to_nat p)
                                 (drop (Z.to_nat p) (Dec.layer_modules self)) st') w2)
  end.
  { rewrite <- (take_drop (Z.to_nat p) (Dec.layer_modules self)) at 1.
    rewrite for_enumerate_app, length_take, Nat.min_l by lia. reflexivity. }
  unfold mbind, M_bind in Hsplit |- *. rewrite Hsplit. clear Hsplit.
  unfold agree in H1.
  destruct (for_each _ (map Z.of_nat (seq 0 (Z.to_nat p))) (emb, None) w1)
    as [wg1 [st1|e]],
    (for_enumerate _ 0 (take (Z.to_nat p) (Dec.layer_modules self)) (emb, None) w2)
    as [wf1 rf1]; destruct H1 as [Hr Hg1]; cbn [fst snd] in Hr, Hg1; subst rf1;
    [|now split].
  destruct st1 as [o1 c1]. specialize (H2 (o1, c1) wg1 wf1 Hg1). unfold agree in H2.
  destruct (for_each _ _ (o1, c1) wg1) as [wg2 [st2|e]],
    (for_enumerate _ _ _ (o1, c1) wf1) as [wf2 rf2];
    destruct H2 as [Hr Hg2]; cbn [fst snd] in Hr, Hg2; subst rf2; [|now split].
  destruct st2 as [o2 c2]. now apply dec_finish_agrees.
Qed.

(** X12.  A decoder whose pretrained point [p] lies between 0 and its
    number of layers, this number being the length of its list of
    layers: [forward(input, context, src, grow=True)] returns what
    [forward(input, context, src)] returns, the output and the coverage
    or the exception, and leaves the random generator in the same
    state. *)
Theorem decoder_grow_forward_agrees (self : Dec.t) (input : LongTensor)
    (context : Tensor) (src : LongTensor) (p : Z) (w : world) :
  Dec.pretrained_point self = Some p ->
  (0 <= p <= Dec.layers self)%Z ->
  Dec.layers self = Z.of_nat (length (Dec.layer_modules self)) ->
  (Dec.forward self input context src true w).2
  = (Dec.forward self input context src false w).2
  /\ rng (Dec.forward self input context src true w).1
     = rng (Dec.forward self input context src false w).1.
Proof.
  intros Hp Hrange HN. exact (dec_grow_agrees self input context src p w Hp Hrange HN).
Qed.

(** X13.  The way to grow a stack: [mark_pretrained()], then
    [add_layers(n)] with [n >= 0], on an encoder with at least one layer
    and on a decoder whose post-processing unit is bound, the counters
    of both agreeing with their lists of layers.  Both calls of
    [add_layers] return, and on the grown stacks every forward in grow
    mode agrees with the forward in full mode. *)
Theorem grow_after_mark_and_add (enc : Enc.t) (dec : Dec.t) (n : Z) (w : world) :
  Enc.layers enc = Z.of_nat (length (Enc.layer_modules enc)) ->
  1 <= length (Enc.layer_modules enc) ->
  Dec.layers dec = Z.of_nat (length (Dec.layer_modules dec)) ->
  is_Some (Dec.postprocess_layer dec) ->
  (0 <= n)%Z ->
  (exists w' enc',
     Enc.add_layers (Enc.mark_pretrained enc) n w = (w', Ok enc')
     /\ forall input w1,
          agree (Enc.forward enc' input true w1) (Enc.forward enc' input false w1))
  /\
  (exists w' dec',
     Dec.add_layers (Dec.mark_pretrained dec) n w = (w', Ok dec')
     /\ forall input context src w1,
          agree (Dec.forward dec' input context src true w1)
                (Dec.forward dec' input context src false w1)).
Proof.
  intros He HNe Hd Hpost Hn. split.
  - destruct (enc_add_layers_any (Enc.mark_pretrained enc) n w)
      as (w' & enc' & Hrun & Hlen & _ & Hl & _).
    exists w', enc'. split; [exact Hrun|]. intros input w1.
    pose proof (enc_add_layers_pretrained_point _ _ _ _ _ Hrun) as Hp.
    cbn in Hp, Hlen, Hl.
    apply (enc_grow_agrees enc' input (Enc.layers enc) w1 Hp); lia.
  - destruct (dec_add_layers_any (Dec.mark_pretrained dec) n w (or_introl Hpost))
      as (w' & dec' & Hrun & Hlen & _ & Hl & _).
    exists w', dec'. split; [exact Hrun|]. intros input context src w1.
    pose proof (dec_add_layers_pretrained_point _ _ _ _ _ Hrun) as Hp.
    cbn in Hp, Hlen, Hl.
    apply (dec_grow_agrees dec' input context src (Dec.layers dec) w1 Hp); lia.
Qed.

End GrowModeDecoder.

(** ** The masks of a step *)

Section StepMask.
Context {TY : Types} {RT : Runtime TY}.

(** An entry of [t[:, -1].unsqueeze(1)]. *)
Lemma select1_last_get (t : tensor Z) (b l m k j : nat) :
  shape t = [b; l; m] -> length (data t) = b * (l * m) -> 1 <= l ->
  k < b -> j < m ->
  exists last row,
    torch.select1_last t = Ok last
    /\ torch.unsqueeze 1 last = Ok row
    /\ shape row = [b; 1; m]
    /\ torch.get row [k; 0; j] = torch.get t [k; l - 1; j].
Proof.
  intros Hs Hd Hl Hk Hj. unfold torch.select1_last, torch.select1. rewrite Hs.
  destruct (Nat.eqb_spec l 0); [lia|].
  destruct (Nat.ltb_spec (l - 1) l); [|lia].
  eexists _, _. split; [reflexivity|]. split; [reflexivity|]. split; [reflexivity|].
  unfold torch.get. cbn [shape data take drop app torch.ravel torch.numel fold_right].
  rewrite Hs. cbn [torch.ravel torch.numel fold_right]. unfold torch.chunks.
  replace (k * (1 * (m * 1)) + (0 * (m * 1) + (j * 1 + 0))) with (k * (m * 1) + j) by lia.
  rewrite nth_concat_uniform.
  - rewrite (nth_lookup (map _ _)), !list_lookup_fmap, lookup_seq_lt by exact Hk.
    cbn. rewrite !nth_lookup, lookup_take, lookup_drop.
    destruct (decide (j < m * 1)) as [_|]; [|lia].
    do 2 f_equal. nia.
  - apply Forall_forall. intros x Hx. apply list_elem_of_In, in_map_iff in Hx.
    destruct Hx as (o & <- & Ho). apply in_map_iff in Ho.
    destruct Ho as (k' & <- & Hk'). apply in_seq in Hk'.
    rewrite length_take, length_drop, Hd.
    assert (Ho : k' * l + (l - 1) + 1 <= b * l) by nia.
    assert (Hm : (k' * l + (l - 1) + 1) * m <= b * l * m)
      by (apply Nat.mul_le_mono_r; exact Ho).
    lia.
  - lia.
Qed.

(** X14.  The mask over the target that [step] hands to the layers is
    the last row of the attention mask, where the causal part is zero:
    for a (batch, length) input no longer than the causal mask it has
    the shape (batch, 1, length) and suppresses position [j] of sentence
    [k] exactly when the token [j] of that sentence is the padding. *)
Theorem step_mask_is_padding (self : Dec.t) (input src : LongTensor)
    (buffer buffer' : option (list Tensor)) (b l bs ls : nat) (n : Z)
    (w w1 : world) (emb : Tensor) (mask_tgt mask_src : ByteTensor) :
  causal_mask n = Ok (Dec.mask self) ->
  shape input = [b; l] -> length (data input) = b * l ->
  shape src = [bs; ls] ->
  (Z.of_nat l <= n)%Z ->
  Dec.step_prepare self input src buffer w
  = (w1, Ok (emb, mask_tgt, mask_src, buffer')) ->
  shape mask_tgt = [b; 1; l]
  /\ forall k j, k < b -> j < l ->
       torch.get mask_tgt [k; 0; j]
       = if (torch.get input [k; j] =? PAD)%Z then 1%Z else 0%Z.
Proof.
  intros Hmask Hin Hdata Hsrc Hl H.
  destruct (causal_mask_strictly_upper n ltac:(lia)) as (m & Hm & Hup).
  rewrite Hmask in Hm. injection Hm as <-.
  unfold Dec.step_prepare in H.
  apply bind_ok in H. destruct H as (w2 & e1 & _ & H).
  apply bind_ok in H. destruct H as (w3 & e2 & Hsel & H).
  apply bind_ok in H. destruct H as (w4 & e3 & _ & H).
  apply bind_ok in H. destruct H as (w5 & e4 & _ & H).
  apply bind_ok in H. destruct H as (w6 & [e5 b5] & _ & H).
  apply bind_ok in H. destruct H as (w7 & e7 & _ & H).
  apply bind_ok in H. destruct H as (w8 & [[[m1 mt] m3] m4] & Hmasks & H).
  apply bind_ok in H. destruct H as (w9 & last & Hlast & H).
  apply bind_ok in H. destruct H as (w10 & row & Hrow & H).
  injection H as _ _ <- _ _.
  assert (H1 : 1 <= l).
  { unfold lift in Hsel. injection Hsel as _ Hsel.
    unfold torch.select1_last in Hsel. rewrite Hin in Hsel.
    destruct (Nat.eqb_spec l 0); [discriminate|lia]. }
  destruct (dec_masks_run self input src b l bs ls (Z.to_nat n) w7 Hup Hin Hdata Hsrc
              ltac:(lia)) as (mt' & Hrun & Hshape & Hlen & Hget).
  rewrite Hrun in Hmasks. injection Hmasks as _ _ <- _ _.
  unfold lift in Hlast, Hrow. injection Hlast as _ Hlast. injection Hrow as _ Hrow.
  assert (Hs : shape row = [b; 1; l]).
  { unfold torch.select1_last, torch.select1 in Hlast. rewrite Hshape in Hlast.
    destruct (l =? 0); [discriminate|]. destruct (l - 1 <? l); [|discriminate].
    injection Hlast as <-. unfold torch.unsqueeze in Hrow. cbn in Hrow.
    now injection Hrow as <-. }
  split; [exact Hs|]. intros k j Hk Hj.
  destruct (select1_last_get mt' b l l k j Hshape Hlen H1 Hk Hj)
    as (last' & row' & Hlast' & Hrow' & _ & Hentry).
  rewrite Hlast in Hlast'. injection Hlast' as <-.
  rewrite Hrow in Hrow'. injection Hrow' as <-.
  rewrite Hentry, (Hget k (l - 1) j Hk ltac:(lia) Hj).
  destruct (Nat.ltb_spec (l - 1) j); [lia|]. now rewrite orb_false_r.
Qed.

(** X15.  A decoder reads the source for its padding only: two sources
    with the padding at the same places give the same forward, in full
    and in grow mode, and the same step. *)
Theorem decoder_reads_source_padding_only (self : Dec.t) (input : LongTensor)
    (context : Tensor) (src src' : LongTensor) (grow : bool)
    (buffer : option (list Tensor)) (w : world) :
  torch.eq src PAD = torch.eq src' PAD ->
  Dec.forward self input context src grow w
  = Dec.forward self input context src' grow w
  /\ Dec.step self input context src buffer w
     = Dec.step self input context src' buffer w.
Proof.
  intros H.
  assert (Hmasks : Dec.masks self input src = Dec.masks self input src').
  { unfold Dec.masks. now rewrite H. }
  split.
  - unfold Dec.forward, Dec.forward_grow, Dec.embed. now rewrite Hmasks.
  - unfold Dec.step, Dec.step_prepare. now rewrite Hmasks.
Qed.

End StepMask.

(** * The further properties on the runtime of the scenario *)

Section FurtherRuns.
Import Scenario.

Lemma add_layers_counter_and_list_witness :
  (is_Some (Dec.postprocess_layer (decoder 2 "positional_encoding")))
  /\
  (Enc.layers (encoder 2 "positional_encoding") = Z.of_nat (length (Enc.layer_modules (encoder 2 "positional_encoding"))))
  /\
  (Dec.layers (decoder 2 "positional_encoding") = Z.of_nat (length (Dec.layer_modules (decoder 2 "positional_encoding"))))
  /\
  ((exists w' enc',
     Enc.add_layers (encoder 2 "positional_encoding") 2%Z world100 = (w', Ok enc')
     /\ length (Enc.layer_modules enc')
        = length (Enc.layer_modules (encoder 2 "positional_encoding")) + Z.to_nat 2%Z
     /\ take (length (Enc.layer_modules (encoder 2 "positional_encoding"))) (Enc.layer_modules enc')
        = Enc.layer_modules (encoder 2 "positional_encoding")
     /\ ((0 <= 2%Z)%Z -> Enc.layers enc' = Z.of_nat (length (Enc.layer_modules enc')))
     /\ ((2%Z < 0)%Z ->
         Enc.layer_modules enc' = Enc.layer_modules (encoder 2 "positional_encoding")
         /\ Enc.postprocess_layer enc' = Enc.postprocess_layer (encoder 2 "positional_encoding")
         /\ (Enc.layers enc' < Z.of_nat (length (Enc.layer_modules enc')))%Z))
  /\
  (exists w' dec',
     Dec.add_layers (decoder 2 "positional_encoding") 2%Z world100 = (w', Ok dec')
     /\ length (Dec.layer_modules dec')
        = length (Dec.layer_modules (decoder 2 "positional_encoding")) + Z.to_nat 2%Z
     /\ take (length (Dec.layer_modules (decoder 2 "positional_encoding"))) (Dec.layer_modules dec')
        = Dec.layer_modules (decoder 2 "positional_encoding")
     /\ ((0 <= 2%Z)%Z -> Dec.layers dec' = Z.of_nat (length (Dec.layer_modules dec')))
     /\ ((2%Z < 0)%Z ->
         Dec.layer_modules dec' = Dec.layer_modules (decoder 2 "positional_encoding")
         /\ Dec.postprocess_layer dec' = Dec.postprocess_layer (decoder 2 "positional_encoding")
         /\ (Dec.layers dec' < Z.of_nat (length (Dec.layer_modules dec')))%Z))).
Proof.
  split; [vm_compute; eexists; reflexivity|].
  split; [reflexivity|].
  split; [reflexivity|].
  apply (add_layers_counter_and_list (TY := types) (RT := runtime)
           ((encoder 2 "positional_encoding")) ((decoder 2 "positional_encoding")) 2%Z world100);
    [vm_compute; eexists; reflexivity | reflexivity | reflexivity].
Defined.

Lemma decoder_version_without_postprocess_witness :
  Qeq_bool (opt.version options_v2) 1 = false
  /\ embeddable 10 (opt.model_size options_v2) PAD
  /\ (0 <= len_max 4%Z)%Z
  /\ (exists w' self,
        Dec.init options_v2 10%Z (Some 4%Z) world0 = (w', Ok self)
        /\ Dec.postprocess_layer self = None
        /\ (forall input context src grow w1,
              is_ok (Dec.forward self input context src grow w1).2 = false)
        /\ (forall input context src buffer w1,
              is_ok (Dec.step self input context src buffer w1).2 = false)
        /\ (forall n w1, (1 <= n)%Z ->
              (Dec.add_layers self n w1).2 = Raise AttributeError)).
Proof.
  split; [reflexivity|].
  split; [unfold embeddable; cbn; lia|].
  split; [vm_compute; discriminate|].
  destruct (decoder_version_without_postprocess (TY := types) (RT := runtime)
              options_v2 10%Z 4%Z world0 eq_refl) as [Hreturns Hall].
  destruct Hreturns as (w' & self & Hinit);
    [unfold embeddable; cbn; lia | vm_compute; discriminate|].
  exists w', self. split; [exact Hinit|]. exact (Hall _ _ _ Hinit).
Defined.

Lemma decoder_without_layers_cannot_run_witness :
  (Dec.layer_modules (decoder 0 "positional_encoding") = [])
  /\
  ((is_ok (Dec.forward (decoder 0 "positional_encoding") target (memory_bank 2) source false world0).2 = false
   /\ (is_ok (Dec.embed (decoder 0 "positional_encoding") target source world0).2 = true ->
       is_Some (Dec.postprocess_layer (decoder 0 "positional_encoding")) ->
       (Dec.forward (decoder 0 "positional_encoding") target (memory_bank 2) source false world0).2 = Raise UnboundLocalError))
  /\
  (is_ok (Dec.step (decoder 0 "positional_encoding") target (memory_bank 2) source None world0).2 = false
   /\ (is_ok (Dec.step_prepare (decoder 0 "positional_encoding") target source None world0).2 = true ->
       (Dec.step (decoder 0 "positional_encoding") target (memory_bank 2) source None world0).2 = Raise RuntimeError))).
Proof.
  split; [reflexivity|].
  apply (decoder_without_layers_cannot_run (TY := types) (RT := runtime)
           ((decoder 0 "positional_encoding")) target ((memory_bank 2)) source None world0);
    [reflexivity].
Defined.

Lemma encoder_grow_forward_agrees_witness :
  (Enc.pretrained_point marked_grown_encoder = Some 2%Z)
  /\
  ((1 <= 2%Z <= Enc.layers marked_grown_encoder)%Z)
  /\
  (Enc.layers marked_grown_encoder = Z.of_nat (length (Enc.layer_modules marked_grown_encoder)))
  /\
  ((Enc.forward marked_grown_encoder source true world0).2 = (Enc.forward marked_grown_encoder source false world0).2
  /\ rng (Enc.forward marked_grown_encoder source true world0).1 = rng (Enc.forward marked_grown_encoder source false world0).1).
Proof.
  split; [reflexivity|].
  split; [vm_compute; split; discriminate|].
  split; [reflexivity|].
  apply (encoder_grow_forward_agrees (TY := types) (RT := runtime)
           marked_grown_encoder source 2%Z world0);
    [reflexivity | vm_compute; split; discriminate | reflexivity].
Defined.

Lemma decoder_attention_mask_witness :
  (causal_mask 4%Z = Ok (Dec.mask (decoder 2 "positional_encoding")))
  /\
  (shape target = [1; 2])
  /\
  (length (data target) = 1 * 2)
  /\
  (shape source = [1; 3])
  /\
  ((Z.of_nat 2 <= 4%Z)%Z)
  /\
  (exists mask_src mask_tgt pad_mask_tgt pad_mask_src,
    Dec.masks (decoder 2 "positional_encoding") target source world0
    = (world0, Ok (mask_src, mask_tgt, pad_mask_tgt, pad_mask_src))
    /\ shape mask_tgt = [1; 2; 2]
    /\ (forall k i j, k < 1 -> i < 2 -> j < 2 ->
          torch.get mask_tgt [k; i; j]
          = if (torch.get target [k; j] =? PAD)%Z || (i <? j) then 1%Z else 0%Z)
    /\ pad_mask_tgt = torch.ne target PAD
    /\ pad_mask_src = torch.ne source PAD
    /\ mask_src = mk_tensor [1; 1; 3] (data (torch.eq source PAD))).
Proof.
  split; [reflexivity|].
  split; [reflexivity|].
  split; [reflexivity|].
  split; [reflexivity|].
  split; [vm_compute; discriminate|].
  apply (decoder_attention_mask (TY := types) (RT := runtime)
           ((decoder 2 "positional_encoding")) target source 1 2 1 3 4%Z world0);
    [reflexivity | reflexivity | reflexivity | reflexivity | vm_compute; discriminate].
Defined.

Lemma decoder_rejects_longer_input_witness :
  (causal_mask 4%Z = Ok (Dec.mask (decoder 2 "positional_encoding")))
  /\
  (shape long_target = [1; 5])
  /\
  (shape source = [1; 3])
  /\
  ((4%Z < Z.of_nat 5)%Z)
  /\
  (2 <= 5)
  /\
  (4%Z <> 1%Z)
  /\
  (Dec.masks (decoder 2 "positional_encoding") long_target source world0 = (world0, Raise RuntimeError)
  /\ is_ok (Dec.forward (decoder 2 "positional_encoding") long_target (memory_bank 2) source false world0).2 = false
  /\ is_ok (Dec.step (decoder 2 "positional_encoding") long_target (memory_bank 2) source None world0).2 = false).
Proof.
  split; [reflexivity|].
  split; [reflexivity|].
  split; [reflexivity|].
  split; [reflexivity|].
  split; [lia|].
  split; [discriminate|].
  apply (decoder_rejects_longer_input (TY := types) (RT := runtime)
           ((decoder 2 "positional_encoding")) long_target ((memory_bank 2)) source None 1 5 1 3 4%Z false world0);
    [reflexivity | reflexivity | reflexivity | reflexivity | lia | discriminate].
Defined.

Lemma decoder_grow_forward_agrees_witness :
  (Dec.pretrained_point marked_grown_decoder = Some 2%Z)
  /\
  ((0 <= 2%Z <= Dec.layers marked_grown_decoder)%Z)
  /\
  (Dec.layers marked_grown_decoder = Z.of_nat (length (Dec.layer_modules marked_grown_decoder)))
  /\
  ((Dec.forward marked_grown_decoder target (memory_bank 3) source true world0).2
  = (Dec.forward marked_grown_decoder target (memory_bank 3) source false world0).2
  /\ rng (Dec.forward marked_grown_decoder target (memory_bank 3) source true world0).1
     = rng (Dec.forward marked_grown_decoder target (memory_bank 3) source false world0).1).
Proof.
  split; [reflexivity|].
  split; [vm_compute; split; discriminate|].
  split; [reflexivity|].
  apply (decoder_grow_forward_agrees (TY := types) (RT := runtime)
           marked_grown_decoder target ((memory_bank 3)) source 2%Z world0);
    [reflexivity | vm_compute; split; discriminate | reflexivity].
Defined.

Lemma grow_after_mark_and_add_witness :
  (Enc.layers (encoder 2 "positional_encoding") = Z.of_nat (length (Enc.layer_modules (encoder 2 "positional_encoding"))))
  /\
  (1 <= length (Enc.layer_modules (encoder 2 "positional_encoding")))
  /\
  (Dec.layers (decoder 2 "positional_encoding") = Z.of_nat (length (Dec.layer_modules (decoder 2 "positional_encoding"))))
  /\
  (is_Some (Dec.postprocess_layer (decoder 2 "positional_encoding")))
  /\
  ((0 <= 1%Z)%Z)
  /\
  ((exists w' enc',
     Enc.add_layers (Enc.mark_pretrained (encoder 2 "positional_encoding")) 1%Z world100 = (w', Ok enc')
     /\ forall input w1,
          agree (Enc.forward enc' input true w1) (Enc.forward enc' input false w1))
  /\
  (exists w' dec',
     Dec.add_layers (Dec.mark_pretrained (decoder 2 "positional_encoding")) 1%Z world100 = (w', Ok dec')
     /\ forall input context src w1,
          agree (Dec.forward dec' input context src true w1)
                (Dec.forward dec' input context src false w1))).
Proof.
  split; [reflexivity|].
  split; [vm_compute; lia|].
  split; [reflexivity|].
  split; [vm_compute; eexists; reflexivity|].
  split; [discriminate|].
  apply (grow_after_mark_and_add (TY := types) (RT := runtime)
           ((encoder 2 "positional_encoding")) ((decoder 2 "positional_encoding")) 1%Z world100);
    [reflexivity | vm_compute; lia | reflexivity | vm_compute; eexists; reflexivity | discriminate].
Defined.

Lemma decoder_reads_source_padding_only_witness :
  (torch.eq source PAD = torch.eq other_source PAD)
  /\
  (Dec.forward (decoder 2 "positional_encoding") target (memory_bank 2) source false world0
  = Dec.forward (decoder 2 "positional_encoding") target (memory_bank 2) other_source false world0
  /\ Dec.step (decoder 2 "positional_encoding") target (memory_bank 2) source (Some buffer2) world0
     = Dec.step (decoder 2 "positional_encoding") target (memory_bank 2) other_source (Some buffer2) world0).
Proof.
  split; [reflexivity|].
  apply (decoder_reads_source_padding_only (TY := types) (RT := runtime)
           ((decoder 2 "positional_encoding")) target ((memory_bank 2)) source other_source false ((Some buffer2)) world0);
    [reflexivity].
Defined.

Lemma encoder_grow_forward_from_zero_witness :
  Enc.pretrained_point encoder_grown_from_empty = Some 0%Z
  /\ Enc.layers encoder_grown_from_empty
     = Z.of_nat (length (Enc.layer_modules encoder_grown_from_empty))
  /\ exists (w' : world) (memory_bank : Tensor) (mask_src : ByteTensor),
       Enc.forward encoder_grown_from_empty source true world0
       = (w', Ok (memory_bank, mask_src))
       /\ torch.size memory_bank 0
          = Ok (length (Enc.layer_modules encoder_grown_from_empty) + 1).
Proof.
  split; [reflexivity|]. split; [reflexivity|].
  eexists _, _, _. split; [vm_compute; reflexivity|].
  eapply (encoder_grow_forward_from_zero (TY := types) (RT := runtime)
           encoder_grown_from_empty source world0);
    [reflexivity | reflexivity | vm_compute; reflexivity].
Defined.

Lemma step_threads_buffer_witness :
  Dec.time (decoder 2 "positional_encoding") = "positional_encoding"
  /\ exists (w' : world) (output coverage out_buffer : Tensor),
       Dec.step (decoder 2 "positional_encoding") target (memory_bank 2) source
         (Some buffer2) world0
       = (w', Ok (output, coverage, out_buffer))
       /\ torch.size out_buffer 0
          = Ok (length (Dec.layer_modules (decoder 2 "positional_encoding")))
       /\ exists calls,
            step_calls (trace w') = step_calls (trace world0) ++ calls
            /\ length calls = length (Dec.layer_modules (decoder 2 "positional_encoding"))
            /\ (forall b, Some buffer2 = Some b ->
                  length (Dec.layer_modules (decoder 2 "positional_encoding")) <= length b)
            /\ forall i c, calls !! i = Some c ->
                 torch.index0 (memory_bank 2) (Z.of_nat i) = Ok (sc_memory c)
                 /\ sc_buffer c = buffer2 !! i.
Proof.
  split; [reflexivity|].
  eexists _, _, _, _. split; [vm_compute; reflexivity|].
  eapply (step_threads_buffer (TY := types) (RT := runtime)
           (decoder 2 "positional_encoding") target (memory_bank 2) source
           (Some buffer2) world0);
    [reflexivity | vm_compute; reflexivity].
Defined.

Lemma recurrent_step_hands_state_to_first_layer_witness :
  Dec.time (decoder 2 "gru") <> "positional_encoding"
  /\ exists (w' : world) (output coverage out_buffer : Tensor),
       Dec.step (decoder 2 "gru") target (memory_bank 2) source (Some buffer2) world0
       = (w', Ok (output, coverage, out_buffer))
       /\ exists m last input_ emb b calls,
            (Dec.time_transformer (decoder 2 "gru") = Some (TM_GRU m)
             \/ Dec.time_transformer (decoder 2 "gru") = Some (TM_LSTM m))
            /\ torch.select1_last target = Ok last
            /\ torch.unsqueeze 1 last = Ok input_
            /\ Embedding_forward (Dec.word_lut (decoder 2 "gru")) input_ = Ok emb
            /\ Some buffer2 = Some b
            /\ step_calls (trace w') = step_calls (trace world0) ++ calls
            /\ length calls = length (Dec.layer_modules (decoder 2 "gru"))
            /\ forall i c, calls !! i = Some c ->
                 sc_buffer c = if i =? 0
                               then Some (RNN_forward m emb None (rng world0)).1.2
                               else b !! i.
Proof.
  split; [discriminate|].
  eexists _, _, _, _. split; [vm_compute; reflexivity|].
  eapply (recurrent_step_hands_state_to_first_layer (TY := types) (RT := runtime)
           (decoder 2 "gru") target (memory_bank 2) source (Some buffer2) world0);
    [discriminate | vm_compute; reflexivity].
Defined.

Lemma step_mask_is_padding_witness :
  causal_mask 4 = Ok (Dec.mask (decoder 2 "positional_encoding"))
  /\ shape target = [1; 2]
  /\ length (data target) = 1 * 2
  /\ shape source = [1; 3]
  /\ (Z.of_nat 2 <= 4)%Z
  /\ exists (w1 : world) (emb : Tensor) (mask_tgt mask_src : ByteTensor)
       (buffer' : option (list Tensor)),
       Dec.step_prepare (decoder 2 "positional_encoding") target source None world0
       = (w1, Ok (emb, mask_tgt, mask_src, buffer'))
       /\ shape mask_tgt = [1; 1; 2]
       /\ forall k j, k < 1 -> j < 2 ->
            torch.get mask_tgt [k; 0; j]
            = if (torch.get target [k; j] =? PAD)%Z then 1%Z else 0%Z.
Proof.
  split; [reflexivity|]. split; [reflexivity|]. split; [reflexivity|].
  split; [reflexivity|]. split; [vm_compute; discriminate|].
  eexists _, _, _, _, _. split; [vm_compute; reflexivity|].
  eapply (step_mask_is_padding (TY := types) (RT := runtime)
           (decoder 2 "positional_encoding") target source None _ 1 2 1 3 4 world0);
    [reflexivity | reflexivity | reflexivity | reflexivity | vm_compute; discriminate
    | vm_compute; reflexivity].
Defined.

(** The runs behind the witnesses: the encoder of the scenario grown
    from its two pretrained layers returns the same bank in both modes,
    the encoder grown from none returns one slice more in grow mode; the
    attention mask over the target [3, PAD] of the scenario. *)
Example scenario_grow_mode :
  is_ok (Enc.forward marked_grown_encoder source true world0).2 = true
  /\ (exists bank ms,
        (Enc.forward encoder_grown_from_empty source true world0).2 = Ok (bank, ms)
        /\ torch.size bank 0 = Ok 3)
  /\ (exists bank ms,
        (Enc.forward encoder_grown_from_empty source false world0).2 = Ok (bank, ms)
        /\ torch.size bank 0 = Ok 2).
Proof.
  split; [reflexivity|]. split; eexists _, _; (split; [vm_compute; reflexivity|]);
    reflexivity.
Qed.

Example scenario_attention_mask :
  (exists ms pmt pms,
     (Dec.masks (decoder 2 "positional_encoding") target source world0).2
     = Ok (ms, mk_tensor [1; 2; 2] [0; 1; 0; 1]%Z, pmt, pms))
  /\ (Dec.masks (decoder 2 "positional_encoding") long_target source world0).2
     = Raise RuntimeError.
Proof. split; [eexists _, _, _; vm_compute|]; reflexivity. Qed.

(** The constructors on the scenario: an unknown time encoding and a
    missing positional encoder give an encoder whose forward raises after
    the lookup; a word the table does not have raises at the lookup. *)
Example scenario_unusable_time :
  (exists w' self,
     Enc.init (options 2 "none") 10 positional world0 = (w', Ok self)
     /\ (Enc.forward self source false world0).2 = Raise AttributeError
     /\ (Enc.forward self source true world0).2 = Raise AttributeError
     /\ (Enc.forward self (mk_tensor [1; 3] [5; 10; 2]%Z) false world0).2
        = Raise IndexError)
  /\ (exists w' self,
        Enc.init (options 2 "positional_encoding") 10 None world0 = (w', Ok self)
        /\ (Enc.forward self source false world0).2 = Raise TypeError)
  /\ (Dec.init (options 2 "positional_encoding") 10 None world0).2
     = Raise AttributeError
  /\ (Dec.init (options 2 "positional_encoding") 10 (Some (-1)%Z) world0).2
     = Raise ValueError.
Proof.
  split; [|split; [|split]].
  - eexists _, _. split; [vm_compute; reflexivity|]. repeat split; reflexivity.
  - eexists _, _. split; [vm_compute; reflexivity|]. reflexivity.
  - reflexivity.
  - reflexivity.
Qed.

End FurtherRuns.
